(** * celery_prometheus_exporter: a shallow embedding and its properties

    The development follows [celery_prometheus_exporter.py]:

    - the module-level metric objects ([TASKS], [TASKS_NAME], [WORKERS],
      [LATENCY], [TASKS_RUNTIME], [QUEUE_LENGTHS], [QUEUE_TASKS]);
    - [MonitorThread]: [_process_event], [_observe_runtime],
      [_observe_latency], [_collect_tasks], [_incr_ready_task],
      [_collect_unready_tasks], and one turn of [_monitor];
    - [WorkerMonitoringThread.update_workers_count];
    - [BrokerQueueMonitorThread]: [collect_metrics] and its helpers, and one
      turn of [run];
    - [setup_metrics].

    Python exceptions are modelled by a state-and-error monad in which the
    state reached at the point of the [raise] is kept, as in Python.  The
    libraries the module calls into (celery's event state, prometheus_client,
    redis) are not part of the repository; the few operations used are
    modelled next to their callers, each with the behaviour it is given. *)

From Stdlib Require Import ZArith String Ascii Floats.PrimFloat.
From stdpp Require Import base option list gmap sets strings.

Local Open Scope string_scope.
Local Open Scope Z_scope.

(** ** Exceptions and results *)

Inductive exn : Type :=
  | KeyError
  | AttributeError
  | TypeError
  | StopIteration
  | UnicodeDecodeError
  | JSONDecodeError
  | ResponseError
  | ConnectionError.

Inductive result (A : Type) : Type :=
  | Ok (a : A)
  | Raise (e : exn).
Arguments Ok {A} a.
Arguments Raise {A} e.

Definition is_Ok {A} (r : result A) : bool :=
  match r with Ok _ => true | Raise _ => false end.

Definition exn_eqb (a b : exn) : bool :=
  match a, b with
  | KeyError, KeyError | AttributeError, AttributeError
  | TypeError, TypeError | StopIteration, StopIteration
  | UnicodeDecodeError, UnicodeDecodeError
  | JSONDecodeError, JSONDecodeError
  | ResponseError, ResponseError
  | ConnectionError, ConnectionError => true
  | _, _ => false
  end.

(** An [except (E1, E2):] clause: the exceptions it names. *)
Definition catches (es : list exn) (e : exn) : bool := existsb (exn_eqb e) es.

(** [except Exception:] catches every exception of the model. *)
Definition Exception (e : exn) : bool := true.

(** ** Task states: [celery.states] *)

Definition PENDING : string := "PENDING".
Definition RECEIVED : string := "RECEIVED".
Definition STARTED : string := "STARTED".
Definition SUCCESS : string := "SUCCESS".
Definition FAILURE : string := "FAILURE".
Definition REVOKED : string := "REVOKED".
Definition REJECTED : string := "REJECTED".
Definition RETRY : string := "RETRY".

Definition READY_STATES : gset string := {[ SUCCESS; FAILURE; REVOKED ]}.
Definition UNREADY_STATES : gset string :=
  {[ PENDING; RECEIVED; STARTED; REJECTED; RETRY ]}.
Definition ALL_STATES : list string :=
  [PENDING; RECEIVED; STARTED; SUCCESS; FAILURE; RETRY; REVOKED].

(** [celery.states.precedence]: the position in [PRECEDENCE]
    (SUCCESS, FAILURE, None, REVOKED, STARTED, RECEIVED, REJECTED, RETRY,
    PENDING); a state that is not listed, and [None], have the position of
    [None]. *)
Definition precedence (state : option string) : Z :=
  match state with
  | None => 2
  | Some s =>
      if bool_decide (s = SUCCESS) then 0
      else if bool_decide (s = FAILURE) then 1
      else if bool_decide (s = REVOKED) then 3
      else if bool_decide (s = STARTED) then 4
      else if bool_decide (s = RECEIVED) then 5
      else if bool_decide (s = REJECTED) then 6
      else if bool_decide (s = RETRY) then 7
      else if bool_decide (s = PENDING) then 8
      else 2
  end.

(** [celery.events.state.TASK_EVENT_TO_STATE], the kind-to-state table. *)
Definition TASK_EVENT_TO_STATE : gmap string string :=
  list_to_map
    [ ("sent", PENDING); ("received", RECEIVED); ("started", STARTED);
      ("failed", FAILURE); ("retried", RETRY); ("succeeded", SUCCESS);
      ("revoked", REVOKED); ("rejected", REJECTED) ].

(** [celery.events.group_from]: [type.split('-', 1)[0]]. *)
Fixpoint group_from (type : string) : string :=
  match type with
  | EmptyString => EmptyString
  | String c rest =>
      if Ascii.eqb c "-"%char then EmptyString else String c (group_from rest)
  end.

(** The slice [s[n:]]. *)
Fixpoint slice_from (n : nat) (s : string) : string :=
  match n, s with
  | O, _ => s
  | S n', String _ rest => slice_from n' rest
  | S _, EmptyString => EmptyString
  end.
Arguments slice_from : simpl nomatch.

(** [str(x)] of a value that is a string or [None], as prometheus_client
    applies it to every label value. *)
Definition py_str (x : option string) : string := default "None" x.

(** Truthiness of a string or [None]: [if t.name]. *)
Definition truthy (x : option string) : bool :=
  match x with
  | Some s => negb (String.eqb s "")
  | None => false
  end.

(** ** Events and task records *)

(** An event is a dict; a field is [None] here when its key is absent.
    The event receiver dispatches on [type], so that key is always there. *)
Record Event : Type := {
  evt_type : string;
  evt_uuid : option string;
  evt_hostname : option string;
  evt_timestamp : option float;
  evt_local_received : option float;
  evt_clock : option Z;
  evt_runtime : option float;
  evt_name : option string
}.

(** [celery.events.state.Task]: the attributes the exporter reads.  The class
    sets [state = PENDING] and [name = timestamp = None]. *)
Record Task : Type := {
  t_state : option string;
  t_name : option string;
  t_timestamp : option float
}.

Definition Task_new : Task :=
  {| t_state := Some PENDING; t_name := None; t_timestamp := None |}.

(** ** Metrics: [prometheus_client] gauges and histograms *)

(** A labelled gauge maps the label values to numbers; a series that was
    never touched is absent.  A histogram is kept as the list of its
    observed samples, oldest first.  The labelled histogram also has its
    children, the label values [labels()] was called with: a child is
    exposed, with zero counts, from that call on, observed or not. *)
Record Metrics : Type := {
  TASKS : gmap string Z;
  TASKS_NAME : gmap (string * string) Z;
  WORKERS : Z;
  LATENCY : list float;
  TASKS_RUNTIME : list (string * float);
  TASKS_RUNTIME_labels : gset string;
  QUEUE_LENGTHS : gmap string Z;
  QUEUE_TASKS : gmap (string * string) Z
}.

(** The value a scrape reads for a series: a fresh series starts at 0. *)
Definition gauge_value `{Countable K} (g : gmap K Z) (l : K) : Z :=
  default 0 (g !! l).

(** [gauge.labels(l).inc()] *)
Definition gauge_inc `{Countable K} (l : K) (g : gmap K Z) : gmap K Z :=
  <[ l := gauge_value g l + 1 ]> g.

(** [gauge.labels(l).set(v)] *)
Definition gauge_set `{Countable K} (l : K) (v : Z) (g : gmap K Z) : gmap K Z :=
  <[ l := v ]> g.

(** ** The task store: [self._state.tasks] *)

(** The task store is celery's [State.tasks], an [LRUCache] of kombu; both
    are libraries the exporter calls, and the cache is kept here as kombu
    has it.  [data] is the cache's ordered dict, first entry first; [limit]
    is [max_tasks_in_memory], where 0 means no limit. *)
Record LRUCache : Type := {
  limit : Z;
  data : list (string * Task)
}.

(** Lookup in the ordered dict, without touching the order. *)
Fixpoint data_get (key : string) (d : list (string * Task)) : option Task :=
  match d with
  | [] => None
  | (k, v) :: rest => if bool_decide (k = key) then Some v else data_get key rest
  end.

(** [del d[key]] *)
Fixpoint data_del (key : string) (d : list (string * Task)) : list (string * Task) :=
  match d with
  | [] => []
  | (k, v) :: rest =>
      if bool_decide (k = key) then rest else (k, v) :: data_del key rest
  end.

(** [d[key] = value] on an ordered dict: a present key keeps its place, a new
    key goes to the end. *)
Fixpoint data_set (key : string) (value : Task) (d : list (string * Task))
  : list (string * Task) :=
  match d with
  | [] => [(key, value)]
  | (k, v) :: rest =>
      if bool_decide (k = key) then (k, value) :: rest
      else (k, v) :: data_set key value rest
  end.

(** [LRUCache.__setitem__]:
    [if self.limit and len(self.data) >= self.limit:
       self.data.pop(next(iter(self.data)))], then [self.data[key] = value].
    With a limit that is not 0 and that many entries, the first entry of the
    dict is dropped first; on an empty dict [next] raises StopIteration. *)
Definition LRUCache_setitem (key : string) (value : Task) (c : LRUCache)
  : result unit * LRUCache :=
  if bool_decide (limit c ≠ 0) && bool_decide (limit c ≤ Z.of_nat (length (data c)))
  then match data c with
       | [] => (Raise StopIteration, c)
       | _ :: rest =>
           (Ok (), {| limit := limit c; data := data_set key value rest |})
       end
  else (Ok (), {| limit := limit c; data := data_set key value (data c) |}).

(** [LRUCache.__getitem__]: [value = self[key] = self.data.pop(key)].  The
    entry is taken out and set again, which moves it to the end. *)
Definition LRUCache_getitem (key : string) (c : LRUCache)
  : result Task * LRUCache :=
  match data_get key (data c) with
  | None => (Raise KeyError, c)
  | Some value =>
      let c1 := {| limit := limit c; data := data_del key (data c) |} in
      match LRUCache_setitem key value c1 with
      | (Ok _, c2) => (Ok value, c2)
      | (Raise e, c2) => (Raise e, c2)
      end
  end.

(** [self._state.tasks.pop(key)], which is [MutableMapping.pop]:
    [value = self[key]], then [del self[key]]. *)
Definition LRUCache_pop (key : string) (c : LRUCache) : result Task * LRUCache :=
  match LRUCache_getitem key c with
  | (Ok value, c1) =>
      (Ok value, {| limit := limit c1; data := data_del key (data c1) |})
  | (Raise e, c1) => (Raise e, c1)
  end.

(** [self._state.tasks.values()]: the records, in order; no reordering. *)
Definition LRUCache_values (c : LRUCache) : list Task := (data c).*2.

(** ** The broker: the part of redis the queue monitor uses *)

(** An entry of a queue list, by what [json.loads(t.decode())['headers']['task']]
    does with it: [Undecodable] bytes are not UTF-8 text ([t.decode()] raises
    UnicodeDecodeError); [NotJson] text is not JSON (JSONDecodeError);
    [NotAnObject] is a JSON value that cannot be subscripted with a key
    (TypeError); [Object headers] is a JSON object, where [headers] is [None]
    when the object has no 'headers' key and [Some None] when the headers
    have no 'task' key.  The task header of a message is the task's name, a
    string. *)
Inductive raw_message : Type :=
  | Undecodable
  | NotJson
  | NotAnObject
  | Object (headers : option (option string)).

Record Redis : Type := {
  redis_keys : list string;
  redis_lists : gmap string (list raw_message);
  redis_sets : gmap string (gset string)
}.

(** ** The process state *)

Record MonitorThread : Type := {
  _state_tasks : LRUCache;
  _known_states : gset (option string);
  _known_states_names : gset (option string * string)
}.

Record Process : Type := {
  monitor : MonitorThread;
  redis_client : Redis;
  metrics : Metrics;
  logged : list exn
}.

Definition with_monitor (f : MonitorThread → MonitorThread) (w : Process) : Process :=
  {| monitor := f (monitor w); redis_client := redis_client w;
     metrics := metrics w; logged := logged w |}.

Definition with_redis (f : Redis → Redis) (w : Process) : Process :=
  {| monitor := monitor w; redis_client := f (redis_client w);
     metrics := metrics w; logged := logged w |}.

Definition with_metrics (f : Metrics → Metrics) (w : Process) : Process :=
  {| monitor := monitor w; redis_client := redis_client w;
     metrics := f (metrics w); logged := logged w |}.

Definition with_logged (f : list exn → list exn) (w : Process) : Process :=
  {| monitor := monitor w; redis_client := redis_client w;
     metrics := metrics w; logged := f (logged w) |}.

Definition with_tasks (f : LRUCache → LRUCache) (t : MonitorThread) : MonitorThread :=
  {| _state_tasks := f (_state_tasks t); _known_states := _known_states t;
     _known_states_names := _known_states_names t |}.

Definition with_known_states (f : gset (option string) → gset (option string))
    (t : MonitorThread) : MonitorThread :=
  {| _state_tasks := _state_tasks t; _known_states := f (_known_states t);
     _known_states_names := _known_states_names t |}.

Definition with_known_states_names
    (f : gset (option string * string) → gset (option string * string))
    (t : MonitorThread) : MonitorThread :=
  {| _state_tasks := _state_tasks t; _known_states := _known_states t;
     _known_states_names := f (_known_states_names t) |}.

Definition with_TASKS (f : gmap string Z → gmap string Z) (m : Metrics) : Metrics :=
  {| TASKS := f (TASKS m); TASKS_NAME := TASKS_NAME m; WORKERS := WORKERS m;
     LATENCY := LATENCY m; TASKS_RUNTIME := TASKS_RUNTIME m;
     TASKS_RUNTIME_labels := TASKS_RUNTIME_labels m;
     QUEUE_LENGTHS := QUEUE_LENGTHS m; QUEUE_TASKS := QUEUE_TASKS m |}.

Definition with_TASKS_NAME (f : gmap (string * string) Z → gmap (string * string) Z)
    (m : Metrics) : Metrics :=
  {| TASKS := TASKS m; TASKS_NAME := f (TASKS_NAME m); WORKERS := WORKERS m;
     LATENCY := LATENCY m; TASKS_RUNTIME := TASKS_RUNTIME m;
     TASKS_RUNTIME_labels := TASKS_RUNTIME_labels m;
     QUEUE_LENGTHS := QUEUE_LENGTHS m; QUEUE_TASKS := QUEUE_TASKS m |}.

Definition with_WORKERS (f : Z → Z) (m : Metrics) : Metrics :=
  {| TASKS := TASKS m; TASKS_NAME := TASKS_NAME m; WORKERS := f (WORKERS m);
     LATENCY := LATENCY m; TASKS_RUNTIME := TASKS_RUNTIME m;
     TASKS_RUNTIME_labels := TASKS_RUNTIME_labels m;
     QUEUE_LENGTHS := QUEUE_LENGTHS m; QUEUE_TASKS := QUEUE_TASKS m |}.

Definition with_LATENCY (f : list float → list float) (m : Metrics) : Metrics :=
  {| TASKS := TASKS m; TASKS_NAME := TASKS_NAME m; WORKERS := WORKERS m;
     LATENCY := f (LATENCY m); TASKS_RUNTIME := TASKS_RUNTIME m;
     TASKS_RUNTIME_labels := TASKS_RUNTIME_labels m;
     QUEUE_LENGTHS := QUEUE_LENGTHS m; QUEUE_TASKS := QUEUE_TASKS m |}.

Definition with_TASKS_RUNTIME (f : list (string * float) → list (string * float))
    (m : Metrics) : Metrics :=
  {| TASKS := TASKS m; TASKS_NAME := TASKS_NAME m; WORKERS := WORKERS m;
     LATENCY := LATENCY m; TASKS_RUNTIME := f (TASKS_RUNTIME m);
     TASKS_RUNTIME_labels := TASKS_RUNTIME_labels m;
     QUEUE_LENGTHS := QUEUE_LENGTHS m; QUEUE_TASKS := QUEUE_TASKS m |}.

Definition with_TASKS_RUNTIME_labels (f : gset string → gset string) (m : Metrics)
  : Metrics :=
  {| TASKS := TASKS m; TASKS_NAME := TASKS_NAME m; WORKERS := WORKERS m;
     LATENCY := LATENCY m; TASKS_RUNTIME := TASKS_RUNTIME m;
     TASKS_RUNTIME_labels := f (TASKS_RUNTIME_labels m);
     QUEUE_LENGTHS := QUEUE_LENGTHS m; QUEUE_TASKS := QUEUE_TASKS m |}.

Definition with_QUEUE_LENGTHS (f : gmap string Z → gmap string Z) (m : Metrics) : Metrics :=
  {| TASKS := TASKS m; TASKS_NAME := TASKS_NAME m; WORKERS := WORKERS m;
     LATENCY := LATENCY m; TASKS_RUNTIME := TASKS_RUNTIME m;
     TASKS_RUNTIME_labels := TASKS_RUNTIME_labels m;
     QUEUE_LENGTHS := f (QUEUE_LENGTHS m); QUEUE_TASKS := QUEUE_TASKS m |}.

Definition with_QUEUE_TASKS (f : gmap (string * string) Z → gmap (string * string) Z)
    (m : Metrics) : Metrics :=
  {| TASKS := TASKS m; TASKS_NAME := TASKS_NAME m; WORKERS := WORKERS m;
     LATENCY := LATENCY m; TASKS_RUNTIME := TASKS_RUNTIME m;
     TASKS_RUNTIME_labels := TASKS_RUNTIME_labels m;
     QUEUE_LENGTHS := QUEUE_LENGTHS m; QUEUE_TASKS := f (QUEUE_TASKS m) |}.

Definition with_sets (f : gmap string (gset string) → gmap string (gset string))
    (r : Redis) : Redis :=
  {| redis_keys := redis_keys r; redis_lists := redis_lists r;
     redis_sets := f (redis_sets r) |}.

(** ** The monad of the Python code: state, and exceptions that keep it *)

Definition M (A : Type) : Type := Process → result A * Process.

Definition ret {A} (a : A) : M A := λ w, (Ok a, w).

Definition raise {A} (e : exn) : M A := λ w, (Raise e, w).

Definition bind {A B} (c : M A) (k : A → M B) : M B :=
  λ w, match c w with
       | (Ok a, w') => k a w'
       | (Raise e, w') => (Raise e, w')
       end.

#[global] Instance M_ret : MRet M := @ret.
#[global] Instance M_bind : MBind M := λ A B k c, bind c k.

(** [try: body / except handles: handler / else: orelse] *)
Definition try_else {A B} (body : M A) (handles : exn → bool)
    (handler : M B) (orelse : A → M B) : M B :=
  λ w, match body w with
       | (Ok a, w') => orelse a w'
       | (Raise e, w') => if handles e then handler w' else (Raise e, w')
       end.

(** [try: body / except handles as e: handler e] *)
Definition try_except {A} (body : M A) (handles : exn → bool)
    (handler : exn → M A) : M A :=
  λ w, match body w with
       | (Ok a, w') => (Ok a, w')
       | (Raise e, w') => if handles e then handler e w' else (Raise e, w')
       end.

(** [for x in xs: body x] *)
Fixpoint for_in {A} (xs : list A) (body : A → M unit) : M unit :=
  match xs with
  | [] => ret ()
  | x :: rest => body x ;; for_in rest body
  end.

(** [d[key]] on an event dict or a table: KeyError when the key is absent. *)
Definition getitem {A} (field : option A) : M A :=
  match field with
  | Some v => ret v
  | None => raise KeyError
  end.

Definition modify_metrics (f : Metrics → Metrics) : M unit :=
  λ w, (Ok (), with_metrics f w).

Definition modify_monitor (f : MonitorThread → MonitorThread) : M unit :=
  λ w, (Ok (), with_monitor f w).

Definition get_monitor : M MonitorThread := λ w, (Ok (monitor w), w).

Definition get_redis : M Redis := λ w, (Ok (redis_client w), w).

(** An operation of the task cache, run on [self._state.tasks]. *)
Definition on_tasks {A} (op : LRUCache → result A * LRUCache) : M A :=
  λ w, let '(r, c) := op (_state_tasks (monitor w)) in
       (r, with_monitor (with_tasks (λ _, c)) w).

(** [self.log.exception(...)] *)
Definition log_exception (e : exn) : M unit :=
  λ w, (Ok (), with_logged (λ l, (l ++ [e])%list) w).

(** [time.sleep(secs)], for what the exporter sleeps: the number 5, or a
    str, which is not a number and raises TypeError.  Waiting changes
    nothing of the state kept here. *)
Definition sleep (secs : Z + string) : M unit :=
  match secs with
  | inl _ => ret ()
  | inr _ => raise TypeError
  end.

(** [collections.Counter(xs)]; [cnt[x]] is [gauge_value cnt x], which is 0
    for a missing key, and [cnt.elements()] ranges over [dom cnt]. *)
Definition Counter `{Countable K} (xs : list K) : gmap K Z :=
  foldl (λ cnt x, <[ x := gauge_value cnt x + 1 ]> cnt) ∅ xs.

(** ** celery's [State._event] and [Task.event] *)

(** [event['type'].partition('-')]: the part after the first dash. *)
Fixpoint partition_subject (type : string) : string :=
  match type with
  | EmptyString => EmptyString
  | String c rest =>
      if Ascii.eqb c "-"%char then rest else partition_subject rest
  end.

(** [Task.event(type_, timestamp, local_received, fields)] of celery, on the
    attributes kept here.  [state] is looked up with
    [TASK_EVENT_TO_STATE.get].  When neither [state] nor the record's state
    is RETRY and [precedence(state) > precedence(self.state)], the event
    happened before the record's state and is merged: under the merge rule
    of RECEIVED only the listed fields (here [name]) are taken, otherwise
    all fields of the event, and the state stays.  In the other case the
    event's fields are taken together with [state] and [timestamp]. *)
Definition Task_event (type_ : string) (evt : Event) (task : Task) : Task :=
  let state := TASK_EVENT_TO_STATE !! type_ in
  let name' := match evt_name evt with Some n => Some n | None => t_name task end in
  if negb (bool_decide (state = Some RETRY))
     && negb (bool_decide (t_state task = Some RETRY))
     && bool_decide (precedence (t_state task) < precedence state)
  then
    if bool_decide (state = Some RECEIVED)
    then {| t_state := t_state task; t_name := name';
            t_timestamp := t_timestamp task |}
    else {| t_state := t_state task; t_name := name';
            t_timestamp := evt_timestamp evt |}
  else {| t_state := state; t_name := name'; t_timestamp := evt_timestamp evt |}.

(** [self._state._event(evt)], celery's [State._event], for an event of the
    task group, as the library has it.  The five fields read by [tfields]
    must be present (KeyError otherwise).  A record that exists is found
    with [get_task = self.tasks.data.__getitem__], on the dict under the
    cache, so its place in the order stays, and is mutated in place; a new
    id gets [self.tasks[uuid] = Task(uuid)], which goes through the cache
    and enforces the limit first.  The worker index and the event heap of
    celery's state are not read by the exporter and are left out. *)
Definition State_event (evt : Event) : M unit :=
  if bool_decide (group_from (evt_type evt) = "task") then
    let subject := partition_subject (evt_type evt) in
    uuid ← getitem (evt_uuid evt);
    _ ← getitem (evt_hostname evt);
    _ ← getitem (evt_timestamp evt);
    _ ← getitem (evt_local_received evt);
    _ ← getitem (evt_clock evt);
    self ← get_monitor;
    match data_get uuid (data (_state_tasks self)) with
    | Some task =>
        on_tasks (λ c, (Ok (), {| limit := limit c;
                                  data := data_set uuid (Task_event subject evt task) (data c) |}))
    | None =>
        on_tasks (LRUCache_setitem uuid Task_new) ;;
        on_tasks (λ c, (Ok (), {| limit := limit c;
                                  data := data_set uuid (Task_event subject evt Task_new) (data c) |}))
    end
  else ret ().

(** ** [MonitorThread] *)

(** [MonitorThread.__init__]: an empty store of the given capacity and no
    remembered label. *)
Definition MonitorThread_init (max_tasks_in_memory : Z) : MonitorThread :=
  {| _state_tasks := {| limit := max_tasks_in_memory; data := [] |};
     _known_states := ∅;
     _known_states_names := ∅ |}.

(** In [TASKS_RUNTIME.labels(name=prev_evt.name).observe(evt['runtime'])]
    the call of [labels] comes first and creates the child of the name; the
    argument [evt['runtime']] is evaluated after it. *)
Definition _observe_runtime (evt : Event) : M unit :=
  try_else
    (uuid ← getitem (evt_uuid evt);
     on_tasks (LRUCache_getitem uuid))
    (catches [KeyError])
    (ret ())
    (λ prev_evt,
       modify_metrics
         (with_TASKS_RUNTIME_labels (λ children, {[ py_str (t_name prev_evt) ]} ∪ children)) ;;
       runtime ← getitem (evt_runtime evt);
       modify_metrics
         (with_TASKS_RUNTIME (λ h, (h ++ [(py_str (t_name prev_evt), runtime)])%list))).

Definition _observe_latency (evt : Event) : M unit :=
  try_else
    (uuid ← getitem (evt_uuid evt);
     on_tasks (LRUCache_getitem uuid))
    (catches [KeyError])
    (ret ())
    (λ prev_evt,
       (* ignore latency if it is a retry *)
       if bool_decide (t_state prev_evt = Some RECEIVED) then
         timestamp ← getitem (evt_timestamp evt);
         match t_timestamp prev_evt with
         | Some prev_timestamp =>
             modify_metrics
               (with_LATENCY (λ h, (h ++ [PrimFloat.sub timestamp prev_timestamp])%list))
         | None => raise TypeError
         end
       else ret ()).

Definition _incr_ready_task (evt : Event) (state : string) : M unit :=
  modify_metrics (with_TASKS (gauge_inc state)) ;;
  try_except
    (uuid ← getitem (evt_uuid evt);
     (* remove event from list of in-progress tasks *)
     event ← on_tasks (LRUCache_pop uuid);
     modify_metrics (with_TASKS_NAME (gauge_inc (state, py_str (t_name event)))))
    (catches [KeyError; AttributeError])
    (λ _, ret ()).

(** The pairs [(t.state, t.name) for t in ... if t.name]. *)
Definition state_name_of (t : Task) : option (option string * string) :=
  match t_name t with
  | Some n => if truthy (Some n) then Some (t_state t, n) else None
  | None => None
  end.

Definition _collect_unready_tasks : M unit :=
  (* count unready tasks by state *)
  self ← get_monitor;
  let cnt := Counter (t_state <$> LRUCache_values (_state_tasks self)) in
  modify_monitor (with_known_states (λ ks, ks ∪ dom cnt)) ;;
  self ← get_monitor;
  for_in (elements (_known_states self))
    (λ task_state,
       modify_metrics
         (with_TASKS (gauge_set (py_str task_state) (gauge_value cnt task_state)))) ;;
  (* count unready tasks by state and name *)
  let cnt := Counter (omap state_name_of (LRUCache_values (_state_tasks self))) in
  modify_monitor (with_known_states_names (λ ks, ks ∪ dom cnt)) ;;
  self ← get_monitor;
  for_in (elements (_known_states_names self))
    (λ task_state,
       modify_metrics
         (with_TASKS_NAME
            (gauge_set (py_str task_state.1, task_state.2) (gauge_value cnt task_state)))).

Definition _collect_tasks (evt : Event) (state : string) : M unit :=
  (if bool_decide (state ∈ READY_STATES) then _incr_ready_task evt state
   else
     (* add event to list of in-progress tasks *)
     State_event evt) ;;
  _collect_unready_tasks.

(** The Celery 3 branch of [_process_event]:
    [task = Task(); task.event(evt_state); state = task.state].  The caller
    compares [state] with state names and uses it as a label value, so it is
    kept as its [str]. *)
Definition celery3_state (evt_state : string) : M string :=
  let no_fields :=
    {| evt_type := ""; evt_uuid := None; evt_hostname := None;
       evt_timestamp := None; evt_local_received := None; evt_clock := None;
       evt_runtime := None; evt_name := None |} in
  let task := Task_event evt_state no_fields Task_new in
  ret (py_str (t_state task)).

(** [celery.events.state.TASK_EVENT_TO_STATE] exists in the celery modelled
    here, so the attribute access raises no AttributeError and the Celery 3
    branch is never entered; the subscript raises KeyError for a kind that is
    not in the table, which [except AttributeError] lets through.  The mutex
    of the store is not modelled: events are processed one at a time. *)
Definition _process_event (evt : Event) : M unit :=
  if bool_decide (group_from (evt_type evt) = "task") then
    let evt_state := slice_from 5 (evt_type evt) in
    state ← try_except
              ((* Celery 4 *)
               getitem (TASK_EVENT_TO_STATE !! evt_state))
              (catches [AttributeError])
              (λ _, (* Celery 3 *) celery3_state evt_state);
    (if bool_decide (state = STARTED) then _observe_latency evt else ret ()) ;;
    (if bool_decide (state = SUCCESS) then _observe_runtime evt else ret ()) ;;
    _collect_tasks evt state
  else ret ().

(** ** [setup_metrics] *)

(** The celery application, as far as the exporter asks it: the reply to
    [app.control.inspect().registered_tasks().values()] and the reply to
    [app.control.ping(...)]; [None] when the call raises. *)
Record App : Type := {
  registered_tasks : option (list (list string));
  ping : option (list string)
}.

Definition app_call {A} (reply : option A) : M A :=
  match reply with
  | Some v => ret v
  | None => raise ConnectionError
  end.

Definition setup_metrics (app : App) : M unit :=
  modify_metrics (with_WORKERS (λ _, 0)) ;;
  try_else
    (app_call (registered_tasks app))
    Exception
    ((* every series that exists is set to 0 *)
     modify_metrics (with_TASKS (fmap (λ _, 0))) ;;
     modify_metrics (with_TASKS_NAME (fmap (λ _, 0))))
    (λ registered_tasks,
       for_in ALL_STATES
         (λ state,
            modify_metrics (with_TASKS (gauge_set state 0)) ;;
            for_in (remove_dups (concat registered_tasks))
              (λ task_name,
                 modify_metrics (with_TASKS_NAME (gauge_set (state, task_name) 0))))).

(** ** One turn of [MonitorThread._monitor] *)

(** [recv.capture(limit=None, timeout=None, wakeup=True)]: every event is
    handed to [_process_event]; the call only ends with an exception, here
    when the events of this connection are used up. *)
Fixpoint capture (events : list Event) : M unit :=
  match events with
  | [] => raise ConnectionError
  | evt :: rest => _process_event evt ;; capture rest
  end.

(** One turn of the [while True] loop of [_monitor], for the events the
    connection delivers ([None]: the connection cannot be made).  [app] is
    the application as it answers during the connection, [app'] as it
    answers after the failure.  The handler ends with [time.sleep(5)]. *)
Definition _monitor_turn (app app' : App) (events : option (list Event)) : M unit :=
  try_except
    (events ← app_call events;
     setup_metrics app ;;
     capture events)
    Exception
    (λ e, log_exception e ;; setup_metrics app' ;; sleep (inl 5)).

(** ** [WorkerMonitoringThread] *)

Definition update_workers_count (app : App) : M unit :=
  try_except
    (pong ← app_call (ping app);
     modify_metrics (with_WORKERS (λ _, Z.of_nat (length pong))))
    Exception
    (λ exc, log_exception exc).

(** ** [BrokerQueueMonitorThread] *)

Definition KEY_PREFIX : string := "_kombu.binding.".
Definition BUILTIN_QUEUES : list string :=
  ["celery.pidbox"; "reply.celery.pidbox"; "celeryev"].

Definition _get_task_queues (queues : list string) : list string :=
  List.filter (λ q, negb (bool_decide (q ∈ BUILTIN_QUEUES))) queues.

(** [redis_client.keys(f'{KEY_PREFIX}*')], then the prefix is cut off. *)
Definition _get_all_queues : M (list string) :=
  r ← get_redis;
  let queues := List.filter (String.prefix KEY_PREFIX) (redis_keys r) in
  ret ((λ q, slice_from (String.length KEY_PREFIX) q) <$> queues).

(** [redis_client.lrange(queue, 0, -1)]; a missing key is an empty list. *)
Definition lrange (r : Redis) (queue : string) : list raw_message :=
  default [] (redis_lists r !! queue).

(** [redis_client.smembers(key)]; a missing key is an empty set. *)
Definition smembers (r : Redis) (key : string) : gset string :=
  default ∅ (redis_sets r !! key).

(** [redis_client.sadd(key, *members)].  The command is sent with the
    members given; without any member the server refuses it (wrong number
    of arguments), which the client raises as ResponseError. *)
Definition sadd (key : string) (members : list string) : M unit :=
  match members with
  | [] => raise ResponseError
  | _ :: _ =>
      λ w, (Ok (),
            with_redis
              (with_sets (λ s, <[ key := smembers (redis_client w) key ∪ list_to_set members ]> s))
              w)
  end.

Definition _collect_queue_lengths (queue : string) : M unit :=
  r ← get_redis;
  let length := Z.of_nat (length (lrange r queue)) in
  modify_metrics (with_QUEUE_LENGTHS (gauge_set queue length)).

(** [json.loads(t.decode())['headers']['task']] *)
Definition task_name_of (t : raw_message) : result string :=
  match t with
  | Undecodable => Raise UnicodeDecodeError
  | NotJson => Raise JSONDecodeError
  | NotAnObject => Raise TypeError
  | Object None => Raise KeyError
  | Object (Some None) => Raise KeyError
  | Object (Some (Some task_name)) => Ok task_name
  end.

(** [d.setdefault(key, v)] *)
Definition setdefault (key : string) (v : Z) (d : gmap string Z) : gmap string Z :=
  match d !! key with
  | Some _ => d
  | None => <[ key := v ]> d
  end.

(** The first loop of [_collect_queue_tasks]: the tally of the task names.
    The loop touches only the local dict, so it is a function of it. *)
Fixpoint count_tasks (tasks : list raw_message) (task_counts : gmap string Z)
  : result (gmap string Z) :=
  match tasks with
  | [] => Ok task_counts
  | t :: rest =>
      match task_name_of t with
      | Raise e =>
          if catches [KeyError; JSONDecodeError] e then count_tasks rest task_counts
          else Raise e
      | Ok task_name =>
          let task_counts := setdefault task_name 0 task_counts in
          count_tasks rest
            (<[ task_name := gauge_value task_counts task_name + 1 ]> task_counts)
      end
  end.

Definition _zero_not_exist_tasks (queue : string) (existing_tasks : gmap string Z)
  : M unit :=
  r ← get_redis;
  let full_tasks := smembers r (queue ++ "_tasks") in
  for_in (elements full_tasks)
    (λ t,
       if bool_decide (existing_tasks !! t = None) then
         modify_metrics (with_QUEUE_TASKS (gauge_set (queue, t) 0))
       else ret ()) ;;
  (* update the full task list *)
  sadd (queue ++ "_tasks") (map_to_list existing_tasks).*1.

Definition _collect_queue_tasks (queue : string) : M unit :=
  r ← get_redis;
  let tasks := lrange r queue in
  match count_tasks tasks ∅ with
  | Raise e => raise e
  | Ok task_counts =>
      for_in (map_to_list task_counts)
        (λ kv, modify_metrics (with_QUEUE_TASKS (gauge_set (queue, kv.1) kv.2))) ;;
      _zero_not_exist_tasks queue task_counts
  end.

Definition collect_metrics : M unit :=
  queues ← _get_all_queues;
  for_in queues _collect_queue_lengths ;;
  for_in (_get_task_queues queues) _collect_queue_tasks.

(** The class attribute
    [INTERVAL_SECONDS = os.environ.get('QUEUE_INTERVAL_SECONDS', 5)]: the
    number 5 when the variable is not set, and the variable's value, a str,
    when it is. *)
Definition INTERVAL_SECONDS (QUEUE_INTERVAL_SECONDS : option string) : Z + string :=
  match QUEUE_INTERVAL_SECONDS with
  | Some value => inr value
  | None => inl 5
  end.

(** One turn of the [while True] loop of [BrokerQueueMonitorThread.run]: the
    [try] statement around the cycle, then the sleep, which is outside of
    it.  An exception of the turn ends the loop, and the thread with it. *)
Definition run_turn (QUEUE_INTERVAL_SECONDS : option string) : M unit :=
  try_except collect_metrics Exception (λ exc, log_exception exc) ;;
  sleep (INTERVAL_SECONDS QUEUE_INTERVAL_SECONDS).

(** ** The life of the process *)

(** What happens in the process, one step at a time: the event receiver
    hands an event to [_process_event] (an exception is caught by
    [_monitor]); [_monitor] or [main] calls [setup_metrics]; the worker
    thread polls; the queue thread runs a turn of its loop, in a process
    started with or without QUEUE_INTERVAL_SECONDS; the broker's data is
    changed from outside. *)
Inductive Op : Type :=
  | OpEvent (evt : Event)
  | OpSetupMetrics (app : App)
  | OpWorkers (app : App)
  | OpQueues (QUEUE_INTERVAL_SECONDS : option string)
  | OpBroker (r : Redis).

Definition exec_op (op : Op) (w : Process) : Process :=
  match op with
  | OpEvent evt => (_process_event evt w).2
  | OpSetupMetrics app => (setup_metrics app w).2
  | OpWorkers app => (update_workers_count app w).2
  | OpQueues QUEUE_INTERVAL_SECONDS => (run_turn QUEUE_INTERVAL_SECONDS w).2
  | OpBroker r => with_redis (λ _, r) w
  end.

Definition exec_ops (ops : list Op) (w : Process) : Process :=
  foldl (λ w op, exec_op op w) w ops.

Definition Metrics_init : Metrics :=
  {| TASKS := ∅; TASKS_NAME := ∅; WORKERS := 0; LATENCY := [];
     TASKS_RUNTIME := []; TASKS_RUNTIME_labels := ∅;
     QUEUE_LENGTHS := ∅; QUEUE_TASKS := ∅ |}.

(** The process as [main] builds it, before the first call. *)
Definition Process_init (max_tasks_in_memory : Z) (r : Redis) : Process :=
  {| monitor := MonitorThread_init max_tasks_in_memory;
     redis_client := r;
     metrics := Metrics_init;
     logged := [] |}.

(** * Notions used in the statements *)

(** The state an event resolves to in [_process_event]: the event is of the
    task group and its kind, [evt['type'][5:]], is in the table. *)
Definition resolved_state (evt : Event) : option string :=
  if bool_decide (group_from (evt_type evt) = "task")
  then TASK_EVENT_TO_STATE !! slice_from 5 (evt_type evt)
  else None.

(** The number a scrape reads for [celery_tasks{state=...}]. *)
Definition tasks_by_state (w : Process) (state : string) : Z :=
  gauge_value (TASKS (metrics w)) state.

(** [preserves P c]: whatever [c] does, and whether it returns or raises,
    it takes a state in [P] to a state in [P]. *)
Definition preserves {A} (P : Process → Prop) (c : M A) : Prop :=
  ∀ w, P w → P (c w).2.

(** A state value that is the name of an unready state. *)
Definition unready_label (k : option string) : Prop :=
  ∃ s, k = Some s ∧ s ∈ UNREADY_STATES.

(** Every tracked record, and every remembered label, has an unready state. *)
Record tracks_unready (t : MonitorThread) : Prop := {
  store_unready : Forall (λ kv, unready_label (t_state kv.2)) (data (_state_tasks t));
  known_unready : ∀ k, k ∈ _known_states t → unready_label k;
  known_names_unready : ∀ k, k ∈ _known_states_names t → unready_label k.1
}.

(** The labels [_collect_unready_tasks] remembers after looking at the
    store. *)
Definition known_states_after (t : MonitorThread) : gset (option string) :=
  _known_states t ∪ dom (Counter (t_state <$> LRUCache_values (_state_tasks t))).

Definition known_states_names_after (t : MonitorThread) : gset (option string * string) :=
  _known_states_names t
  ∪ dom (Counter (omap state_name_of (LRUCache_values (_state_tasks t)))).

(** The store has capacity [n] and is within it. *)
Definition within_capacity (n : Z) (t : MonitorThread) : Prop :=
  limit (_state_tasks t) = n ∧ Z.of_nat (length (data (_state_tasks t))) ≤ n.

(** The task names of the entries of a queue that decode. *)
Definition decoded_names (tasks : list raw_message) : list string :=
  omap (λ t, match task_name_of t with Ok n => Some n | Raise _ => None end) tasks.

(** An entry the [except (KeyError, JSONDecodeError)] clause skips. *)
Definition skipped (t : raw_message) : bool :=
  match task_name_of t with
  | Ok _ => false
  | Raise e => catches [KeyError; JSONDecodeError] e
  end.

(** How often [n] occurs in [l]. *)
Definition occurrences (n : string) (l : list string) : Z :=
  Z.of_nat (length (filter (λ x, x = n) l)).

(** The gauge after the two loops of a queue poll: the tallied names are
    set to their counts, then the names seen before and missing now are set
    to 0. *)
Definition queue_tasks_after (queue : string) (counts : gmap string Z)
    (seen : gset string) (g : gmap (string * string) Z) : gmap (string * string) Z :=
  foldl (λ g t, if bool_decide (counts !! t = None) then gauge_set (queue, t) 0 g else g)
    (foldl (λ g kv, gauge_set (queue, kv.1) kv.2 g) g (map_to_list counts))
    (elements seen).

(** * Sample data *)

(** A well-formed task event, as a worker sends it and the receiver hands it
    on. *)
Definition task_event (type id : string) (ts : float) (name : option string)
    (runtime : option float) : Event :=
  {| evt_type := type; evt_uuid := Some id; evt_hostname := Some "worker1";
     evt_timestamp := Some ts; evt_local_received := Some ts; evt_clock := Some 1;
     evt_runtime := runtime; evt_name := name |}.

Definition task_succeeded_x : Event :=
  task_event "task-succeeded" "x" 2 None (Some 1%float).

(** An event of the task group whose kind is not in the table. *)
Definition task_foo : Event := task_event "task-foo" "x" 11 None None.

(** A broker without keys. *)
Definition no_redis : Redis :=
  {| redis_keys := []; redis_lists := ∅; redis_sets := ∅ |}.

(** An application that answers, with no worker and no registered task. *)
Definition app_without_workers : App :=
  {| registered_tasks := Some []; ping := Some [] |}.

(** A process whose store tracks one task, "x", received at time 10. *)
Definition tracking_x : Process :=
  {| monitor :=
       {| _state_tasks :=
            {| limit := 10000;
               data := [("x", {| t_state := Some RECEIVED;
                                 t_name := Some "emailTask";
                                 t_timestamp := Some 10%float |})] |};
          _known_states := {[ Some RECEIVED ]};
          _known_states_names := {[ (Some RECEIVED, "emailTask") ]} |};
     redis_client := no_redis;
     metrics :=
       {| TASKS := {[ RECEIVED := 1 ]};
          TASKS_NAME := {[ (RECEIVED, "emailTask") := 1 ]};
          WORKERS := 0; LATENCY := []; TASKS_RUNTIME := [];
          TASKS_RUNTIME_labels := ∅;
          QUEUE_LENGTHS := ∅; QUEUE_TASKS := ∅ |};
     logged := [] |}.


(** A queue entry that decodes to a task name. *)
Definition message (task_name : string) : raw_message :=
  Object (Some (Some task_name)).

(** The spec's zeroing example: the names "a" and "b" were seen before and
    the queue "q" now holds four entries, all of task "a". *)
Definition drained_b : Process :=
  {| monitor := MonitorThread_init 10000;
     redis_client :=
       {| redis_keys := ["_kombu.binding.q"];
          redis_lists := {[ "q" := [message "a"; message "a"; message "a"; message "a"] ]};
          redis_sets := {[ "q_tasks" := {[ "a"; "b" ]} ]} |};
     metrics := Metrics_init;
     logged := [] |}.

(** Two task queues: "q1" is empty, "q2" holds one entry of task "a". *)
Definition two_queues : Process :=
  {| monitor := MonitorThread_init 10000;
     redis_client :=
       {| redis_keys := ["_kombu.binding.q1"; "_kombu.binding.q2"];
          redis_lists := {[ "q2" := [message "a"] ]};
          redis_sets := ∅ |};
     metrics := Metrics_init;
     logged := [] |}.

(** * [start_httpd]: the listen address *)

(** [addr.split(':')]: the pieces between the colons, empty pieces
    included; the result is never empty. *)
Fixpoint split_colon (addr : string) : list string :=
  match addr with
  | EmptyString => [EmptyString]
  | String c rest =>
      if Ascii.eqb c ":"%char then EmptyString :: split_colon rest
      else match split_colon rest with
           | piece :: pieces => String c piece :: pieces
           | [] => [String c EmptyString]
           end
  end.

(** [host, port = addr.split(':')] in [start_httpd]: the unpacking needs
    exactly two pieces and raises ValueError otherwise, which is [None]
    here. *)
Definition start_httpd_address (addr : string) : option (string * string) :=
  match split_colon addr with
  | [host; port] => Some (host, port)
  | _ => None
  end.

(** * Notions used in the further properties *)

(** The number of tracked records whose state is [state]. *)
Definition records_in_state (state : string) (c : LRUCache) : Z :=
  Z.of_nat (length (filter (λ t, t_state t = Some state) (LRUCache_values c))).

(** The number of tracked records whose state is [state] and whose name is
    [name], among the records that have a name. *)
Definition records_in_state_with_name (state name : string) (c : LRUCache) : Z :=
  Z.of_nat (length (filter (λ k, k = (Some state, name))
                      (omap state_name_of (LRUCache_values c)))).

(** The record of the store an event refers to, if the event has an id and
    the store holds it. *)
Definition tracked_record (evt : Event) (w : Process) : option Task :=
  match evt_uuid evt with
  | Some uuid => data_get uuid (data (_state_tasks (monitor w)))
  | None => None
  end.

(** The ids of the store are pairwise different, as the keys of a dict. *)
Definition keys_unique (t : MonitorThread) : Prop :=
  NoDup (data (_state_tasks t)).*1.

(** An entry whose exception the [except (KeyError, JSONDecodeError)] clause
    does not catch. *)
Definition uncaught (t : raw_message) : bool :=
  match task_name_of t with
  | Ok _ => false
  | Raise e => negb (catches [KeyError; JSONDecodeError] e)
  end.

(** A queue "q" whose second entry is a JSON array, not an object. *)
Definition array_in_queue : Process :=
  {| monitor := MonitorThread_init 10000;
     redis_client :=
       {| redis_keys := ["_kombu.binding.q"];
          redis_lists := {[ "q" := [message "a"; NotAnObject] ]};
          redis_sets := ∅ |};
     metrics := Metrics_init;
     logged := [] |}.

(** The cache has no limit, or it is within its limit. *)
Definition roomy (c : LRUCache) : Prop :=
  limit c = 0 ∨ (0 < limit c ∧ Z.of_nat (length (data c)) ≤ limit c).

(** The number of colons in a string. *)
Fixpoint colons (s : string) : nat :=
  match s with
  | EmptyString => O
  | String c rest => ((if Ascii.eqb c ":"%char then 1 else 0) + colons rest)%nat
  end.


(** No gauge shows a negative number. *)
Definition gauges_nonnegative (m : Metrics) : Prop :=
  map_Forall (λ _ v, 0 ≤ v) (TASKS m) ∧
  map_Forall (λ _ v, 0 ≤ v) (TASKS_NAME m) ∧
  0 ≤ WORKERS m ∧
  map_Forall (λ _ v, 0 ≤ v) (QUEUE_LENGTHS m) ∧
  map_Forall (λ _ v, 0 ≤ v) (QUEUE_TASKS m).

(** The queue "q" with the given entries, after the names "a" and "b" were
    seen in it. *)
Definition seen_a_b (entries : list raw_message) : Process :=
  {| monitor := MonitorThread_init 10000;
     redis_client :=
       {| redis_keys := ["_kombu.binding.q"];
          redis_lists := {[ "q" := entries ]};
          redis_sets := {[ "q_tasks" := {[ "a"; "b" ]} ]} |};
     metrics := Metrics_init;
     logged := [] |}.

(** * Properties *)

(** ** The ordered dict *)

Section OrderedDict.
Implicit Types (d : list (string * Task)) (key : string) (v : Task).

Lemma data_get_set_eq key v d : data_get key (data_set key v d) = Some v.
Proof.
  induction d as [|[k x] d IH]; simpl.
  - by rewrite bool_decide_eq_true_2.
  - case_bool_decide; simpl; case_bool_decide; done.
Qed.

Lemma data_get_set_ne key key' v d :
  key ≠ key' → data_get key' (data_set key v d) = data_get key' d.
Proof.
  intros Hne. induction d as [|[k x] d IH]; simpl.
  - by rewrite bool_decide_eq_false_2.
  - repeat (case_bool_decide; simpl); congruence.
Qed.

Lemma data_set_fresh key v d :
  data_get key d = None → data_set key v d = (d ++ [(key, v)])%list.
Proof.
  induction d as [|[k x] d IH]; simpl; [done|].
  case_bool_decide; [done|]. intros Hg. by rewrite IH.
Qed.

Lemma data_set_length_present key v d :
  is_Some (data_get key d) → length (data_set key v d) = length d.
Proof.
  induction d as [|[k x] d IH]; simpl.
  - by intros [? ?].
  - case_bool_decide; simpl; [done|]. intros Hg. by rewrite IH.
Qed.

Lemma data_set_length_le key v d :
  (length (data_set key v d) ≤ S (length d))%nat.
Proof.
  induction d as [|[k x] d IH]; simpl; [lia|].
  case_bool_decide; simpl; lia.
Qed.

Lemma data_del_length_le key d : (length (data_del key d) ≤ length d)%nat.
Proof.
  induction d as [|[k x] d IH]; simpl; [lia|].
  case_bool_decide; simpl; lia.
Qed.

Lemma data_del_length_present key d :
  is_Some (data_get key d) → S (length (data_del key d)) = length d.
Proof.
  induction d as [|[k x] d IH]; simpl.
  - by intros [? ?].
  - case_bool_decide; simpl; [done|]. intros Hg. by rewrite IH.
Qed.

Lemma data_get_Forall (Q : Task → Prop) key v d :
  Forall (λ kv, Q kv.2) d → data_get key d = Some v → Q v.
Proof.
  induction 1 as [|[k x] d Hx Hd IH]; simpl; [done|].
  case_bool_decide; [|done]. by intros [= <-].
Qed.

Lemma data_del_Forall (Q : Task → Prop) key d :
  Forall (λ kv, Q kv.2) d → Forall (λ kv, Q kv.2) (data_del key d).
Proof.
  induction 1 as [|[k x] d Hx Hd IH]; simpl; [constructor|].
  case_bool_decide; [done|]. by constructor.
Qed.

Lemma data_set_Forall (Q : Task → Prop) key v d :
  Q v → Forall (λ kv, Q kv.2) d → Forall (λ kv, Q kv.2) (data_set key v d).
Proof.
  intros Hv. induction 1 as [|[k x] d Hx Hd IH]; simpl.
  - by repeat constructor.
  - case_bool_decide; by constructor.
Qed.

Lemma data_get_del_ne key key' d :
  key ≠ key' → data_get key' (data_del key d) = data_get key' d.
Proof.
  intros Hne. induction d as [|[k x] d IH]; simpl; [done|].
  repeat (case_bool_decide; simpl); congruence.
Qed.
End OrderedDict.

(** ** The cache *)

Section Cache.
Implicit Types (c : LRUCache) (key : string) (v : Task).

Lemma LRUCache_setitem_limit key v c : limit (LRUCache_setitem key v c).2 = limit c.
Proof.
  unfold LRUCache_setitem.
  destruct (_ && _); [destruct (data c)|]; done.
Qed.

Lemma LRUCache_getitem_limit key c : limit (LRUCache_getitem key c).2 = limit c.
Proof.
  unfold LRUCache_getitem. destruct (data_get key (data c)); [|done].
  match goal with |- context [LRUCache_setitem ?k ?v ?c1] =>
    pose proof (LRUCache_setitem_limit k v c1) as H;
    destruct (LRUCache_setitem k v c1) as [[?|?] ?] end; done.
Qed.

Lemma LRUCache_pop_limit key c : limit (LRUCache_pop key c).2 = limit c.
Proof.
  unfold LRUCache_pop. pose proof (LRUCache_getitem_limit key c) as H.
  destruct (LRUCache_getitem key c) as [[?|?] ?]; done.
Qed.

(** With a capacity of at least one, setting an item keeps the cache
    within its capacity and never fails. *)
Lemma LRUCache_setitem_bounded key v c :
  0 < limit c →
  Z.of_nat (length (data c)) ≤ limit c →
  (LRUCache_setitem key v c).1 = Ok () ∧
  Z.of_nat (length (data (LRUCache_setitem key v c).2)) ≤ limit c.
Proof.
  intros Hpos Hle. unfold LRUCache_setitem.
  destruct (_ && _) eqn:Hfull.
  - apply andb_true_iff in Hfull as [_ Hfull%bool_decide_eq_true].
    destruct (data c) as [|kv rest] eqn:Hd; simpl in *; [lia|].
    split; [done|]. pose proof (data_set_length_le key v rest). lia.
  - apply andb_false_iff in Hfull as [Hz|Hfull].
    + apply bool_decide_eq_false in Hz. lia.
    + apply bool_decide_eq_false in Hfull. simpl. split; [done|].
      pose proof (data_set_length_le key v (data c)). lia.
Qed.

Lemma LRUCache_setitem_length_le key v c :
  0 ≤ limit c →
  (length (data (LRUCache_setitem key v c).2) ≤ S (length (data c)))%nat.
Proof.
  intros Hpos. unfold LRUCache_setitem.
  destruct (_ && _); [destruct (data c) as [|kv rest] eqn:Hd|]; simpl.
  - rewrite Hd. simpl. lia.
  - pose proof (data_set_length_le key v rest). lia.
  - apply data_set_length_le.
Qed.

(** A lookup through the cache finds what the dict holds. *)
Lemma LRUCache_getitem_found key v c :
  0 ≤ limit c → data_get key (data c) = Some v →
  (LRUCache_getitem key c).1 = Ok v.
Proof.
  intros Hpos Hget. unfold LRUCache_getitem, LRUCache_setitem. rewrite Hget. simpl.
  destruct (_ && _) eqn:Hfull; [|done].
  apply andb_true_iff in Hfull as [Hz%bool_decide_eq_true Hfull%bool_decide_eq_true].
  destruct (data_del key (data c)); [simpl in *; lia|done].
Qed.

Lemma LRUCache_getitem_missing key c :
  data_get key (data c) = None → LRUCache_getitem key c = (Raise KeyError, c).
Proof. intros Hget. unfold LRUCache_getitem. by rewrite Hget. Qed.

Lemma LRUCache_getitem_Ok_inv key v c :
  (LRUCache_getitem key c).1 = Ok v → data_get key (data c) = Some v.
Proof.
  unfold LRUCache_getitem. destruct (data_get key (data c)) as [x|]; [|done].
  destruct (LRUCache_setitem _ _ _) as [[?|?] ?]; simpl; congruence.
Qed.

Lemma LRUCache_getitem_length_le key c :
  0 ≤ limit c →
  (length (data (LRUCache_getitem key c).2) ≤ length (data c))%nat.
Proof.
  intros Hpos. unfold LRUCache_getitem.
  destruct (data_get key (data c)) as [x|] eqn:Hget; [|done].
  pose proof (data_del_length_present key (data c) (mk_is_Some _ _ Hget)) as Hdel.
  match goal with |- context [LRUCache_setitem ?k ?v ?c1] =>
    pose proof (LRUCache_setitem_length_le k v c1 Hpos) as Hset;
    destruct (LRUCache_setitem k v c1) as [[?|?] ?] end; simpl in *; lia.
Qed.

Lemma LRUCache_pop_length_le key c :
  0 ≤ limit c →
  (length (data (LRUCache_pop key c).2) ≤ length (data c))%nat.
Proof.
  intros Hpos. unfold LRUCache_pop.
  pose proof (LRUCache_getitem_length_le key c Hpos) as Hget.
  destruct (LRUCache_getitem key c) as [[?|?] c1]; simpl in *; [|done].
  pose proof (data_del_length_le key (data c1)). lia.
Qed.

Lemma LRUCache_setitem_Forall (Q : Task → Prop) key v c :
  Q v → Forall (λ kv, Q kv.2) (data c) →
  Forall (λ kv, Q kv.2) (data (LRUCache_setitem key v c).2).
Proof.
  intros Hv Hc. unfold LRUCache_setitem.
  destruct (_ && _); [destruct (data c) as [|kv rest] eqn:Hd|]; simpl.
  - by rewrite Hd.
  - apply data_set_Forall; [done|]. by inversion Hc.
  - by apply data_set_Forall.
Qed.

Lemma LRUCache_getitem_Forall (Q : Task → Prop) key c :
  Forall (λ kv, Q kv.2) (data c) →
  Forall (λ kv, Q kv.2) (data (LRUCache_getitem key c).2) ∧
  ∀ v, (LRUCache_getitem key c).1 = Ok v → Q v.
Proof.
  intros Hc. split.
  - unfold LRUCache_getitem.
    destruct (data_get key (data c)) as [x|] eqn:Hget; [|done].
    match goal with |- context [LRUCache_setitem ?k ?v ?c1] =>
      pose proof (LRUCache_setitem_Forall Q k v c1) as Hset;
      destruct (LRUCache_setitem k v c1) as [[?|?] ?] end; simpl in *;
      (apply Hset; [by eapply data_get_Forall|by apply data_del_Forall]).
  - intros v Hv%LRUCache_getitem_Ok_inv. by eapply data_get_Forall.
Qed.

Lemma LRUCache_pop_Forall (Q : Task → Prop) key c :
  Forall (λ kv, Q kv.2) (data c) →
  Forall (λ kv, Q kv.2) (data (LRUCache_pop key c).2).
Proof.
  intros Hc. unfold LRUCache_pop.
  destruct (LRUCache_getitem_Forall Q key c Hc) as [H _].
  destruct (LRUCache_getitem key c) as [[?|?] c1]; simpl in *; [|done].
  by apply data_del_Forall.
Qed.
Lemma LRUCache_setitem_get key v c :
  (LRUCache_setitem key v c).1 = Ok () →
  data_get key (data (LRUCache_setitem key v c).2) = Some v.
Proof.
  unfold LRUCache_setitem.
  destruct (_ && _); [destruct (data c)|]; simpl; [done|intros _..];
    apply data_get_set_eq.
Qed.
End Cache.

(** ** Invariants of monadic code *)

Section Preserves.
Context (P : Process → Prop).

Lemma preserves_ret {A} (a : A) : preserves P (ret a).
Proof. by intros w Hw. Qed.

Lemma preserves_raise {A} (e : exn) : preserves P (@raise A e).
Proof. by intros w Hw. Qed.

Lemma preserves_getitem {A} (field : option A) : preserves P (getitem field).
Proof. destruct field; by intros w Hw. Qed.

Lemma preserves_app_call {A} (reply : option A) : preserves P (app_call reply).
Proof. destruct reply; by intros w Hw. Qed.

Lemma preserves_bind {A B} (c : M A) (k : A → M B) :
  preserves P c → (∀ a, preserves P (k a)) → preserves P (c ≫= k).
Proof.
  intros Hc Hk w Hw. unfold mbind, M_bind, bind.
  specialize (Hc w Hw). destruct (c w) as [[a|e] w']; simpl in *; [by apply Hk|done].
Qed.

Lemma preserves_get_monitor {B} (k : MonitorThread → M B) :
  (∀ w0, P w0 → preserves P (k (monitor w0))) → preserves P (get_monitor ≫= k).
Proof. intros Hk w Hw. by apply (Hk w Hw w Hw). Qed.

Lemma preserves_get_redis {B} (k : Redis → M B) :
  (∀ w0, P w0 → preserves P (k (redis_client w0))) → preserves P (get_redis ≫= k).
Proof. intros Hk w Hw. by apply (Hk w Hw w Hw). Qed.

Lemma preserves_try_else {A B} (body : M A) handles (handler : M B) orelse :
  preserves P body → preserves P handler → (∀ a, preserves P (orelse a)) →
  preserves P (try_else body handles handler orelse).
Proof.
  intros Hb Hh Ho w Hw. unfold try_else. specialize (Hb w Hw).
  destruct (body w) as [[a|e] w']; simpl in *; [by apply Ho|].
  destruct (handles e); [by apply Hh|done].
Qed.

Lemma preserves_try_except {A} (body : M A) handles handler :
  preserves P body → (∀ e, preserves P (handler e)) →
  preserves P (try_except body handles handler).
Proof.
  intros Hb Hh w Hw. unfold try_except. specialize (Hb w Hw).
  destruct (body w) as [[a|e] w']; simpl in *; [done|].
  destruct (handles e); [by apply Hh|done].
Qed.

Lemma preserves_for_in {A} (xs : list A) body :
  (∀ x, x ∈ xs → preserves P (body x)) → preserves P (for_in xs body).
Proof.
  induction xs as [|x xs IH]; intros Hb; simpl; [apply preserves_ret|].
  apply preserves_bind.
  - apply Hb. by left.
  - intros _. apply IH. intros y Hy. apply Hb. by right.
Qed.

Lemma preserves_modify_metrics f :
  (∀ w, P w → P (with_metrics f w)) → preserves P (modify_metrics f).
Proof. intros Hf w Hw. by apply Hf. Qed.

Lemma preserves_modify_monitor f :
  (∀ w, P w → P (with_monitor f w)) → preserves P (modify_monitor f).
Proof. intros Hf w Hw. by apply Hf. Qed.

Lemma preserves_on_tasks {A} (op : LRUCache → result A * LRUCache) :
  (∀ w, P w →
        P (with_monitor (with_tasks (λ _, (op (_state_tasks (monitor w))).2)) w)) →
  preserves P (on_tasks op).
Proof.
  intros Hop w Hw. unfold on_tasks. specialize (Hop w Hw).
  by destruct (op (_state_tasks (monitor w))).
Qed.

Lemma preserves_log_exception e :
  (∀ w, P w → P (with_logged (λ l, (l ++ [e])%list) w)) →
  preserves P (log_exception e).
Proof. intros Hf w Hw. by apply Hf. Qed.

Lemma preserves_sleep secs : preserves P (sleep secs).
Proof. destruct secs; by intros w Hw. Qed.

Lemma preserves_sadd key members :
  (∀ w f, P w → P (with_redis (with_sets f) w)) → preserves P (sadd key members).
Proof. intros Hf w Hw. destruct members; simpl; [done|]. by apply Hf. Qed.
End Preserves.

(** One structural step of an invariant proof; the primitive updates are
    left as goals about the updated state, the cache operations as goals
    about [on_tasks]. *)
Ltac pres_step :=
  lazymatch goal with
  | |- preserves _ (ret _) => apply preserves_ret
  | |- preserves _ (raise _) => apply preserves_raise
  | |- preserves _ (getitem _) => apply preserves_getitem
  | |- preserves _ (app_call _) => apply preserves_app_call
  | |- preserves _ (get_monitor ≫= _) => apply preserves_get_monitor; intros ? ?
  | |- preserves _ (get_redis ≫= _) => apply preserves_get_redis; intros ? ?
  | |- preserves _ (_ ≫= _) => apply preserves_bind; [|intros ?]
  | |- preserves _ (try_else _ _ _ _) => apply preserves_try_else; [| |intros ?]
  | |- preserves _ (try_except _ _ _) => apply preserves_try_except; [|intros ?]
  | |- preserves _ (for_in _ _) => apply preserves_for_in; intros ? ?
  | |- preserves _ (modify_metrics _) => apply preserves_modify_metrics; intros ? ?
  | |- preserves _ (modify_monitor _) => apply preserves_modify_monitor; intros ? ?
  | |- preserves _ (log_exception _) => apply preserves_log_exception; intros ? ?
  | |- preserves _ (sadd _ _) => apply preserves_sadd; intros ? ? ?
  | |- preserves _ (sleep _) => apply preserves_sleep
  | |- preserves _ (if ?b then _ else _) => destruct b eqn:?
  | |- preserves _ (match ?x with _ => _ end) => destruct x eqn:?
  end.

Ltac pres := repeat pres_step.

(** ** Loops that only set gauges *)

(** A loop whose body is one update of the metrics always completes, and
    its effect is the fold of the updates. *)
Lemma for_in_modify_metrics {A} (xs : list A) (f : A → Metrics → Metrics) w :
  for_in xs (λ x, modify_metrics (f x)) w
  = (Ok (), with_metrics (λ m, foldl (λ m x, f x m) m xs) w).
Proof.
  revert w. induction xs as [|x xs IH]; intros w; simpl.
  - by destruct w.
  - unfold mbind, M_bind, bind, modify_metrics at 1. rewrite IH. by destruct w.
Qed.

Lemma foldl_with_TASKS {A} (f : A → gmap string Z → gmap string Z) xs m :
  foldl (λ m x, with_TASKS (f x) m) m xs
  = with_TASKS (λ g, foldl (λ g x, f x g) g xs) m.
Proof.
  revert m. induction xs as [|x xs IH]; intros m; simpl; [by destruct m|].
  by rewrite IH.
Qed.

Lemma foldl_with_TASKS_NAME {A}
    (f : A → gmap (string * string) Z → gmap (string * string) Z) xs m :
  foldl (λ m x, with_TASKS_NAME (f x) m) m xs
  = with_TASKS_NAME (λ g, foldl (λ g x, f x g) g xs) m.
Proof.
  revert m. induction xs as [|x xs IH]; intros m; simpl; [by destruct m|].
  by rewrite IH.
Qed.

Lemma foldl_with_QUEUE_TASKS {A}
    (f : A → gmap (string * string) Z → gmap (string * string) Z) xs m :
  foldl (λ m x, with_QUEUE_TASKS (f x) m) m xs
  = with_QUEUE_TASKS (λ g, foldl (λ g x, f x g) g xs) m.
Proof.
  revert m. induction xs as [|x xs IH]; intros m; simpl; [by destruct m|].
  by rewrite IH.
Qed.

Lemma foldl_with_QUEUE_LENGTHS {A} (f : A → gmap string Z → gmap string Z) xs m :
  foldl (λ m x, with_QUEUE_LENGTHS (f x) m) m xs
  = with_QUEUE_LENGTHS (λ g, foldl (λ g x, f x g) g xs) m.
Proof.
  revert m. induction xs as [|x xs IH]; intros m; simpl; [by destruct m|].
  by rewrite IH.
Qed.

Lemma foldl_gauge_set_notin `{Countable K} {A} (key : A → K) (val : A → Z)
    (xs : list A) (g : gmap K Z) (l : K) :
  (∀ x, x ∈ xs → key x ≠ l) →
  foldl (λ g x, gauge_set (key x) (val x) g) g xs !! l = g !! l.
Proof.
  revert g. induction xs as [|x xs IH]; intros g Hl; simpl; [done|].
  rewrite IH.
  - unfold gauge_set. apply lookup_insert_ne. apply Hl. by left.
  - intros y Hy. apply Hl. by right.
Qed.

Lemma foldl_gauge_set_in `{Countable K} {A} (key : A → K) (val : A → Z)
    (xs : list A) (g : gmap K Z) (l : K) (v : Z) :
  (∃ x, x ∈ xs ∧ key x = l) → (∀ y, y ∈ xs → key y = l → val y = v) →
  foldl (λ g x, gauge_set (key x) (val x) g) g xs !! l = Some v.
Proof.
  revert g. induction xs as [|y xs IH]; intros g (x & Hx & Hkx) Hval; simpl.
  - by apply elem_of_nil in Hx.
  - destruct (decide (Exists (λ z, key z = l) xs)) as [Hex|Hnex].
    + apply Exists_exists in Hex as (z & Hz & Hkz).
      apply IH; [by exists z|]. intros u Hu. apply Hval. by right.
    + assert (key y = l) as Hky.
      { apply elem_of_cons in Hx as [->|Hx]; [done|].
        exfalso. apply Hnex, Exists_exists. eauto. }
      rewrite foldl_gauge_set_notin.
      * unfold gauge_set. rewrite <- Hky, lookup_insert_eq.
        f_equal. apply Hval; [by left|done].
      * intros z Hz Hk. apply Hnex, Exists_exists. eauto.
Qed.

(** ** [collections.Counter] *)

Lemma Counter_dom_acc `{Countable K} (xs : list K) (acc : gmap K Z) (x : K) :
  x ∈ dom (foldl (λ cnt x, <[ x := gauge_value cnt x + 1 ]> cnt) acc xs)
  ↔ x ∈ dom acc ∨ x ∈ xs.
Proof.
  revert acc. induction xs as [|y xs IH]; intros acc; simpl.
  - rewrite elem_of_nil. tauto.
  - rewrite IH, dom_insert, elem_of_union, elem_of_singleton, elem_of_cons. tauto.
Qed.

Lemma Counter_dom `{Countable K} (xs : list K) (x : K) :
  x ∈ dom (Counter xs) ↔ x ∈ xs.
Proof.
  unfold Counter. rewrite Counter_dom_acc, dom_empty, elem_of_empty. tauto.
Qed.

(** ** Event kinds and states *)

Lemma group_from_task (type : string) :
  group_from type = "task" → type = "task" ∨ ∃ rest, type = "task-" ++ rest.
Proof.
  do 4 (destruct type as [|? type]; simpl; [discriminate|];
        destruct (Ascii.eqb _ _); [discriminate|];
        intros [= -> Hg]; revert Hg).
  destruct type as [|c type]; [by left|]. simpl.
  destruct (Ascii.eqb_spec c "-"%char) as [->|]; [|discriminate].
  right. by exists type.
Qed.

(** For an event of the task group, the kind that [_process_event] cuts out
    with [evt['type'][5:]] is the subject celery's state gets from
    [partition('-')]. *)
Lemma partition_subject_task (type : string) :
  group_from type = "task" → partition_subject type = slice_from 5 type.
Proof. by intros [->|[rest ->]]%group_from_task. Qed.

Lemma TASK_EVENT_TO_STATE_range (kind state : string) :
  TASK_EVENT_TO_STATE !! kind = Some state →
  state ∈ READY_STATES ∨ state ∈ UNREADY_STATES.
Proof.
  intros Hk. apply elem_of_list_to_map_2 in Hk.
  unfold READY_STATES, UNREADY_STATES.
  repeat (apply elem_of_cons in Hk as [[= _ <-]|Hk]; [set_solver|]).
  by apply elem_of_nil in Hk.
Qed.

Lemma ready_not_unready (state : string) :
  state ∈ READY_STATES → state ∈ UNREADY_STATES → False.
Proof.
  unfold READY_STATES, UNREADY_STATES.
  rewrite !elem_of_union, !elem_of_singleton.
  intros [[-> | ->] | ->] Hu; repeat destruct Hu as [Hu|Hu]; discriminate.
Qed.

(** ** What the store and the remembered labels hold *)

Lemma Task_new_unready : unready_label (t_state Task_new).
Proof. exists PENDING. split; [done|]. unfold UNREADY_STATES. set_solver. Qed.

Lemma Task_event_unready (type_ state : string) (evt : Event) (task : Task) :
  TASK_EVENT_TO_STATE !! type_ = Some state → state ∈ UNREADY_STATES →
  unready_label (t_state task) →
  unready_label (t_state (Task_event type_ evt task)).
Proof.
  intros Hk Hs Ht. unfold Task_event. rewrite Hk.
  repeat (match goal with |- context [if ?b then _ else _] => destruct b end);
    simpl; [done|done|]. by exists state.
Qed.

Lemma unready_label_py_str (k : option string) (state : string) :
  unready_label k → state ∈ READY_STATES → py_str k ≠ state.
Proof.
  intros (s & -> & Hs) Hr. simpl. intros ->. by eapply ready_not_unready.
Qed.

Section TracksUnready.
Lemma on_tasks_getitem_tracks key : preserves (λ w, tracks_unready (monitor w)) (on_tasks (LRUCache_getitem key)).
Proof.
  apply preserves_on_tasks. intros w [Hs Hk Hn]. split; simpl; [|done..].
  by apply (LRUCache_getitem_Forall (λ t, unready_label (t_state t))).
Qed.

Lemma on_tasks_pop_tracks key : preserves (λ w, tracks_unready (monitor w)) (on_tasks (LRUCache_pop key)).
Proof.
  apply preserves_on_tasks. intros w [Hs Hk Hn]. split; simpl; [|done..].
  by apply (LRUCache_pop_Forall (λ t, unready_label (t_state t))).
Qed.

Lemma _observe_latency_tracks evt : preserves (λ w, tracks_unready (monitor w)) (_observe_latency evt).
Proof.
  unfold _observe_latency. pres; try done; by apply on_tasks_getitem_tracks.
Qed.

Lemma _observe_runtime_tracks evt : preserves (λ w, tracks_unready (monitor w)) (_observe_runtime evt).
Proof.
  unfold _observe_runtime. pres; try done; by apply on_tasks_getitem_tracks.
Qed.

Lemma _incr_ready_task_tracks evt state : preserves (λ w, tracks_unready (monitor w)) (_incr_ready_task evt state).
Proof.
  unfold _incr_ready_task. pres; try done; by apply on_tasks_pop_tracks.
Qed.

Lemma State_event_tracks evt state :
  TASK_EVENT_TO_STATE !! slice_from 5 (evt_type evt) = Some state →
  state ∈ UNREADY_STATES →
  preserves (λ w, tracks_unready (monitor w)) (State_event evt).
Proof.
  intros Hk Hs. unfold State_event.
  case_bool_decide as Hg; [|apply preserves_ret].
  rewrite (partition_subject_task _ Hg).
  do 5 (apply preserves_bind; [apply preserves_getitem|intros ?]).
  apply preserves_get_monitor. intros w0 [Hst0 _ _].
  destruct (data_get _ _) as [task|] eqn:Hget.
  - apply preserves_on_tasks. intros w [Hst Hkn Hn]. split; simpl; [|done..].
    apply (data_set_Forall (λ t, unready_label (t_state t))); [|done].
    eapply Task_event_unready; [done..|].
    exact (data_get_Forall (λ t, unready_label (t_state t)) _ _ _ Hst0 Hget).
  - apply preserves_bind; [|intros _];
      apply preserves_on_tasks; intros w [Hst Hkn Hn]; (split; simpl; [|done..]).
    + apply (LRUCache_setitem_Forall (λ t, unready_label (t_state t)));
        [apply Task_new_unready|done].
    + apply (data_set_Forall (λ t, unready_label (t_state t))); [|done].
      eapply Task_event_unready; [done..|]. apply Task_new_unready.
Qed.

Lemma _collect_unready_tasks_tracks : preserves (λ w, tracks_unready (monitor w)) _collect_unready_tasks.
Proof.
  unfold _collect_unready_tasks.
  apply preserves_get_monitor. intros w0 [Hst0 _ _].
  apply preserves_bind; [|intros _].
  { apply preserves_modify_monitor. intros w [Hst Hkn Hn].
    split; simpl; [done| |done].
    intros k [Hk|Hk]%elem_of_union; [by apply Hkn|].
    apply Counter_dom, list_elem_of_fmap in Hk as (t & -> & Ht).
    apply list_elem_of_fmap in Ht as ([key t'] & -> & Ht).
    by apply (proj1 (Forall_forall _ _) Hst0 _ Ht). }
  apply preserves_get_monitor. intros w1 [Hst1 _ _].
  apply preserves_bind; [by pres|intros _].
  apply preserves_bind; [|intros _].
  { apply preserves_modify_monitor. intros w [Hst Hkn Hn].
    split; simpl; [done..|].
    intros k [Hk|Hk]%elem_of_union; [by apply Hn|].
    apply Counter_dom, list_elem_of_omap in Hk as (t & Ht & Hsn).
    apply list_elem_of_fmap in Ht as ([key t'] & -> & Ht).
    unfold state_name_of in Hsn. simpl in Hsn.
    destruct (t_name t') as [n|]; [|done].
    destruct (negb _); [|done]. injection Hsn as <-. simpl.
    by apply (proj1 (Forall_forall _ _) Hst1 _ Ht). }
  apply preserves_get_monitor. intros w2 _. by pres.
Qed.
End TracksUnready.

(** ** The three cases of [_process_event] *)

Lemma _process_event_other evt :
  group_from (evt_type evt) ≠ "task" → _process_event evt = ret ().
Proof. intros Hg. unfold _process_event. by rewrite bool_decide_eq_false_2. Qed.

Lemma _process_event_unknown evt w :
  group_from (evt_type evt) = "task" →
  TASK_EVENT_TO_STATE !! slice_from 5 (evt_type evt) = None →
  _process_event evt w = (Raise KeyError, w).
Proof.
  intros Hg Hk. unfold _process_event. rewrite bool_decide_eq_true_2 by done.
  unfold mbind, M_bind, bind, try_except. by rewrite Hk.
Qed.

Lemma _process_event_resolved evt state :
  resolved_state evt = Some state →
  _process_event evt
  = ((if bool_decide (state = STARTED) then _observe_latency evt else ret ()) ;;
     (if bool_decide (state = SUCCESS) then _observe_runtime evt else ret ()) ;;
     _collect_tasks evt state).
Proof.
  unfold resolved_state, _process_event. case_bool_decide; [|done]. intros Hk.
  unfold mbind at 1, M_bind at 1, bind at 1, try_except. by rewrite Hk.
Qed.

Lemma resolved_state_range evt state :
  resolved_state evt = Some state →
  state ∈ READY_STATES ∨ state ∈ UNREADY_STATES.
Proof.
  unfold resolved_state. case_bool_decide; [|done]. apply TASK_EVENT_TO_STATE_range.
Qed.

Lemma _process_event_tracks evt :
  preserves (λ w, tracks_unready (monitor w)) (_process_event evt).
Proof.
  destruct (resolved_state evt) as [state|] eqn:Hr.
  - rewrite (_process_event_resolved _ _ Hr). unfold _collect_tasks.
    apply preserves_bind; [|intros _].
    { case_bool_decide; [apply _observe_latency_tracks|apply preserves_ret]. }
    apply preserves_bind; [|intros _].
    { case_bool_decide; [apply _observe_runtime_tracks|apply preserves_ret]. }
    apply preserves_bind; [|intros _; apply _collect_unready_tasks_tracks].
    case_bool_decide as Hready; [apply _incr_ready_task_tracks|].
    unfold resolved_state in Hr. case_bool_decide; [|done].
    eapply State_event_tracks; [done|].
    by destruct (TASK_EVENT_TO_STATE_range _ _ Hr).
  - unfold resolved_state in Hr. case_bool_decide as Hg.
    + intros w Hw. by rewrite _process_event_unknown.
    + rewrite _process_event_other by done. apply preserves_ret.
Qed.

(** ** What the other threads leave alone *)

Lemma setup_metrics_monitor app (m : MonitorThread) :
  preserves (λ w, monitor w = m) (setup_metrics app).
Proof. unfold setup_metrics. by pres. Qed.

Lemma update_workers_count_monitor app (m : MonitorThread) :
  preserves (λ w, monitor w = m) (update_workers_count app).
Proof. unfold update_workers_count. by pres. Qed.

Lemma _zero_not_exist_tasks_monitor queue existing (m : MonitorThread) :
  preserves (λ w, monitor w = m) (_zero_not_exist_tasks queue existing).
Proof. unfold _zero_not_exist_tasks. by pres. Qed.

Lemma _collect_queue_tasks_monitor queue (m : MonitorThread) :
  preserves (λ w, monitor w = m) (_collect_queue_tasks queue).
Proof.
  unfold _collect_queue_tasks. pres; try done.
  by apply _zero_not_exist_tasks_monitor.
Qed.

Lemma run_turn_monitor env (m : MonitorThread) :
  preserves (λ w, monitor w = m) (run_turn env).
Proof.
  unfold run_turn, collect_metrics, _get_all_queues, _collect_queue_lengths.
  pres; try done. by apply _collect_queue_tasks_monitor.
Qed.

(** A property of the monitor thread's own state that event processing
    keeps is kept by every step of the process. *)
Lemma exec_op_monitor (Q : MonitorThread → Prop) op w :
  (∀ evt, preserves (λ w, Q (monitor w)) (_process_event evt)) →
  Q (monitor w) → Q (monitor (exec_op op w)).
Proof.
  intros Hevt Hw. destruct op as [evt|app|app|env|r]; simpl.
  - by apply Hevt.
  - by rewrite (setup_metrics_monitor app (monitor w) w).
  - by rewrite (update_workers_count_monitor app (monitor w) w).
  - by rewrite (run_turn_monitor env (monitor w) w).
  - done.
Qed.

Lemma exec_ops_monitor (Q : MonitorThread → Prop) ops w :
  (∀ evt, preserves (λ w, Q (monitor w)) (_process_event evt)) →
  Q (monitor w) → Q (monitor (exec_ops ops w)).
Proof.
  intros Hevt. revert w. induction ops as [|op ops IH]; intros w Hw; simpl; [done|].
  apply IH. by apply exec_op_monitor.
Qed.

Lemma MonitorThread_init_tracks n : tracks_unready (MonitorThread_init n).
Proof. split; simpl; [constructor|set_solver..]. Qed.

Lemma reachable_tracks_unready ops n r :
  tracks_unready (monitor (exec_ops ops (Process_init n r))).
Proof.
  apply exec_ops_monitor; [apply _process_event_tracks|apply MonitorThread_init_tracks].
Qed.

(** ** The recomputation pass in closed form *)

Lemma _collect_unready_tasks_run w :
  _collect_unready_tasks w
  = (Ok (),
     {| monitor :=
          {| _state_tasks := _state_tasks (monitor w);
             _known_states := known_states_after (monitor w);
             _known_states_names := known_states_names_after (monitor w) |};
        redis_client := redis_client w;
        metrics :=
          with_TASKS_NAME
            (λ g, foldl
                    (λ g k, gauge_set (py_str k.1, k.2)
                              (gauge_value
                                 (Counter (omap state_name_of
                                             (LRUCache_values (_state_tasks (monitor w)))))
                                 k) g)
                    g (elements (known_states_names_after (monitor w))))
            (with_TASKS
               (λ g, foldl
                       (λ g k, gauge_set (py_str k)
                                 (gauge_value
                                    (Counter (t_state <$>
                                                LRUCache_values (_state_tasks (monitor w))))
                                    k) g)
                       g (elements (known_states_after (monitor w))))
               (metrics w));
        logged := logged w |}).
Proof.
  unfold _collect_unready_tasks, mbind, M_bind, bind, get_monitor, modify_monitor.
  simpl. rewrite for_in_modify_metrics. simpl. rewrite for_in_modify_metrics.
  unfold with_metrics, with_monitor. simpl.
  rewrite foldl_with_TASKS, foldl_with_TASKS_NAME.
  reflexivity.
Qed.

Lemma known_states_after_unready t k :
  tracks_unready t → k ∈ known_states_after t → unready_label k.
Proof.
  intros [Hst Hkn _] [Hk|Hk]%elem_of_union; [by apply Hkn|].
  apply Counter_dom, list_elem_of_fmap in Hk as (x & -> & Hx).
  apply list_elem_of_fmap in Hx as ([key t'] & -> & Hx).
  by apply (proj1 (Forall_forall _ _) Hst _ Hx).
Qed.

Lemma known_states_names_after_unready t k :
  tracks_unready t → k ∈ known_states_names_after t → unready_label k.1.
Proof.
  intros [Hst _ Hn] [Hk|Hk]%elem_of_union; [by apply Hn|].
  apply Counter_dom, list_elem_of_omap in Hk as (x & Hx & Hsn).
  apply list_elem_of_fmap in Hx as ([key t'] & -> & Hx).
  unfold state_name_of in Hsn. simpl in Hsn.
  destruct (t_name t') as [n|]; [|done].
  destruct (negb _); [|done]. injection Hsn as <-. simpl.
  by apply (proj1 (Forall_forall _ _) Hst _ Hx).
Qed.

(** The pass writes no series of a ready state. *)
Lemma _collect_unready_tasks_ready_TASKS w state :
  tracks_unready (monitor w) → state ∈ READY_STATES →
  TASKS (metrics (_collect_unready_tasks w).2) !! state = TASKS (metrics w) !! state.
Proof.
  intros Hw Hs. rewrite _collect_unready_tasks_run. simpl.
  apply foldl_gauge_set_notin. intros k Hk%elem_of_elements.
  apply unready_label_py_str; [|done]. by eapply known_states_after_unready.
Qed.

Lemma _collect_unready_tasks_ready_value w state :
  tracks_unready (monitor w) → state ∈ READY_STATES →
  gauge_value (TASKS (metrics (_collect_unready_tasks w).2)) state
  = gauge_value (TASKS (metrics w)) state.
Proof.
  intros Hw Hs. unfold gauge_value.
  by rewrite _collect_unready_tasks_ready_TASKS.
Qed.

Lemma _collect_unready_tasks_ready_TASKS_NAME w state name :
  tracks_unready (monitor w) → state ∈ READY_STATES →
  TASKS_NAME (metrics (_collect_unready_tasks w).2) !! (state, name)
  = TASKS_NAME (metrics w) !! (state, name).
Proof.
  intros Hw Hs. rewrite _collect_unready_tasks_run. simpl.
  apply foldl_gauge_set_notin. intros k Hk%elem_of_elements [= Hk1 _].
  eapply unready_label_py_str; [|done..]. by eapply known_states_names_after_unready.
Qed.

(** C9.  In every state the process can reach, each record of the store and
    each label remembered for the recomputation pass has an unready state,
    none of them a ready one; so the pass, which sets only remembered
    labels, leaves every ready-state series of [TASKS] as it was. *)
Theorem known_states_only_unready (ops : list Op) (n : Z) (r : Redis) :
  let w := exec_ops ops (Process_init n r) in
  (∀ key t, (key, t) ∈ data (_state_tasks (monitor w)) →
            ∃ s, t_state t = Some s ∧ s ∈ UNREADY_STATES) ∧
  (∀ k, k ∈ _known_states (monitor w) →
        ∃ s, k = Some s ∧ s ∈ UNREADY_STATES ∧ s ∉ READY_STATES) ∧
  (∀ k, k ∈ _known_states (monitor (_collect_unready_tasks w).2) →
        ∃ s, k = Some s ∧ s ∈ UNREADY_STATES ∧ s ∉ READY_STATES) ∧
  (∀ state, state ∈ READY_STATES →
            TASKS (metrics (_collect_unready_tasks w).2) !! state
            = TASKS (metrics w) !! state).
Proof.
  intros w. pose proof (reachable_tracks_unready ops n r) as Hw. fold w in Hw.
  assert (∀ k, unready_label k →
               ∃ s, k = Some s ∧ s ∈ UNREADY_STATES ∧ s ∉ READY_STATES) as Hlabel.
  { intros k (s & -> & Hs). exists s. repeat split; [done|].
    intros Hr. by eapply ready_not_unready. }
  repeat split.
  - intros key t Hin. destruct Hw as [Hst _ _].
    apply (proj1 (Forall_forall _ _) Hst _ Hin).
  - intros k Hk. apply Hlabel. by apply Hw.
  - intros k Hk. apply Hlabel.
    by apply (_collect_unready_tasks_tracks w Hw).
  - intros state Hs. by apply _collect_unready_tasks_ready_TASKS.
Qed.

(** ** What event processing does to the metrics *)

(** Frame proofs: a predicate on the metrics that the primitive updates in
    sight do not touch. *)
Ltac frame :=
  pres; try done; try (apply preserves_on_tasks; intros ? ?; simpl; done).

Lemma State_event_metrics evt w : metrics (State_event evt w).2 = metrics w.
Proof.
  assert (preserves (λ w', metrics w' = metrics w) (State_event evt)) as H.
  { unfold State_event. frame. }
  by apply H.
Qed.

Lemma _observe_latency_TASKS evt w :
  TASKS (metrics (_observe_latency evt w).2) = TASKS (metrics w).
Proof.
  assert (preserves (λ w', TASKS (metrics w') = TASKS (metrics w))
            (_observe_latency evt)) as H.
  { unfold _observe_latency. frame. }
  by apply H.
Qed.

Lemma _observe_runtime_TASKS evt w :
  TASKS (metrics (_observe_runtime evt w).2) = TASKS (metrics w).
Proof.
  assert (preserves (λ w', TASKS (metrics w') = TASKS (metrics w))
            (_observe_runtime evt)) as H.
  { unfold _observe_runtime. frame. }
  by apply H.
Qed.

Lemma _incr_ready_task_TASKS evt state w :
  TASKS (metrics (_incr_ready_task evt state w).2)
  = gauge_inc state (TASKS (metrics w)).
Proof.
  assert (∀ x, preserves (λ w', TASKS (metrics w') = x)
            (try_except
               (uuid ← getitem (evt_uuid evt);
                event ← on_tasks (LRUCache_pop uuid);
                modify_metrics
                  (with_TASKS_NAME (gauge_inc (state, py_str (t_name event)))))
               (catches [KeyError; AttributeError])
               (λ _, ret ()))) as H.
  { intros x. frame. }
  exact (H _ (with_metrics (with_TASKS (gauge_inc state)) w) eq_refl).
Qed.

Lemma update_workers_count_TASKS app w :
  TASKS (metrics (update_workers_count app w).2) = TASKS (metrics w).
Proof.
  assert (preserves (λ w', TASKS (metrics w') = TASKS (metrics w))
            (update_workers_count app)) as H.
  { unfold update_workers_count. frame. }
  by apply H.
Qed.

Lemma run_turn_TASKS env w :
  TASKS (metrics (run_turn env w).2) = TASKS (metrics w).
Proof.
  assert (preserves (λ w', TASKS (metrics w') = TASKS (metrics w)) (run_turn env))
    as H.
  { unfold run_turn, collect_metrics, _get_all_queues, _collect_queue_lengths,
      _collect_queue_tasks, _zero_not_exist_tasks.
    frame. }
  by apply H.
Qed.

Lemma gauge_value_inc `{Countable K} (l l' : K) (g : gmap K Z) :
  gauge_value (gauge_inc l g) l'
  = if decide (l = l') then gauge_value g l + 1 else gauge_value g l'.
Proof.
  unfold gauge_inc, gauge_value at 1. rewrite lookup_insert.
  by destruct (decide (l = l')).
Qed.

(** Event processing and a ready-state series of [TASKS]: the series never
    goes down, and an event that resolves to the state and is processed to
    the end adds one. *)
Lemma _process_event_ready_TASKS evt w state :
  tracks_unready (monitor w) → state ∈ READY_STATES →
  tasks_by_state w state ≤ tasks_by_state (_process_event evt w).2 state ∧
  (resolved_state evt = Some state → (_process_event evt w).1 = Ok () →
   tasks_by_state (_process_event evt w).2 state = tasks_by_state w state + 1).
Proof.
  intros Hw Hs. unfold tasks_by_state.
  destruct (resolved_state evt) as [st|] eqn:Hr.
  2:{ unfold resolved_state in Hr. case_bool_decide as Hg.
      - rewrite _process_event_unknown by done. simpl. split; [lia|done].
      - rewrite _process_event_other by done. simpl. split; [lia|done]. }
  rewrite (_process_event_resolved _ _ Hr).
  unfold _collect_tasks, mbind, M_bind, bind.
  (* the latency step *)
  assert (∀ (b : bool) (c : M unit) w0,
            (∀ w1, TASKS (metrics (c w1).2) = TASKS (metrics w1)) →
            (∀ w1, tracks_unready (monitor w1) → tracks_unready (monitor (c w1).2)) →
            tracks_unready (monitor w0) →
            TASKS (metrics ((if b then c else ret ()) w0).2) = TASKS (metrics w0) ∧
            tracks_unready (monitor ((if b then c else ret ()) w0).2)) as Hstep.
  { intros [|] c w0 Hc Ht Hw0; [by split; [apply Hc|apply Ht]|done]. }
  destruct (Hstep (bool_decide (st = STARTED)) (_observe_latency evt) w
              (_observe_latency_TASKS evt) (_observe_latency_tracks evt) Hw)
    as [Heq1 Hw1].
  destruct ((if bool_decide (st = STARTED) then _observe_latency evt else ret ()) w)
    as [[[]|e1] w1]; simpl in *; [|rewrite Heq1; split; [lia|done]].
  (* the runtime step *)
  destruct (Hstep (bool_decide (st = SUCCESS)) (_observe_runtime evt) w1
              (_observe_runtime_TASKS evt) (_observe_runtime_tracks evt) Hw1)
    as [Heq2 Hw2].
  destruct ((if bool_decide (st = SUCCESS) then _observe_runtime evt else ret ()) w1)
    as [[[]|e2] w2]; simpl in *; [|rewrite Heq2, Heq1; split; [lia|done]].
  (* the ready or unready step, then the recomputation pass *)
  case_bool_decide as Hready.
  - pose proof (_incr_ready_task_TASKS evt st w2) as Heq3.
    pose proof (_incr_ready_task_tracks evt st w2 Hw2) as Hw3.
    destruct (_incr_ready_task evt st w2) as [[[]|e3] w3]; simpl in *.
    + rewrite !(_collect_unready_tasks_ready_value w3 state Hw3 Hs).
      rewrite Heq3, gauge_value_inc, Heq2, Heq1.
      destruct (decide (st = state)) as [->|]; (split; [lia|]); [done|congruence].
    + rewrite Heq3, gauge_value_inc, Heq2, Heq1.
      destruct (decide (st = state)) as [->|]; (split; [lia|done]).
  - assert (st ≠ state) as Hne by (by intros ->).
    pose proof (State_event_metrics evt w2) as Heq3.
    assert (tracks_unready (monitor (State_event evt w2).2)) as Hw3.
    { unfold resolved_state in Hr. case_bool_decide; [|done].
      eapply State_event_tracks; [done| |done].
      by destruct (TASK_EVENT_TO_STATE_range _ _ Hr). }
    destruct (State_event evt w2) as [[[]|e3] w3]; simpl in *.
    + rewrite !(_collect_unready_tasks_ready_value w3 state Hw3 Hs).
      rewrite Heq3, Heq2, Heq1. split; [lia|congruence].
    + rewrite Heq3, Heq2, Heq1. split; [lia|congruence].
Qed.

(** ** [setup_metrics] on the ready-state series *)

Lemma for_in_ext {A} (xs : list A) (body body' : A → M unit) w :
  (∀ x w, body x w = body' x w) → for_in xs body w = for_in xs body' w.
Proof.
  intros Hb. revert w. induction xs as [|x xs IH]; intros w; simpl; [done|].
  unfold mbind, M_bind, bind. rewrite Hb.
  destruct (body' x w) as [[[]|e] w']; [apply IH|done].
Qed.

(** The two branches of [setup_metrics], as the reply of the application
    selects them. *)
Lemma setup_metrics_registered app regs w :
  registered_tasks app = Some regs →
  setup_metrics app w
  = (Ok (),
     with_metrics
       (λ m, foldl
               (λ m st,
                  with_TASKS_NAME
                    (λ g, foldl (λ g n, gauge_set (st, n) 0 g) g
                            (remove_dups (concat regs)))
                    (with_TASKS (gauge_set st 0) m))
               m ALL_STATES)
       (with_metrics (with_WORKERS (λ _, 0)) w)).
Proof.
  intros Hreg. unfold setup_metrics, try_else.
  unfold mbind at 1, M_bind at 1, bind at 1. rewrite Hreg.
  rewrite <- for_in_modify_metrics. apply for_in_ext.
  intros st w0. unfold mbind, M_bind, bind, modify_metrics at 1.
  rewrite for_in_modify_metrics. unfold with_metrics, modify_metrics. simpl.
  by rewrite foldl_with_TASKS_NAME.
Qed.

Lemma setup_metrics_failed app w :
  registered_tasks app = None →
  setup_metrics app w
  = (Ok (),
     with_metrics (with_TASKS_NAME (fmap (λ _, 0)))
       (with_metrics (with_TASKS (fmap (λ _, 0)))
          (with_metrics (with_WORKERS (λ _, 0)) w))).
Proof.
  intros Hreg. unfold setup_metrics, try_else.
  unfold mbind at 1, M_bind at 1, bind at 1. by rewrite Hreg.
Qed.

(** Both branches leave every series of [TASKS] for a state of
    [ALL_STATES] at 0. *)
Lemma setup_metrics_TASKS app w state :
  state ∈ ALL_STATES →
  tasks_by_state (setup_metrics app w).2 state = 0.
Proof.
  intros Hs. unfold tasks_by_state.
  destruct (registered_tasks app) as [regs|] eqn:Hreg.
  - rewrite (setup_metrics_registered _ _ _ Hreg). simpl.
    unfold gauge_value, gauge_set.
    repeat (apply elem_of_cons in Hs as [->|Hs];
            [by repeat (rewrite lookup_insert_ne by done); rewrite lookup_insert_eq|]).
    by apply elem_of_nil in Hs.
  - rewrite (setup_metrics_failed _ _ Hreg). simpl.
    unfold gauge_value. rewrite lookup_fmap. by destruct (TASKS (metrics w) !! state).
Qed.

Lemma READY_STATES_ALL_STATES state : state ∈ READY_STATES → state ∈ ALL_STATES.
Proof.
  unfold READY_STATES, ALL_STATES. rewrite !elem_of_union, !elem_of_singleton.
  intros [[-> | ->] | ->]; repeat constructor.
Qed.

(** C3, counterexample.  After one succeeded task the series
    [celery_tasks{state="SUCCESS"}] reads 1; the re-baselining that follows
    a reconnect sets it back to 0. *)
Lemma setup_metrics_resets_ready_count :
  SUCCESS ∈ READY_STATES ∧
  tasks_by_state
    (exec_ops [OpEvent task_succeeded_x] (Process_init 10000 no_redis)) SUCCESS = 1 ∧
  tasks_by_state
    (exec_ops [OpEvent task_succeeded_x; OpSetupMetrics app_without_workers]
       (Process_init 10000 no_redis)) SUCCESS = 0 ∧
  ¬ (tasks_by_state
       (exec_ops [OpEvent task_succeeded_x] (Process_init 10000 no_redis)) SUCCESS
     ≤ tasks_by_state
         (exec_op (OpSetupMetrics app_without_workers)
            (exec_ops [OpEvent task_succeeded_x] (Process_init 10000 no_redis)))
         SUCCESS).
Proof.
  assert (tasks_by_state
            (exec_ops [OpEvent task_succeeded_x] (Process_init 10000 no_redis)) SUCCESS
          = 1) as H1 by (vm_compute; reflexivity).
  assert (tasks_by_state
            (exec_op (OpSetupMetrics app_without_workers)
               (exec_ops [OpEvent task_succeeded_x] (Process_init 10000 no_redis)))
            SUCCESS = 0) as H0 by (vm_compute; reflexivity).
  split; [unfold READY_STATES; set_solver|].
  split; [exact H1|]. split; [exact H0|]. rewrite H1, H0. lia.
Qed.

(** C3, as the code has it.  For a ready state, in every state the process
    can reach: [setup_metrics] (run on every connection attempt and after
    every failure of one) sets the series to 0; event processing never
    lowers it, and an event that resolves to the state and is processed
    without an exception raises it by exactly 1; the worker poll, the queue
    poll and changes of the broker's data leave it as it is. *)
Theorem ready_count_steps (state : string) (ops : list Op) (op : Op) (n : Z) (r : Redis) :
  state ∈ READY_STATES →
  let w := exec_ops ops (Process_init n r) in
  let w' := exec_op op w in
  match op with
  | OpSetupMetrics _ => tasks_by_state w' state = 0
  | OpEvent evt =>
      tasks_by_state w state ≤ tasks_by_state w' state ∧
      (resolved_state evt = Some state → (_process_event evt w).1 = Ok () →
       tasks_by_state w' state = tasks_by_state w state + 1)
  | OpWorkers _ | OpQueues _ | OpBroker _ =>
      tasks_by_state w' state = tasks_by_state w state
  end.
Proof.
  intros Hs w w'. subst w'. destruct op as [evt|app|app|env|r']; simpl.
  - apply _process_event_ready_TASKS; [apply reachable_tracks_unready|done].
  - by apply setup_metrics_TASKS, READY_STATES_ALL_STATES.
  - unfold tasks_by_state. by rewrite update_workers_count_TASKS.
  - unfold tasks_by_state. by rewrite run_turn_TASKS.
  - done.
Qed.

Lemma ready_count_steps_witness :
  SUCCESS ∈ READY_STATES ∧
  tasks_by_state (Process_init 10000 no_redis) SUCCESS
  ≤ tasks_by_state (exec_op (OpEvent task_succeeded_x) (Process_init 10000 no_redis))
      SUCCESS.
Proof.
  assert (SUCCESS ∈ READY_STATES) as Hs by (unfold READY_STATES; set_solver).
  split; [exact Hs|].
  exact (proj1 (ready_count_steps SUCCESS [] (OpEvent task_succeeded_x)
                  10000 no_redis Hs)).
Defined.

(** ** Latency and runtime samples *)

Lemma with_tasks_same w :
  with_monitor (with_tasks (λ _, _state_tasks (monitor w))) w = w.
Proof. by destruct w as [[[] ? ?] ? ? ?]. Qed.

Lemma on_tasks_getitem_missing key w :
  data_get key (data (_state_tasks (monitor w))) = None →
  on_tasks (LRUCache_getitem key) w = (Raise KeyError, w).
Proof.
  intros Hget. unfold on_tasks. rewrite LRUCache_getitem_missing by done.
  by rewrite with_tasks_same.
Qed.

Lemma on_tasks_getitem_found key prev w :
  0 ≤ limit (_state_tasks (monitor w)) →
  data_get key (data (_state_tasks (monitor w))) = Some prev →
  ∃ w1, on_tasks (LRUCache_getitem key) w = (Ok prev, w1) ∧ metrics w1 = metrics w.
Proof.
  intros Hlim Hget. unfold on_tasks.
  pose proof (LRUCache_getitem_found key prev _ Hlim Hget) as Hr.
  destruct (LRUCache_getitem key (_state_tasks (monitor w))) as [r c].
  simpl in Hr. subst r. by eexists.
Qed.

(** What the steps after the observations leave alone: the two histograms. *)
Lemma _collect_tasks_histograms evt state w :
  LATENCY (metrics (_collect_tasks evt state w).2) = LATENCY (metrics w) ∧
  TASKS_RUNTIME (metrics (_collect_tasks evt state w).2) = TASKS_RUNTIME (metrics w).
Proof.
  assert (preserves (λ w', LATENCY (metrics w') = LATENCY (metrics w) ∧
                           TASKS_RUNTIME (metrics w') = TASKS_RUNTIME (metrics w))
            (_collect_tasks evt state)) as H.
  { unfold _collect_tasks. apply preserves_bind.
    - unfold _incr_ready_task, State_event. frame.
    - intros _ w' Hw'. by rewrite _collect_unready_tasks_run. }
  by apply H.
Qed.

Lemma _observe_latency_samples evt w id :
  evt_uuid evt = Some id →
  0 ≤ limit (_state_tasks (monitor w)) →
  match data_get id (data (_state_tasks (monitor w))) with
  | Some prev =>
      (t_state prev = Some RECEIVED →
       ∀ ts pts, evt_timestamp evt = Some ts → t_timestamp prev = Some pts →
                 (_observe_latency evt w).1 = Ok () ∧
                 LATENCY (metrics (_observe_latency evt w).2)
                 = (LATENCY (metrics w) ++ [PrimFloat.sub ts pts])%list) ∧
      (t_state prev ≠ Some RECEIVED →
       (_observe_latency evt w).1 = Ok () ∧
       LATENCY (metrics (_observe_latency evt w).2) = LATENCY (metrics w))
  | None => _observe_latency evt w = (Ok (), w)
  end.
Proof.
  intros Hid Hlim. unfold _observe_latency, try_else, mbind, M_bind, bind.
  rewrite Hid. simpl.
  destruct (data_get id _) as [prev|] eqn:Hget.
  - destruct (on_tasks_getitem_found id prev w Hlim Hget) as (w1 & -> & Hm).
    split.
    + intros Hst ts pts -> ->. rewrite bool_decide_eq_true_2 by done.
      simpl. by rewrite Hm.
    + intros Hst. rewrite bool_decide_eq_false_2 by done. simpl. by rewrite Hm.
  - by rewrite on_tasks_getitem_missing.
Qed.

Lemma _observe_runtime_samples evt w id :
  evt_uuid evt = Some id →
  0 ≤ limit (_state_tasks (monitor w)) →
  match data_get id (data (_state_tasks (monitor w))) with
  | Some prev =>
      ∀ runtime, evt_runtime evt = Some runtime →
                 (_observe_runtime evt w).1 = Ok () ∧
                 TASKS_RUNTIME (metrics (_observe_runtime evt w).2)
                 = (TASKS_RUNTIME (metrics w) ++ [(py_str (t_name prev), runtime)])%list
  | None => _observe_runtime evt w = (Ok (), w)
  end.
Proof.
  intros Hid Hlim. unfold _observe_runtime, try_else, mbind, M_bind, bind.
  rewrite Hid. simpl.
  destruct (data_get id _) as [prev|] eqn:Hget.
  - destruct (on_tasks_getitem_found id prev w Hlim Hget) as (w1 & -> & Hm).
    intros runtime ->. simpl. by rewrite Hm.
  - by rewrite on_tasks_getitem_missing.
Qed.

(** C1.  For an event that resolves to STARTED: when the store has a record
    for its id, a latency sample is observed exactly when the record's state
    is RECEIVED, and the sample is the event's timestamp minus the record's;
    with any other recorded state, or without a record, the latency
    histogram is left as it was.  (The cache limit is not negative.) *)
Theorem latency_iff_received (evt : Event) (w : Process) (id : string) :
  resolved_state evt = Some STARTED →
  evt_uuid evt = Some id →
  0 ≤ limit (_state_tasks (monitor w)) →
  let w' := (_process_event evt w).2 in
  match data_get id (data (_state_tasks (monitor w))) with
  | Some prev =>
      (t_state prev = Some RECEIVED →
       ∀ ts pts, evt_timestamp evt = Some ts → t_timestamp prev = Some pts →
                 LATENCY (metrics w')
                 = (LATENCY (metrics w) ++ [PrimFloat.sub ts pts])%list) ∧
      (t_state prev ≠ Some RECEIVED → LATENCY (metrics w') = LATENCY (metrics w))
  | None => LATENCY (metrics w') = LATENCY (metrics w)
  end.
Proof.
  intros Hr Hid Hlim. simpl.
  rewrite (_process_event_resolved _ _ Hr).
  rewrite (bool_decide_eq_true_2 (STARTED = STARTED)) by done.
  rewrite (bool_decide_eq_false_2 (STARTED = SUCCESS)) by done.
  unfold mbind, M_bind, bind.
  pose proof (_observe_latency_samples evt w id Hid Hlim) as Hobs.
  destruct (data_get id _) as [prev|].
  - destruct Hobs as [Hrec Hother]. split.
    + intros Hst ts pts Hts Hpts.
      destruct (Hrec Hst ts pts Hts Hpts) as [Hok Hlat].
      destruct (_observe_latency evt w) as [[[]|e] w1]; [|done]. simpl in *.
      by rewrite (proj1 (_collect_tasks_histograms evt STARTED w1)).
    + intros Hst. destruct (Hother Hst) as [Hok Hlat].
      destruct (_observe_latency evt w) as [[[]|e] w1]; [|done]. simpl in *.
      by rewrite (proj1 (_collect_tasks_histograms evt STARTED w1)).
  - rewrite Hobs. simpl.
    by rewrite (proj1 (_collect_tasks_histograms evt STARTED w)).
Qed.

(** C5.  For an event that resolves to SUCCESS and carries a runtime: when
    the store has a record for its id, the runtime histogram gets one new
    sample, the event's own runtime value under the record's name as label;
    without a record it is left as it was.  (The cache limit is not
    negative.) *)
Theorem runtime_taken_from_event (evt : Event) (w : Process) (id : string)
    (runtime : float) :
  resolved_state evt = Some SUCCESS →
  evt_uuid evt = Some id →
  evt_runtime evt = Some runtime →
  0 ≤ limit (_state_tasks (monitor w)) →
  let w' := (_process_event evt w).2 in
  match data_get id (data (_state_tasks (monitor w))) with
  | Some prev =>
      TASKS_RUNTIME (metrics w')
      = (TASKS_RUNTIME (metrics w) ++ [(py_str (t_name prev), runtime)])%list
  | None => TASKS_RUNTIME (metrics w') = TASKS_RUNTIME (metrics w)
  end.
Proof.
  intros Hr Hid Hrt Hlim. simpl.
  rewrite (_process_event_resolved _ _ Hr).
  rewrite (bool_decide_eq_false_2 (SUCCESS = STARTED)) by done.
  rewrite (bool_decide_eq_true_2 (SUCCESS = SUCCESS)) by done.
  unfold mbind, M_bind, bind. simpl.
  pose proof (_observe_runtime_samples evt w id Hid Hlim) as Hobs.
  destruct (data_get id _) as [prev|].
  - destruct (Hobs runtime Hrt) as [Hok Hrun].
    destruct (_observe_runtime evt w) as [[[]|e] w1]; [|done]. simpl in *.
    by rewrite (proj2 (_collect_tasks_histograms evt SUCCESS w1)).
  - rewrite Hobs. simpl.
    by rewrite (proj2 (_collect_tasks_histograms evt SUCCESS w)).
Qed.

(** ** Sample runs *)

Example tracking_x_reached :
  exec_ops [OpEvent (task_event "task-received" "x" 10 (Some "emailTask") None)]
    (Process_init 10000 no_redis)
  = tracking_x.
Proof. vm_compute. reflexivity. Qed.

(** The spec's first latency example: RECEIVED at 10, STARTED at 12.5. *)
Example latency_received_then_started :
  LATENCY (metrics
    (exec_ops
       [OpEvent (task_event "task-received" "x" 10 None None);
        OpEvent (task_event "task-started" "x" 12.5 None None)]
       (Process_init 10000 no_redis)))
  = [2.5%float].
Proof. vm_compute. reflexivity. Qed.

(** The second: RECEIVED, RETRY, STARTED gives no sample. *)
Example latency_after_retry :
  LATENCY (metrics
    (exec_ops
       [OpEvent (task_event "task-received" "x" 10 None None);
        OpEvent (task_event "task-retried" "x" 11 None None);
        OpEvent (task_event "task-started" "x" 12.5 None None)]
       (Process_init 10000 no_redis)))
  = [].
Proof. vm_compute. reflexivity. Qed.

Lemma latency_iff_received_witness :
  resolved_state (task_event "task-started" "x" 12.5 None None) = Some STARTED ∧
  LATENCY (metrics
    (_process_event (task_event "task-started" "x" 12.5 None None) tracking_x).2)
  = [2.5%float].
Proof.
  assert (resolved_state (task_event "task-started" "x" 12.5 None None)
          = Some STARTED) as Hr by (vm_compute; reflexivity).
  split; [exact Hr|].
  exact (proj1 (latency_iff_received
                  (task_event "task-started" "x" 12.5 None None) tracking_x "x"
                  Hr eq_refl ltac:(vm_compute; discriminate))
           eq_refl 12.5%float 10%float eq_refl eq_refl).
Defined.

(** The spec's runtime example, with a runtime that is a binary fraction:
    the succeeded event carries 3.25 seconds, the record carries the name. *)
Lemma runtime_taken_from_event_witness :
  resolved_state (task_event "task-succeeded" "x" 14 None (Some 3.25%float))
  = Some SUCCESS ∧
  TASKS_RUNTIME (metrics
    (_process_event (task_event "task-succeeded" "x" 14 None (Some 3.25%float))
       tracking_x).2)
  = [("emailTask", 3.25%float)].
Proof.
  assert (resolved_state (task_event "task-succeeded" "x" 14 None (Some 3.25%float))
          = Some SUCCESS) as Hr by (vm_compute; reflexivity).
  split; [exact Hr|].
  exact (runtime_taken_from_event
           (task_event "task-succeeded" "x" 14 None (Some 3.25%float)) tracking_x
           "x" 3.25%float Hr eq_refl eq_refl ltac:(vm_compute; discriminate)).
Defined.

(** ** Malformed events *)

Lemma setup_metrics_Ok app w : (setup_metrics app w).1 = Ok ().
Proof.
  destruct (registered_tasks app) as [regs|] eqn:Hreg.
  - by rewrite (setup_metrics_registered _ _ _ Hreg).
  - by rewrite (setup_metrics_failed _ _ Hreg).
Qed.

Lemma setup_metrics_logged app w : logged (setup_metrics app w).2 = logged w.
Proof.
  destruct (registered_tasks app) as [regs|] eqn:Hreg.
  - by rewrite (setup_metrics_registered _ _ _ Hreg).
  - by rewrite (setup_metrics_failed _ _ Hreg).
Qed.

(** C2, counterexample.  The kind "foo" is not in the table: processing the
    event raises KeyError, and the event behind it in the same capture, a
    well-formed one, is not processed (alone it would be counted). *)
Lemma unknown_kind_raises_KeyError :
  (_process_event task_foo tracking_x).1 = Raise KeyError ∧
  capture [task_foo; task_succeeded_x] tracking_x = (Raise KeyError, tracking_x) ∧
  tasks_by_state (capture [task_succeeded_x] tracking_x).2 SUCCESS = 1.
Proof. vm_compute. repeat split; reflexivity. Qed.

(** C2, as the code has it.  A task event whose kind is not in the
    kind-to-state table is not dropped by event processing:
    [_process_event] raises KeyError and leaves the state as it was; the
    exception ends [capture], so the later events of the connection are not
    processed; [_monitor] catches it, logs it and re-baselines the metrics,
    and its turn ends without an exception, the store kept. *)
Theorem unknown_kind_ends_capture (evt : Event) (rest : list Event) (w : Process)
    (app app' : App) :
  group_from (evt_type evt) = "task" →
  TASK_EVENT_TO_STATE !! slice_from 5 (evt_type evt) = None →
  _process_event evt w = (Raise KeyError, w) ∧
  capture (evt :: rest) w = (Raise KeyError, w) ∧
  (_monitor_turn app app' (Some (evt :: rest)) w).1 = Ok () ∧
  logged (_monitor_turn app app' (Some (evt :: rest)) w).2
  = (logged w ++ [KeyError])%list ∧
  monitor (_monitor_turn app app' (Some (evt :: rest)) w).2 = monitor w.
Proof.
  intros Hg Hk.
  assert (∀ w0, _process_event evt w0 = (Raise KeyError, w0)) as Hevt.
  { intros w0. by apply _process_event_unknown. }
  assert (∀ w0, capture (evt :: rest) w0 = (Raise KeyError, w0)) as Hcap.
  { intros w0. simpl. unfold mbind, M_bind, bind. by rewrite Hevt. }
  split; [apply Hevt|]. split; [apply Hcap|].
  unfold _monitor_turn, try_except, mbind, M_bind, bind. simpl.
  pose proof (setup_metrics_Ok app w) as Hok.
  pose proof (setup_metrics_logged app w) as Hlog.
  pose proof (setup_metrics_monitor app (monitor w) w eq_refl) as Hmon.
  destruct (setup_metrics app w) as [[[]|e] w1]; [|done]. simpl in *.
  rewrite Hcap. simpl. unfold log_exception.
  set (w2 := with_logged _ w1).
  pose proof (setup_metrics_Ok app' w2) as Hok'.
  pose proof (setup_metrics_logged app' w2) as Hlog'.
  pose proof (setup_metrics_monitor app' (monitor w2) w2 eq_refl) as Hmon'.
  destruct (setup_metrics app' w2) as [[[]|e] w3]; [|done]. simpl in *.
  repeat split; [by rewrite Hlog', Hlog|by rewrite Hmon'].
Qed.

(** An event without an id.  With an unready kind it raises KeyError (in
    the store's upsert, after the lookup for the latency was skipped); with a
    ready kind it raises nothing and is counted. *)
Example event_without_id :
  let started :=
    {| evt_type := "task-started"; evt_uuid := None; evt_hostname := Some "worker1";
       evt_timestamp := Some 11%float; evt_local_received := Some 11%float;
       evt_clock := Some 1; evt_runtime := None; evt_name := None |} in
  let failed :=
    {| evt_type := "task-failed"; evt_uuid := None; evt_hostname := Some "worker1";
       evt_timestamp := Some 11%float; evt_local_received := Some 11%float;
       evt_clock := Some 1; evt_runtime := None; evt_name := None |} in
  (_process_event started tracking_x).1 = Raise KeyError ∧
  (_process_event failed tracking_x).1 = Ok () ∧
  tasks_by_state (_process_event failed tracking_x).2 FAILURE = 1.
Proof. vm_compute. repeat split; reflexivity. Qed.

Lemma unknown_kind_ends_capture_witness :
  group_from (evt_type task_foo) = "task" ∧
  capture [task_foo; task_succeeded_x] tracking_x = (Raise KeyError, tracking_x).
Proof.
  split; [reflexivity|].
  exact (proj1 (proj2 (unknown_kind_ends_capture task_foo [task_succeeded_x]
                         tracking_x app_without_workers app_without_workers
                         eq_refl ltac:(vm_compute; reflexivity)))).
Defined.

(** ** A ready-state event for a tracked record *)

Lemma LRUCache_getitem_keeps key v c :
  0 ≤ limit c → data_get key (data c) = Some v →
  data_get key (data (LRUCache_getitem key c).2) = Some v.
Proof.
  intros Hlim Hget. pose proof (LRUCache_getitem_found key v c Hlim Hget) as Hok.
  unfold LRUCache_getitem in *. rewrite Hget in *.
  match goal with |- context [LRUCache_setitem ?k ?x ?c1] =>
    pose proof (LRUCache_setitem_get k x c1) as Hset;
    destruct (LRUCache_setitem k x c1) as [[[]|e] c2] end; [|done].
  by apply Hset.
Qed.

Lemma LRUCache_pop_found key v c :
  0 ≤ limit c → data_get key (data c) = Some v → (LRUCache_pop key c).1 = Ok v.
Proof.
  intros Hlim Hget. pose proof (LRUCache_getitem_found key v c Hlim Hget) as Hok.
  unfold LRUCache_pop. destruct (LRUCache_getitem key c) as [[x|e] c1]; [|done].
  simpl in *. congruence.
Qed.

Lemma _observe_runtime_found evt w id prev runtime :
  evt_uuid evt = Some id → evt_runtime evt = Some runtime →
  0 ≤ limit (_state_tasks (monitor w)) →
  data_get id (data (_state_tasks (monitor w))) = Some prev →
  (_observe_runtime evt w).1 = Ok () ∧
  TASKS_NAME (metrics (_observe_runtime evt w).2) = TASKS_NAME (metrics w) ∧
  limit (_state_tasks (monitor (_observe_runtime evt w).2))
  = limit (_state_tasks (monitor w)) ∧
  data_get id (data (_state_tasks (monitor (_observe_runtime evt w).2))) = Some prev.
Proof.
  intros Hid Hrt Hlim Hget.
  unfold _observe_runtime, try_else, mbind, M_bind, bind, on_tasks.
  rewrite Hid, Hrt. simpl.
  pose proof (LRUCache_getitem_found id prev _ Hlim Hget) as Hok.
  pose proof (LRUCache_getitem_keeps id prev _ Hlim Hget) as Hkeep.
  pose proof (LRUCache_getitem_limit id (_state_tasks (monitor w))) as Hl.
  destruct (LRUCache_getitem id (_state_tasks (monitor w))) as [[x|e] c1]; [|done].
  simpl in *. by repeat split.
Qed.

Lemma _incr_ready_task_found evt state w id prev :
  evt_uuid evt = Some id →
  0 ≤ limit (_state_tasks (monitor w)) →
  data_get id (data (_state_tasks (monitor w))) = Some prev →
  (_incr_ready_task evt state w).1 = Ok () ∧
  TASKS_NAME (metrics (_incr_ready_task evt state w).2)
  = gauge_inc (state, py_str (t_name prev)) (TASKS_NAME (metrics w)).
Proof.
  intros Hid Hlim Hget.
  unfold _incr_ready_task, try_except, mbind, M_bind, bind, on_tasks, modify_metrics.
  rewrite Hid. simpl.
  pose proof (LRUCache_pop_found id prev _ Hlim Hget) as Hok.
  destruct (LRUCache_pop id (_state_tasks (monitor w))) as [[x|e] c1]; [|done].
  simpl in *. injection Hok as ->. by split.
Qed.

(** What the code does with a ready-state event for a tracked id (a
    succeeded event carrying its runtime): it is processed without an
    exception, [TASKS] goes up by one for the state, and [TASKS_NAME] goes up
    by one for the state and the [str] of the record's name, whatever the
    name is, [None] included. *)
Lemma _process_event_ready_counts evt w id prev state :
  tracks_unready (monitor w) →
  0 ≤ limit (_state_tasks (monitor w)) →
  resolved_state evt = Some state → state ∈ READY_STATES →
  evt_uuid evt = Some id →
  (state = SUCCESS → is_Some (evt_runtime evt)) →
  data_get id (data (_state_tasks (monitor w))) = Some prev →
  (_process_event evt w).1 = Ok () ∧
  tasks_by_state (_process_event evt w).2 state = tasks_by_state w state + 1 ∧
  gauge_value (TASKS_NAME (metrics (_process_event evt w).2))
    (state, py_str (t_name prev))
  = gauge_value (TASKS_NAME (metrics w)) (state, py_str (t_name prev)) + 1.
Proof.
  intros Hw Hlim Hr Hs Hid Hrt Hget.
  assert ((_process_event evt w).1 = Ok () ∧
          TASKS_NAME (metrics (_process_event evt w).2) !! (state, py_str (t_name prev))
          = gauge_inc (state, py_str (t_name prev)) (TASKS_NAME (metrics w))
              !! (state, py_str (t_name prev))) as [Hok Hname].
  { rewrite (_process_event_resolved _ _ Hr). unfold _collect_tasks.
    rewrite (bool_decide_eq_false_2 (state = STARTED)).
    2:{ intros ->. by apply (ready_not_unready STARTED);
          [|unfold UNREADY_STATES; rewrite !elem_of_union, !elem_of_singleton; tauto]. }
    rewrite (bool_decide_eq_true_2 (state ∈ READY_STATES)) by done.
    unfold mbind, M_bind, bind. cbn [ret].
    assert (∃ w1, (if bool_decide (state = SUCCESS) then _observe_runtime evt
                   else ret ()) w = (Ok (), w1) ∧
                  tracks_unready (monitor w1) ∧
                  TASKS_NAME (metrics w1) = TASKS_NAME (metrics w) ∧
                  0 ≤ limit (_state_tasks (monitor w1)) ∧
                  data_get id (data (_state_tasks (monitor w1))) = Some prev)
      as (w1 & -> & Hw1 & Hn1 & Hlim1 & Hget1).
    { case_bool_decide as Hsucc; [|by exists w].
      destruct (Hrt Hsucc) as [runtime Hruntime].
      destruct (_observe_runtime_found evt w id prev runtime)
        as (Hok1 & Hn1 & Hl1 & Hg1); try done.
      pose proof (_observe_runtime_tracks evt w Hw) as Hw1.
      destruct (_observe_runtime evt w) as [[[]|e] w1]; [|done].
      exists w1. simpl in *.
      split; [done|]. split; [done|]. split; [done|]. split; [lia|done]. }
    destruct (_incr_ready_task_found evt state w1 id prev) as [Hok2 Hn2]; try done.
    pose proof (_incr_ready_task_tracks evt state w1 Hw1) as Hw2.
    destruct (_incr_ready_task evt state w1) as [[[]|e] w2]; [|done].
    simpl in *. rewrite _collect_unready_tasks_ready_TASKS_NAME by done.
    split; [by rewrite _collect_unready_tasks_run|]. by rewrite Hn2, Hn1. }
  split; [done|]. split.
  - by apply _process_event_ready_TASKS.
  - unfold gauge_value at 1. rewrite Hname.
    fold (gauge_value (gauge_inc (state, py_str (t_name prev)) (TASKS_NAME (metrics w)))
            (state, py_str (t_name prev))).
    rewrite gauge_value_inc. by rewrite decide_True.
Qed.

(** C4, as the code behaves.  The task "y" is first seen with its
    started event, which carries no name, so its record has [name = None].
    Its succeeded event raises [celery_tasks{state="SUCCESS"}] by one and
    removes the record, as the spec says; but it also creates and raises the
    series [celery_tasks_by_name{state="SUCCESS",name="None"}]:
    [event.name] is [None], no AttributeError is raised, and the label value
    is [str(None)]. *)
Theorem ready_event_counts_unnamed_record_as_None :
  let w := exec_ops [OpEvent (task_event "task-started" "y" 1 None None)]
             (Process_init 10000 no_redis) in
  let w' := exec_op (OpEvent (task_event "task-succeeded" "y" 2 None (Some 1%float))) w in
  t_name <$> data_get "y" (data (_state_tasks (monitor w))) = Some None ∧
  TASKS_NAME (metrics w) !! (SUCCESS, "None") = None ∧
  TASKS_NAME (metrics w') !! (SUCCESS, "None") = Some 1 ∧
  tasks_by_state w' SUCCESS = tasks_by_state w SUCCESS + 1 ∧
  data_get "y" (data (_state_tasks (monitor w'))) = None.
Proof. vm_compute. repeat split; reflexivity. Qed.

(** ** The queue monitor *)

Lemma setdefault_insert key (d : gmap string Z) :
  <[ key := gauge_value (setdefault key 0 d) key + 1 ]> (setdefault key 0 d)
  = <[ key := gauge_value d key + 1 ]> d.
Proof.
  unfold setdefault, gauge_value. destruct (d !! key) as [v|] eqn:Hk.
  - by rewrite Hk.
  - by rewrite lookup_insert_eq, insert_insert_eq.
Qed.

Lemma occurrences_cons_eq n l : occurrences n (n :: l) = 1 + occurrences n l.
Proof.
  unfold occurrences. rewrite filter_cons, decide_True by done. simpl. lia.
Qed.

Lemma occurrences_cons_ne m n l : m ≠ n → occurrences n (m :: l) = occurrences n l.
Proof. intros Hne. unfold occurrences. by rewrite filter_cons, decide_False. Qed.

Lemma occurrences_notin n l : n ∉ l → occurrences n l = 0.
Proof.
  induction l as [|m l IH]; intros Hn; [done|].
  apply not_elem_of_cons in Hn as [Hne Hn].
  rewrite occurrences_cons_ne by done. by apply IH.
Qed.

Lemma occurrences_in n l : n ∈ l → 0 < occurrences n l.
Proof.
  intros Hn. unfold occurrences.
  assert (n ∈ filter (λ x, x = n) l) as Hf by by apply list_elem_of_filter.
  destruct (filter _ l); [by apply elem_of_nil in Hf|simpl; lia].
Qed.

Lemma decoded_names_cons t tasks :
  decoded_names (t :: tasks)
  = match task_name_of t with
    | Ok n => n :: decoded_names tasks
    | Raise _ => decoded_names tasks
    end.
Proof. unfold decoded_names. simpl. by destruct (task_name_of t). Qed.

(** The tally, when it completes: an entry of the dict for every decoded
    name, holding the number of its occurrences. *)
Lemma count_tasks_tally tasks acc counts :
  count_tasks tasks acc = Ok counts →
  ∀ n, counts !! n
       = if decide (n ∈ decoded_names tasks)
         then Some (gauge_value acc n + occurrences n (decoded_names tasks))
         else acc !! n.
Proof.
  revert acc. induction tasks as [|t tasks IH]; intros acc Hc n; simpl in Hc.
  - injection Hc as <-. by rewrite decide_False by apply not_elem_of_nil.
  - rewrite decoded_names_cons.
    destruct (task_name_of t) as [name|e] eqn:Ht.
    + rewrite setdefault_insert in Hc. rewrite (IH _ Hc n).
      destruct (decide (name = n)) as [->|Hne].
      * rewrite (decide_True (P := n ∈ n :: _)) by by left.
        rewrite occurrences_cons_eq. unfold gauge_value at 1.
        rewrite lookup_insert_eq. simpl.
        case_decide as Hin.
        -- apply (f_equal Some). lia.
        -- rewrite (occurrences_notin _ _ Hin). apply (f_equal Some). lia.
      * rewrite occurrences_cons_ne by done. unfold gauge_value at 1.
        rewrite !lookup_insert_ne by done.
        case_decide as Hin.
        -- by rewrite (decide_True (P := n ∈ name :: _)) by by right.
        -- rewrite (decide_False (P := n ∈ name :: _)); [done|].
           intros [->|?]%elem_of_cons; done.
    + destruct (_ || _); [|done]. by apply IH.
Qed.

Lemma count_tasks_skipped tasks acc :
  Forall (λ t, skipped t = true) tasks → count_tasks tasks acc = Ok acc.
Proof.
  induction 1 as [|t tasks Ht _ IH]; [done|]. cbn [count_tasks].
  unfold skipped in Ht. destruct (task_name_of t); [done|]. by rewrite Ht.
Qed.

Lemma with_QUEUE_TASKS_same w : with_metrics (with_QUEUE_TASKS (λ g, g)) w = w.
Proof. by destruct w as [? ? [] ?]. Qed.

Lemma _collect_queue_tasks_run queue w counts :
  count_tasks (lrange (redis_client w) queue) ∅ = Ok counts →
  _collect_queue_tasks queue w
  = sadd (queue ++ "_tasks") (map_to_list counts).*1
      (with_metrics
         (with_QUEUE_TASKS
            (queue_tasks_after queue counts
               (smembers (redis_client w) (queue ++ "_tasks"))))
         w).
Proof.
  intros Hc. unfold _collect_queue_tasks, mbind, M_bind, bind, get_redis.
  rewrite Hc, for_in_modify_metrics.
  unfold _zero_not_exist_tasks, mbind, M_bind, bind, get_redis.
  cbn [redis_client with_metrics].
  rewrite (for_in_ext _ _
    (λ t, modify_metrics
            (with_QUEUE_TASKS
               (λ g, if bool_decide (counts !! t = None)
                     then gauge_set (queue, t) 0 g else g)))).
  2:{ intros t w0. case_bool_decide; [done|].
      unfold modify_metrics. by rewrite with_QUEUE_TASKS_same. }
  rewrite for_in_modify_metrics. unfold with_metrics. cbn [metrics].
  rewrite foldl_with_QUEUE_TASKS, foldl_with_QUEUE_TASKS.
  reflexivity.
Qed.

Lemma foldl_zero_other (queue : string) (cond : string → bool) (xs : list string)
    (g : gmap (string * string) Z) (l : string * string) :
  (∀ t, t ∈ xs → cond t = true → (queue, t) ≠ l) →
  foldl (λ g t, if cond t then gauge_set (queue, t) 0 g else g) g xs !! l = g !! l.
Proof.
  revert g. induction xs as [|t xs IH]; intros g Hl; simpl; [done|].
  rewrite IH by (intros t' Ht'; apply Hl; by right).
  destruct (cond t) eqn:Hc; [|done].
  unfold gauge_set. apply lookup_insert_ne. apply Hl; [by left|done].
Qed.

Lemma foldl_zero_in (queue : string) (cond : string → bool) (xs : list string)
    (g : gmap (string * string) Z) (t : string) :
  t ∈ xs → cond t = true →
  foldl (λ g t, if cond t then gauge_set (queue, t) 0 g else g) g xs !! (queue, t)
  = Some 0.
Proof.
  intros Ht Hc.
  assert (∀ ys g', g' !! (queue, t) = Some 0 →
            foldl (λ g t, if cond t then gauge_set (queue, t) 0 g else g) g' ys
              !! (queue, t) = Some 0) as Hkeep.
  { induction ys as [|y ys IH]; intros g' Hg'; simpl; [done|]. apply IH.
    destruct (cond y); [|done]. unfold gauge_set.
    destruct (decide (y = t)) as [->|Hne];
      [apply lookup_insert_eq|rewrite lookup_insert_ne; [done|congruence]]. }
  revert g. induction xs as [|x xs IH]; intros g; [by apply elem_of_nil in Ht|].
  simpl. apply elem_of_cons in Ht as [<-|Ht]; [|by apply IH].
  apply Hkeep. rewrite Hc. unfold gauge_set. apply lookup_insert_eq.
Qed.

Lemma queue_tasks_after_counted queue counts seen g n c :
  counts !! n = Some c →
  queue_tasks_after queue counts seen g !! (queue, n) = Some c.
Proof.
  intros Hn. unfold queue_tasks_after.
  rewrite (foldl_zero_other queue (λ t, bool_decide (counts !! t = None))).
  - apply (foldl_gauge_set_in (λ kv, (queue, kv.1)) (λ kv, kv.2)).
    + exists (n, c). split; [by apply elem_of_map_to_list|done].
    + intros [k v] Hkv%elem_of_map_to_list [= ->]. simpl. congruence.
  - intros t _ Hnone%bool_decide_eq_true [= ->]. congruence.
Qed.

Lemma queue_tasks_after_zeroed queue counts seen g n :
  n ∈ seen → counts !! n = None →
  queue_tasks_after queue counts seen g !! (queue, n) = Some 0.
Proof.
  intros Hn Hnone. unfold queue_tasks_after.
  apply (foldl_zero_in queue (λ t, bool_decide (counts !! t = None))).
  - by apply elem_of_elements.
  - by apply bool_decide_eq_true.
Qed.

Lemma sadd_smembers key members w :
  smembers (redis_client (sadd key members w).2) key
  = smembers (redis_client w) key ∪ list_to_set members.
Proof.
  destruct members as [|m members]; simpl.
  - by rewrite union_empty_r_L.
  - unfold smembers at 1. simpl. by rewrite lookup_insert_eq.
Qed.

Lemma sadd_metrics key members w : metrics (sadd key members w).2 = metrics w.
Proof. by destruct members. Qed.

Lemma map_to_list_keys_dom (counts : gmap string Z) :
  list_to_set (map_to_list counts).*1 = dom counts.
Proof.
  apply set_eq. intros n.
  rewrite elem_of_list_to_set, list_elem_of_fmap, elem_of_dom. split.
  - intros ([k v] & -> & Hkv%elem_of_map_to_list). by exists v.
  - intros [v Hv]. exists (n, v). split; [done|]. by apply elem_of_map_to_list.
Qed.

(** X22.  A poll of queue [queue] whose tally completes (every entry
    decodes to a name or is skipped): each tallied name has its series set
    to the number of its entries; each name of the persisted set that is not
    tallied has its series set to 0; and the persisted set becomes the union
    of itself and the tallied names, so it never shrinks. *)
Theorem queue_poll_sets_counts_and_zeroes (queue : string) (w : Process)
    (counts : gmap string Z) :
  count_tasks (lrange (redis_client w) queue) ∅ = Ok counts →
  let names := decoded_names (lrange (redis_client w) queue) in
  let seen := smembers (redis_client w) (queue ++ "_tasks") in
  let w' := (_collect_queue_tasks queue w).2 in
  (∀ n, n ∈ names →
        counts !! n = Some (occurrences n names) ∧
        QUEUE_TASKS (metrics w') !! (queue, n) = Some (occurrences n names)) ∧
  (∀ n, n ∈ seen → n ∉ names → QUEUE_TASKS (metrics w') !! (queue, n) = Some 0) ∧
  smembers (redis_client w') (queue ++ "_tasks") = seen ∪ list_to_set names ∧
  seen ⊆ smembers (redis_client w') (queue ++ "_tasks").
Proof.
  intros Hc names seen w'. subst w'.
  rewrite (_collect_queue_tasks_run _ _ _ Hc).
  pose proof (count_tasks_tally _ _ _ Hc) as Htally.
  assert (dom counts = list_to_set names) as Hdom.
  { apply set_eq. intros n. rewrite elem_of_dom, elem_of_list_to_set, Htally.
    fold names. case_decide; [by split|].
    rewrite lookup_empty. split; [by intros [? ?]|done]. }
  rewrite sadd_metrics, sadd_smembers, map_to_list_keys_dom, Hdom.
  cbn [metrics with_metrics QUEUE_TASKS with_QUEUE_TASKS redis_client].
  fold seen. repeat split.
  - rewrite Htally. fold names. rewrite decide_True by done.
    unfold gauge_value. rewrite lookup_empty. simpl. done.
  - apply queue_tasks_after_counted.
    rewrite Htally. fold names. rewrite decide_True by done.
    unfold gauge_value. rewrite lookup_empty. simpl. done.
  - intros n Hseen Hn. apply queue_tasks_after_zeroed; [done|].
    rewrite Htally. fold names. by rewrite decide_False.
  - apply union_subseteq_l.
Qed.

Lemma queue_poll_sets_counts_and_zeroes_witness :
  count_tasks (lrange (redis_client drained_b) "q") ∅ = Ok {[ "a" := 4 ]} ∧
  QUEUE_TASKS (metrics (_collect_queue_tasks "q" drained_b).2) !! ("q", "a") = Some 4 ∧
  QUEUE_TASKS (metrics (_collect_queue_tasks "q" drained_b).2) !! ("q", "b") = Some 0.
Proof.
  assert (count_tasks (lrange (redis_client drained_b) "q") ∅ = Ok {[ "a" := 4 ]})
    as Hc by (vm_compute; reflexivity).
  destruct (queue_poll_sets_counts_and_zeroes "q" drained_b _ Hc)
    as (Hcounted & Hzeroed & _).
  split; [exact Hc|]. split.
  - apply (Hcounted "a"). vm_compute. by left.
  - apply (Hzeroed "b").
    + apply (bool_decide_unpack _). by vm_compute.
    + apply (bool_decide_unpack _). by vm_compute.
Defined.

(** C6, as the code behaves.  The names "a" and "b" were seen in queue "q",
    which now holds two messages of task "a" and one entry that is JSON but
    not an object, [[1, 2]].  An entry that cannot be decoded is meant to be
    skipped: the [except] clause skips what is not JSON and what lacks the
    keys.  Subscripting a list with ['headers'] raises TypeError, which the
    clause does not name, so the poll ends in the tally: the series of "a"
    is not set to 2, the series of "b" is not set to 0, and the persisted
    set is not updated.  Without that entry the poll does all three. *)
Theorem queue_poll_aborts_on_array_entry :
  let w := seen_a_b [message "a"; message "a"; NotAnObject] in
  let w' := (_collect_queue_tasks "q" w).2 in
  let v := (_collect_queue_tasks "q" (seen_a_b [message "a"; message "a"])).2 in
  (_collect_queue_tasks "q" w).1 = Raise TypeError ∧
  QUEUE_TASKS (metrics w') !! ("q", "a") = None ∧
  QUEUE_TASKS (metrics w') !! ("q", "b") = None ∧
  w' = w ∧
  QUEUE_TASKS (metrics v) !! ("q", "a") = Some 2 ∧
  QUEUE_TASKS (metrics v) !! ("q", "b") = Some 0.
Proof. vm_compute. repeat split; reflexivity. Qed.

(** C10.  A poll of a queue in which no entry decodes to a task name (the
    queue is empty, or every entry fails) ends with an exception.  When the
    entries are all of the kind the [except] clause skips, the tally is
    empty, [sadd] is called without a member, and the exception is the
    ResponseError of the refused command; the persisted set is as before. *)
Theorem poll_without_names_raises (queue : string) (w : Process) :
  decoded_names (lrange (redis_client w) queue) = [] →
  ∃ e, (_collect_queue_tasks queue w).1 = Raise e ∧
       (Forall (λ t, skipped t = true) (lrange (redis_client w) queue) →
        e = ResponseError ∧
        redis_client (_collect_queue_tasks queue w).2 = redis_client w).
Proof.
  intros Hnames.
  destruct (count_tasks (lrange (redis_client w) queue) ∅) as [counts|e] eqn:Hc.
  - assert (counts = ∅) as ->.
    { apply map_eq. intros n. rewrite (count_tasks_tally _ _ _ Hc n), Hnames.
      by rewrite decide_False by apply not_elem_of_nil. }
    rewrite (_collect_queue_tasks_run _ _ _ Hc), map_to_list_empty. simpl.
    exists ResponseError. by repeat split.
  - exists e. split.
    + unfold _collect_queue_tasks, mbind, M_bind, bind, get_redis. by rewrite Hc.
    + intros Hskip. by rewrite (count_tasks_skipped _ _ Hskip) in Hc.
Qed.

(** An empty queue: the poll raises. *)
Lemma poll_without_names_raises_witness :
  decoded_names (lrange (redis_client tracking_x) "q") = [] ∧
  ∃ e, (_collect_queue_tasks "q" tracking_x).1 = Raise e.
Proof.
  split; [reflexivity|].
  destruct (poll_without_names_raises "q" tracking_x eq_refl) as (e & He & _).
  by exists e.
Defined.

Example poll_of_empty_queue :
  (_collect_queue_tasks "q" tracking_x).1 = Raise ResponseError.
Proof. vm_compute. reflexivity. Qed.

(** ** One queue fails *)

Lemma for_in_raises {A} (xs1 : list A) x xs2 (body : A → M unit) w w1 w2 e :
  for_in xs1 body w = (Ok (), w1) →
  body x w1 = (Raise e, w2) →
  for_in (xs1 ++ x :: xs2) body w = (Raise e, w2).
Proof.
  revert w. induction xs1 as [|y xs1 IH]; intros w; simpl.
  - intros [= ->] Hx. unfold mbind, M_bind, bind. by rewrite Hx.
  - unfold mbind, M_bind, bind.
    destruct (body y w) as [[[]|e'] w']; [|done]. apply IH.
Qed.

Lemma _collect_queue_lengths_loop queues w :
  ∃ w', for_in queues _collect_queue_lengths w = (Ok (), w').
Proof.
  revert w. induction queues as [|q queues IH]; intros w; simpl; [by eexists|].
  unfold mbind, M_bind, bind. apply IH.
Qed.

(** C7, counterexample.  Queue q1 is empty, so its poll raises; q2, behind it
    in the same cycle, holds one task and is not looked at: its series stays
    unset, while a poll of q2 would have set it to 1. *)
Lemma failing_queue_blocks_the_rest :
  (_get_all_queues two_queues).1 = Ok ["q1"; "q2"] ∧
  (collect_metrics two_queues).1 = Raise ResponseError ∧
  QUEUE_TASKS (metrics (run_turn None two_queues).2) !! ("q2", "a") = None ∧
  QUEUE_TASKS (metrics (_collect_queue_tasks "q2" two_queues).2) !! ("q2", "a")
  = Some 1.
Proof. vm_compute. repeat split; reflexivity. Qed.

(** C7, as the code has it.  When the poll of one task queue raises, the
    cycle ends there: [collect_metrics] raises the same exception in the
    state reached at that point, so the queues behind it are not polled in
    this cycle; [run] catches the exception and logs it, and, in a process
    started without QUEUE_INTERVAL_SECONDS, sleeps the interval and ends its
    turn without an exception, so the next cycle starts after the
    interval. *)
Theorem failing_queue_ends_cycle (w w1 w2 : Process) (queues qs1 qs2 : list string)
    (q : string) (e : exn) :
  _get_all_queues w = (Ok queues, w) →
  _get_task_queues queues = (qs1 ++ q :: qs2)%list →
  for_in qs1 _collect_queue_tasks (for_in queues _collect_queue_lengths w).2
  = (Ok (), w1) →
  _collect_queue_tasks q w1 = (Raise e, w2) →
  collect_metrics w = (Raise e, w2) ∧
  run_turn None w = (Ok (), with_logged (λ l, (l ++ [e])%list) w2).
Proof.
  intros Hall Htask Hqs1 Hq.
  assert (collect_metrics w = (Raise e, w2)) as Hcm.
  { unfold collect_metrics, mbind at 1, M_bind at 1, bind at 1. rewrite Hall.
    unfold mbind, M_bind, bind.
    destruct (_collect_queue_lengths_loop queues w) as [w' Hlen].
    rewrite Hlen in *. simpl in Hqs1. rewrite Htask.
    by apply for_in_raises with w1. }
  split; [done|]. unfold run_turn, try_except, mbind, M_bind, bind. by rewrite Hcm.
Qed.

Lemma failing_queue_ends_cycle_witness :
  _get_task_queues ["q1"; "q2"] = ([] ++ "q1" :: ["q2"])%list ∧
  (run_turn None two_queues).1 = Ok () ∧
  logged (run_turn None two_queues).2 = [ResponseError].
Proof.
  split; [reflexivity|].
  pose proof (failing_queue_ends_cycle two_queues
                (for_in ["q1"; "q2"] _collect_queue_lengths two_queues).2
                (_collect_queue_tasks "q1"
                   (for_in ["q1"; "q2"] _collect_queue_lengths two_queues).2).2
                ["q1"; "q2"] [] ["q2"] "q1" ResponseError
                ltac:(vm_compute; reflexivity) eq_refl eq_refl
                ltac:(vm_compute; reflexivity)) as [_ Hrun].
  rewrite Hrun. split; [reflexivity|]. vm_compute. reflexivity.
Defined.

(** ** The capacity of the store *)



Lemma State_event_run evt w uuid :
  group_from (evt_type evt) = "task" →
  evt_uuid evt = Some uuid →
  is_Some (evt_hostname evt) → is_Some (evt_timestamp evt) →
  is_Some (evt_local_received evt) → is_Some (evt_clock evt) →
  State_event evt w
  = match data_get uuid (data (_state_tasks (monitor w))) with
    | Some task =>
        (Ok (),
         with_monitor
           (with_tasks
              (λ c, {| limit := limit c;
                       data := data_set uuid
                                 (Task_event (slice_from 5 (evt_type evt)) evt task)
                                 (data c) |}))
           w)
    | None =>
        match LRUCache_setitem uuid Task_new (_state_tasks (monitor w)) with
        | (Ok _, c1) =>
            (Ok (),
             with_monitor
               (with_tasks
                  (λ _, {| limit := limit c1;
                           data := data_set uuid
                                     (Task_event (slice_from 5 (evt_type evt)) evt
                                        Task_new)
                                     (data c1) |}))
               w)
        | (Raise e, c1) => (Raise e, with_monitor (with_tasks (λ _, c1)) w)
        end
    end.
Proof.
  intros Hg Hid [? Hh] [? Hts] [? Hlr] [? Hcl]. unfold State_event.
  rewrite bool_decide_eq_true_2 by done.
  rewrite (partition_subject_task _ Hg), Hid, Hh, Hts, Hlr, Hcl.
  unfold mbind, M_bind, bind, getitem, get_monitor, on_tasks. cbn [ret fst snd].
  destruct (data_get uuid _) as [task|]; [by destruct w as [[[] ? ?] ? ? ?]|].
  destruct (LRUCache_setitem _ _ _) as [[[]|e] c1]; reflexivity.
Qed.

Section WithinCapacity.
Context (n : Z) (Hn : 0 < n).


Lemma on_tasks_getitem_within key : preserves (λ w, within_capacity n (monitor w)) (on_tasks (LRUCache_getitem key)).
Proof.
  apply preserves_on_tasks. intros w [Hlim Hlen]. split; simpl.
  - by rewrite LRUCache_getitem_limit.
  - pose proof (LRUCache_getitem_length_le key (_state_tasks (monitor w))). lia.
Qed.

Lemma on_tasks_pop_within key : preserves (λ w, within_capacity n (monitor w)) (on_tasks (LRUCache_pop key)).
Proof.
  apply preserves_on_tasks. intros w [Hlim Hlen]. split; simpl.
  - by rewrite LRUCache_pop_limit.
  - pose proof (LRUCache_pop_length_le key (_state_tasks (monitor w))). lia.
Qed.

Lemma State_event_within evt : preserves (λ w, within_capacity n (monitor w)) (State_event evt).
Proof.
  intros w [Hlim Hlen].
  destruct (decide (group_from (evt_type evt) = "task")) as [Hg|Hg].
  2:{ unfold State_event. by rewrite bool_decide_eq_false_2. }
  destruct (evt_uuid evt) as [uuid|] eqn:Hid.
  2:{ unfold State_event, mbind, M_bind, bind. rewrite Hid.
      by rewrite bool_decide_eq_true_2. }
  destruct (evt_hostname evt) as [h|] eqn:Hh.
  2:{ unfold State_event, mbind, M_bind, bind. rewrite Hid, Hh.
      by rewrite bool_decide_eq_true_2. }
  destruct (evt_timestamp evt) as [ts|] eqn:Hts.
  2:{ unfold State_event, mbind, M_bind, bind. rewrite Hid, Hh, Hts.
      by rewrite bool_decide_eq_true_2. }
  destruct (evt_local_received evt) as [lr|] eqn:Hlr.
  2:{ unfold State_event, mbind, M_bind, bind. rewrite Hid, Hh, Hts, Hlr.
      by rewrite bool_decide_eq_true_2. }
  destruct (evt_clock evt) as [cl|] eqn:Hcl.
  2:{ unfold State_event, mbind, M_bind, bind. rewrite Hid, Hh, Hts, Hlr, Hcl.
      by rewrite bool_decide_eq_true_2. }
  rewrite (State_event_run evt w uuid) by (rewrite ?Hh, ?Hts, ?Hlr, ?Hcl; eauto).
  destruct (data_get uuid _) as [task|] eqn:Hget.
  - split; simpl; [done|]. rewrite data_set_length_present; [done|by eexists].
  - assert (0 < limit (_state_tasks (monitor w))) as Hpos by lia.
    destruct (LRUCache_setitem_bounded uuid Task_new _ Hpos ltac:(lia)) as [Hok Hle].
    pose proof (LRUCache_setitem_limit uuid Task_new (_state_tasks (monitor w))) as Hl.
    pose proof (LRUCache_setitem_get uuid Task_new (_state_tasks (monitor w)) Hok) as Hg'.
    destruct (LRUCache_setitem _ _ _) as [[[]|e] c1]; [|done]. simpl in *.
    split; simpl; [congruence|].
    rewrite data_set_length_present; [lia|by eexists].
Qed.

Lemma _process_event_within evt : preserves (λ w, within_capacity n (monitor w)) (_process_event evt).
Proof.
  unfold _process_event, _observe_latency, _observe_runtime, _collect_tasks,
    _incr_ready_task, celery3_state.
  pres; try done;
    try apply on_tasks_getitem_within; try apply on_tasks_pop_within;
    try apply State_event_within.
  intros w Hw. by rewrite _collect_unready_tasks_run.
Qed.
End WithinCapacity.



(** The order of the cache on two runs with capacity 2.  A started event
    looks its record up through the cache, which moves "a" behind "b", so
    "b" is the one dropped; a retried event updates "a" in place, "a" stays
    the oldest and is dropped. *)
Example eviction_after_lookup :
  (data (_state_tasks (monitor
     (exec_ops
        [OpEvent (task_event "task-received" "a" 1 None None);
         OpEvent (task_event "task-received" "b" 2 None None);
         OpEvent (task_event "task-started" "a" 3 None None);
         OpEvent (task_event "task-received" "c" 4 None None)]
        (Process_init 2 no_redis))))).*1
  = ["a"; "c"].
Proof. vm_compute. reflexivity. Qed.

Example eviction_after_update_in_place :
  (data (_state_tasks (monitor
     (exec_ops
        [OpEvent (task_event "task-received" "a" 1 None None);
         OpEvent (task_event "task-received" "b" 2 None None);
         OpEvent (task_event "task-retried" "a" 3 None None);
         OpEvent (task_event "task-received" "c" 4 None None)]
        (Process_init 2 no_redis))))).*1
  = ["b"; "c"].
Proof. vm_compute. reflexivity. Qed.

(** * Further properties *)

(** ** The counter and the levels of the recomputation pass *)

Lemma Counter_value_acc `{Countable K} (xs : list K) (acc : gmap K Z) (x : K) :
  gauge_value (foldl (λ cnt x, <[ x := gauge_value cnt x + 1 ]> cnt) acc xs) x
  = gauge_value acc x + Z.of_nat (length (filter (λ y, y = x) xs)).
Proof.
  revert acc. induction xs as [|y xs IH]; intros acc; simpl; [lia|].
  rewrite IH, filter_cons. unfold gauge_value at 1.
  destruct (decide (y = x)) as [->|Hne].
  - rewrite lookup_insert_eq. simpl. lia.
  - by rewrite lookup_insert_ne.
Qed.

Lemma Counter_value `{Countable K} (xs : list K) (x : K) :
  gauge_value (Counter xs) x = Z.of_nat (length (filter (λ y, y = x) xs)).
Proof. unfold Counter. rewrite Counter_value_acc. unfold gauge_value. by rewrite lookup_empty. Qed.

Lemma Counter_states_value (c : LRUCache) (state : string) :
  gauge_value (Counter (t_state <$> LRUCache_values c)) (Some state)
  = records_in_state state c.
Proof.
  rewrite Counter_value. unfold records_in_state. do 2 f_equal.
  induction (LRUCache_values c) as [|t ts IH]; [done|].
  rewrite fmap_cons, !filter_cons.
  destruct (decide (t_state t = Some state)) as [Ht|Ht];
    destruct (decide (t_state t = Some state)) as [Ht'|Ht']; try done;
    simpl; by rewrite IH.
Qed.

(** After the pass, every remembered state has its series at the number of
    records in that state, and every remembered pair of state and name has
    its series at the number of named records with that state and name. *)
Lemma _collect_unready_tasks_levels w :
  tracks_unready (monitor w) →
  let w' := (_collect_unready_tasks w).2 in
  (∀ state, Some state ∈ _known_states (monitor w') →
            TASKS (metrics w') !! state
            = Some (records_in_state state (_state_tasks (monitor w')))) ∧
  (∀ state name, (Some state, name) ∈ _known_states_names (monitor w') →
                 TASKS_NAME (metrics w') !! (state, name)
                 = Some (records_in_state_with_name state name
                           (_state_tasks (monitor w')))).
Proof.
  intros Hw. rewrite _collect_unready_tasks_run. simpl. split.
  - intros state Hk. rewrite <- Counter_states_value.
    apply (foldl_gauge_set_in py_str
             (gauge_value (Counter (t_state <$> LRUCache_values (_state_tasks (monitor w)))))).
    + exists (Some state). split; [by apply elem_of_elements|done].
    + intros k Hin%elem_of_elements Hstr.
      destruct (known_states_after_unready _ _ Hw Hin) as (s & -> & _).
      simpl in Hstr. by subst.
  - intros state name Hk. unfold records_in_state_with_name.
    rewrite <- Counter_value.
    apply (foldl_gauge_set_in (λ k : option string * string, (py_str k.1, k.2))
             (gauge_value (Counter (omap state_name_of
                                      (LRUCache_values (_state_tasks (monitor w))))))).
    + exists (Some state, name). split; [by apply elem_of_elements|done].
    + intros [k n] Hin%elem_of_elements [= Hstr ->].
      destruct (known_states_names_after_unready _ _ Hw Hin) as (s & Hs & _).
      simpl in *. subst. done.
Qed.

(** A task event that is processed to the end went through the pass last. *)
Lemma _process_event_ends_with_pass evt w state :
  resolved_state evt = Some state →
  (_process_event evt w).1 = Ok () →
  tracks_unready (monitor w) →
  ∃ w3, tracks_unready (monitor w3) ∧
        (_process_event evt w).2 = (_collect_unready_tasks w3).2.
Proof.
  intros Hr Hok Hw. revert Hok.
  pose proof (_process_event_tracks evt) as Htracks.
  rewrite (_process_event_resolved _ _ Hr). unfold _collect_tasks, mbind, M_bind, bind.
  assert (preserves (λ w, tracks_unready (monitor w))
            (if bool_decide (state = STARTED) then _observe_latency evt else ret ()))
    as H1 by (case_bool_decide; [apply _observe_latency_tracks|apply preserves_ret]).
  specialize (H1 w Hw).
  destruct ((if bool_decide (state = STARTED) then _observe_latency evt else ret ()) w)
    as [[[]|e1] w1]; [|done].
  assert (preserves (λ w, tracks_unready (monitor w))
            (if bool_decide (state = SUCCESS) then _observe_runtime evt else ret ()))
    as H2 by (case_bool_decide; [apply _observe_runtime_tracks|apply preserves_ret]).
  specialize (H2 w1 H1).
  destruct ((if bool_decide (state = SUCCESS) then _observe_runtime evt else ret ()) w1)
    as [[[]|e2] w2]; [|done].
  assert (preserves (λ w, tracks_unready (monitor w))
            (if bool_decide (state ∈ READY_STATES) then _incr_ready_task evt state
             else State_event evt)) as H3.
  { case_bool_decide; [apply _incr_ready_task_tracks|].
    unfold resolved_state in Hr. case_bool_decide; [|done].
    eapply State_event_tracks; [done|]. by destruct (TASK_EVENT_TO_STATE_range _ _ Hr). }
  specialize (H3 w2 H2).
  destruct ((if bool_decide (state ∈ READY_STATES) then _incr_ready_task evt state
             else State_event evt) w2) as [[[]|e3] w3]; [|done].
  intros _. by exists w3.
Qed.

(** X1.  After a task event that was processed without an exception, in any
    state the process can reach, the level gauges agree with the store: for
    every remembered state the series of [TASKS] is the number of tracked
    records in that state (0 when there is none), and for every remembered
    pair the series of [TASKS_NAME] is the number of named records with that
    state and name. *)
Theorem levels_agree_with_store (ops : list Op) (n : Z) (r : Redis) (evt : Event)
    (st : string) :
  resolved_state evt = Some st →
  (_process_event evt (exec_ops ops (Process_init n r))).1 = Ok () →
  let w' := (_process_event evt (exec_ops ops (Process_init n r))).2 in
  (∀ state, Some state ∈ _known_states (monitor w') →
            TASKS (metrics w') !! state
            = Some (records_in_state state (_state_tasks (monitor w')))) ∧
  (∀ state name, (Some state, name) ∈ _known_states_names (monitor w') →
                 TASKS_NAME (metrics w') !! (state, name)
                 = Some (records_in_state_with_name state name
                           (_state_tasks (monitor w')))).
Proof.
  intros Hr Hok.
  destruct (_process_event_ends_with_pass evt _ st Hr Hok
              (reachable_tracks_unready ops n r)) as (w3 & Hw3 & ->).
  by apply _collect_unready_tasks_levels.
Qed.

(** After received x and started x, then succeeded x: STARTED and RECEIVED
    are remembered and both read 0. *)
Lemma levels_agree_with_store_witness :
  resolved_state task_succeeded_x = Some SUCCESS ∧
  TASKS (metrics (_process_event task_succeeded_x tracking_x).2) !! RECEIVED = Some 0.
Proof.
  assert (resolved_state task_succeeded_x = Some SUCCESS) as Hr
    by (vm_compute; reflexivity).
  split; [exact Hr|].
  pose proof (proj1 (levels_agree_with_store
                [OpEvent (task_event "task-received" "x" 10 (Some "emailTask") None)]
                10000 no_redis task_succeeded_x SUCCESS Hr
                ltac:(vm_compute; reflexivity)) RECEIVED) as H.
  rewrite tracking_x_reached in H. rewrite H; [by vm_compute|].
  apply (bool_decide_unpack _). by vm_compute.
Defined.


(** ** A ready-state event for a task the store does not hold *)

Lemma on_tasks_pop_missing key w :
  data_get key (data (_state_tasks (monitor w))) = None →
  on_tasks (LRUCache_pop key) w = (Raise KeyError, w).
Proof.
  intros Hget. unfold on_tasks, LRUCache_pop.
  rewrite LRUCache_getitem_missing by done. by rewrite with_tasks_same.
Qed.

Lemma _observe_runtime_untracked evt w :
  tracked_record evt w = None → _observe_runtime evt w = (Ok (), w).
Proof.
  unfold tracked_record, _observe_runtime, try_else, mbind, M_bind, bind.
  destruct (evt_uuid evt) as [id|]; simpl; [|done].
  intros Hget. by rewrite on_tasks_getitem_missing.
Qed.


Lemma _incr_ready_task_untracked evt state w :
  tracked_record evt w = None →
  _incr_ready_task evt state w
  = (Ok (), with_metrics (with_TASKS (gauge_inc state)) w).
Proof.
  unfold tracked_record, _incr_ready_task, try_except, mbind, M_bind, bind,
    modify_metrics.
  destruct (evt_uuid evt) as [id|]; simpl; [|done].
  intros Hget. by rewrite on_tasks_pop_missing.
Qed.

Lemma ready_not_STARTED state : state ∈ READY_STATES → state ≠ STARTED.
Proof.
  intros Hs ->. apply (ready_not_unready STARTED); [done|].
  unfold UNREADY_STATES. rewrite !elem_of_union, !elem_of_singleton. tauto.
Qed.

Lemma _process_event_ready_untracked evt w state :
  tracks_unready (monitor w) →
  resolved_state evt = Some state → state ∈ READY_STATES →
  tracked_record evt w = None →
  (_process_event evt w).1 = Ok () ∧
  tasks_by_state (_process_event evt w).2 state = tasks_by_state w state + 1 ∧
  _state_tasks (monitor (_process_event evt w).2) = _state_tasks (monitor w) ∧
  (∀ s name, s ∈ READY_STATES →
     TASKS_NAME (metrics (_process_event evt w).2) !! (s, name)
     = TASKS_NAME (metrics w) !! (s, name)) ∧
  TASKS_RUNTIME (metrics (_process_event evt w).2) = TASKS_RUNTIME (metrics w).
Proof.
  intros Hw Hr Hs Hnone.
  rewrite (_process_event_resolved _ _ Hr). unfold _collect_tasks.
  rewrite (bool_decide_eq_false_2 (state = STARTED)) by by apply ready_not_STARTED.
  rewrite (bool_decide_eq_true_2 (state ∈ READY_STATES)) by done.
  unfold mbind, M_bind, bind. cbn [ret].
  assert ((if bool_decide (state = SUCCESS) then _observe_runtime evt else ret ()) w
          = (Ok (), w)) as ->.
  { case_bool_decide; [by apply _observe_runtime_untracked|done]. }
  rewrite (_incr_ready_task_untracked _ _ _ Hnone).
  set (w1 := with_metrics (with_TASKS (gauge_inc state)) w).
  assert (tracks_unready (monitor w1)) as Hw1 by done.
  split; [by rewrite _collect_unready_tasks_run|].
  split.
  { unfold tasks_by_state.
    rewrite (_collect_unready_tasks_ready_value w1 state Hw1 Hs).
    unfold w1. simpl. rewrite gauge_value_inc. by rewrite decide_True. }
  split; [by rewrite _collect_unready_tasks_run|].
  split; [|by rewrite _collect_unready_tasks_run].
  intros s name Hs'.
  by rewrite (_collect_unready_tasks_ready_TASKS_NAME w1 s name Hw1 Hs').
Qed.

(** X2.  A ready-state event (succeeded, failed, revoked) for an id the
    store does not hold, or without an id, is processed without an
    exception, in any state the process can reach: [TASKS] of its state goes
    up by one, the store stays as it was, no series of [TASKS_NAME] with a
    ready state is touched, and no runtime sample is observed. *)
Theorem ready_event_for_untracked_task (ops : list Op) (n : Z) (r : Redis)
    (evt : Event) (state : string) :
  resolved_state evt = Some state → state ∈ READY_STATES →
  tracked_record evt (exec_ops ops (Process_init n r)) = None →
  let w := exec_ops ops (Process_init n r) in
  let w' := (_process_event evt w).2 in
  (_process_event evt w).1 = Ok () ∧
  tasks_by_state w' state = tasks_by_state w state + 1 ∧
  _state_tasks (monitor w') = _state_tasks (monitor w) ∧
  (∀ s name, s ∈ READY_STATES →
     TASKS_NAME (metrics w') !! (s, name) = TASKS_NAME (metrics w) !! (s, name)) ∧
  TASKS_RUNTIME (metrics w') = TASKS_RUNTIME (metrics w).
Proof.
  intros Hr Hs Hnone. apply _process_event_ready_untracked; try done.
  apply reachable_tracks_unready.
Qed.

(** A succeeded event for "x" as the first event of the process. *)
Lemma ready_event_for_untracked_task_witness :
  tasks_by_state (_process_event task_succeeded_x (Process_init 10000 no_redis)).2 SUCCESS
  = 1.
Proof.
  assert (SUCCESS ∈ READY_STATES) as Hs by (apply (bool_decide_unpack _); by vm_compute).
  exact (proj1 (proj2 (ready_event_for_untracked_task [] 10000 no_redis
                         task_succeeded_x SUCCESS eq_refl Hs eq_refl))).
Defined.

(** ** A succeeded event that carries no runtime *)

(** X3.  A succeeded event without a [runtime] field, for a task the store
    holds: [evt['runtime']] raises KeyError in the [else] part of the [try],
    which no handler covers.  Event processing ends there.  The call of
    [labels], made before the field is read, has created the child of the
    runtime histogram for the [str] of the task's name, which is exposed
    with zero counts from then on; nothing else of the metrics is changed:
    no gauge, no sample of a histogram; and the task stays in the store. *)
Theorem succeeded_without_runtime_raises (evt : Event) (w : Process) (prev : Task) :
  0 ≤ limit (_state_tasks (monitor w)) →
  resolved_state evt = Some SUCCESS → evt_runtime evt = None →
  tracked_record evt w = Some prev →
  (_process_event evt w).1 = Raise KeyError ∧
  metrics (_process_event evt w).2
  = with_TASKS_RUNTIME_labels (λ children, {[ py_str (t_name prev) ]} ∪ children)
      (metrics w) ∧
  tracked_record evt (_process_event evt w).2 = Some prev.
Proof.
  intros Hlim Hr Hrt. unfold tracked_record.
  destruct (evt_uuid evt) as [id|] eqn:Hid; [|done]. intros Hget.
  rewrite (_process_event_resolved _ _ Hr).
  rewrite (bool_decide_eq_false_2 (SUCCESS = STARTED)) by done.
  rewrite (bool_decide_eq_true_2 (SUCCESS = SUCCESS)) by done.
  unfold mbind, M_bind, bind. cbn [ret].
  unfold _observe_runtime, try_else, mbind, M_bind, bind, on_tasks.
  rewrite Hid, Hrt. simpl.
  pose proof (LRUCache_getitem_found id prev _ Hlim Hget) as Hok.
  pose proof (LRUCache_getitem_keeps id prev _ Hlim Hget) as Hkeep.
  destruct (LRUCache_getitem id (_state_tasks (monitor w))) as [[x|e] c1]; [|done].
  simpl in *. by injection Hok as ->.
Qed.

Lemma succeeded_without_runtime_raises_witness :
  (_process_event (task_event "task-succeeded" "x" 12 None None) tracking_x).1
  = Raise KeyError ∧
  TASKS_RUNTIME_labels
    (metrics (_process_event (task_event "task-succeeded" "x" 12 None None)
                tracking_x).2)
  = {[ "emailTask" ]} ∪ ∅.
Proof.
  destruct (succeeded_without_runtime_raises
              (task_event "task-succeeded" "x" 12 None None) tracking_x
              {| t_state := Some RECEIVED; t_name := Some "emailTask";
                 t_timestamp := Some 10%float |})
    as (Hraise & Hm & _);
    [simpl; lia|reflexivity..|].
  split; [exact Hraise|]. by rewrite Hm.
Defined.

(** ** The histograms *)

Lemma _observe_latency_one_sample evt w :
  TASKS_RUNTIME (metrics (_observe_latency evt w).2) = TASKS_RUNTIME (metrics w) ∧
  (LATENCY (metrics (_observe_latency evt w).2) = LATENCY (metrics w) ∨
   ∃ x, LATENCY (metrics (_observe_latency evt w).2)
        = (LATENCY (metrics w) ++ [x])%list).
Proof.
  unfold _observe_latency, try_else, mbind, M_bind, bind, on_tasks.
  destruct (evt_uuid evt) as [id|]; simpl; [|by (split; [|left])].
  destruct (LRUCache_getitem id _) as [[prev|e] c]; simpl.
  - case_bool_decide; [|by (split; [|left])].
    destruct (evt_timestamp evt); simpl; [|by (split; [|left])].
    destruct (t_timestamp prev); simpl; [|by (split; [|left])].
    split; [done|right; eauto].
  - destruct e; by (split; [|left]).
Qed.

Lemma _observe_runtime_one_sample evt w :
  LATENCY (metrics (_observe_runtime evt w).2) = LATENCY (metrics w) ∧
  (TASKS_RUNTIME (metrics (_observe_runtime evt w).2) = TASKS_RUNTIME (metrics w) ∨
   ∃ name runtime,
     evt_runtime evt = Some runtime ∧
     TASKS_RUNTIME (metrics (_observe_runtime evt w).2)
     = (TASKS_RUNTIME (metrics w) ++ [(name, runtime)])%list).
Proof.
  unfold _observe_runtime, try_else, mbind, M_bind, bind, on_tasks.
  destruct (evt_uuid evt) as [id|]; simpl; [|by (split; [|left])].
  destruct (LRUCache_getitem id _) as [[prev|e] c]; simpl.
  - destruct (evt_runtime evt); simpl; [|by (split; [|left])].
    split; [done|right; eauto].
  - destruct e; by (split; [|left]).
Qed.

Lemma _process_event_samples evt w :
  (LATENCY (metrics (_process_event evt w).2) = LATENCY (metrics w) ∨
   resolved_state evt = Some STARTED ∧
   ∃ x, LATENCY (metrics (_process_event evt w).2)
        = (LATENCY (metrics w) ++ [x])%list) ∧
  (TASKS_RUNTIME (metrics (_process_event evt w).2) = TASKS_RUNTIME (metrics w) ∨
   resolved_state evt = Some SUCCESS ∧
   ∃ name runtime,
     evt_runtime evt = Some runtime ∧
     TASKS_RUNTIME (metrics (_process_event evt w).2)
     = (TASKS_RUNTIME (metrics w) ++ [(name, runtime)])%list).
Proof.
  destruct (resolved_state evt) as [st|] eqn:Hr.
  2:{ unfold resolved_state in Hr. case_bool_decide as Hg.
      - rewrite _process_event_unknown by done. simpl. by split; left.
      - rewrite _process_event_other by done. simpl. by split; left. }
  rewrite (_process_event_resolved _ _ Hr). unfold mbind, M_bind, bind.
  assert (TASKS_RUNTIME
            (metrics ((if bool_decide (st = STARTED) then _observe_latency evt
                       else ret ()) w).2) = TASKS_RUNTIME (metrics w) ∧
          (LATENCY
             (metrics ((if bool_decide (st = STARTED) then _observe_latency evt
                        else ret ()) w).2) = LATENCY (metrics w) ∨
           Some st = Some STARTED ∧
           ∃ x, LATENCY
                  (metrics ((if bool_decide (st = STARTED) then _observe_latency evt
                             else ret ()) w).2)
                = (LATENCY (metrics w) ++ [x])%list)) as [Hrt1 Hlat1].
  { case_bool_decide as Hst; [|by (split; [|left])].
    destruct (_observe_latency_one_sample evt w) as [? [?|?]]; subst;
      (split; [done|]); [by left|by right]. }
  destruct ((if bool_decide (st = STARTED) then _observe_latency evt else ret ()) w)
    as [[[]|e1] w1]; simpl in Hrt1, Hlat1 |- *; [|by (split; [|left])].
  assert (LATENCY
            (metrics ((if bool_decide (st = SUCCESS) then _observe_runtime evt
                       else ret ()) w1).2) = LATENCY (metrics w1) ∧
          (TASKS_RUNTIME
             (metrics ((if bool_decide (st = SUCCESS) then _observe_runtime evt
                        else ret ()) w1).2) = TASKS_RUNTIME (metrics w1) ∨
           Some st = Some SUCCESS ∧
           ∃ name runtime,
             evt_runtime evt = Some runtime ∧
             TASKS_RUNTIME
               (metrics ((if bool_decide (st = SUCCESS) then _observe_runtime evt
                          else ret ()) w1).2)
             = (TASKS_RUNTIME (metrics w1) ++ [(name, runtime)])%list)) as [Hlat2 Hrt2].
  { case_bool_decide as Hst; [|by (split; [|left])].
    destruct (_observe_runtime_one_sample evt w1) as [? [?|?]]; subst;
      (split; [done|]); [by left|by right]. }
  rewrite Hrt1 in Hrt2.
  destruct ((if bool_decide (st = SUCCESS) then _observe_runtime evt else ret ()) w1)
    as [[[]|e2] w2]; simpl in Hlat2, Hrt2 |- *; [|by rewrite Hlat2].
  destruct (_collect_tasks_histograms evt st w2) as [-> ->].
  by rewrite Hlat2.
Qed.

(** X4.  One event adds at most one sample to each histogram, at its end,
    and changes no earlier sample: a latency sample only when the event
    resolves to STARTED, a runtime sample only when it resolves to SUCCESS,
    and then the runtime is the one the event carries. *)
Theorem event_adds_at_most_one_sample (evt : Event) (w : Process) :
  (LATENCY (metrics (_process_event evt w).2) = LATENCY (metrics w) ∨
   resolved_state evt = Some STARTED ∧
   ∃ x, LATENCY (metrics (_process_event evt w).2)
        = (LATENCY (metrics w) ++ [x])%list) ∧
  (TASKS_RUNTIME (metrics (_process_event evt w).2) = TASKS_RUNTIME (metrics w) ∨
   resolved_state evt = Some SUCCESS ∧
   ∃ name runtime,
     evt_runtime evt = Some runtime ∧
     TASKS_RUNTIME (metrics (_process_event evt w).2)
     = (TASKS_RUNTIME (metrics w) ++ [(name, runtime)])%list).
Proof. apply _process_event_samples. Qed.

Lemma exec_op_histograms op w :
  LATENCY (metrics w) `prefix_of` LATENCY (metrics (exec_op op w)) ∧
  TASKS_RUNTIME (metrics w) `prefix_of` TASKS_RUNTIME (metrics (exec_op op w)).
Proof.
  assert (∀ c : M unit,
            preserves (λ w', LATENCY (metrics w') = LATENCY (metrics w) ∧
                             TASKS_RUNTIME (metrics w') = TASKS_RUNTIME (metrics w)) c →
            LATENCY (metrics w) `prefix_of` LATENCY (metrics (c w).2) ∧
            TASKS_RUNTIME (metrics w) `prefix_of` TASKS_RUNTIME (metrics (c w).2))
    as Hframe.
  { intros c Hc. by destruct (Hc w (conj eq_refl eq_refl)) as [-> ->]. }
  destruct op as [evt|app|app|env|r]; simpl.
  - destruct (_process_event_samples evt w) as [[->|(_ & x & ->)] [->|(_ & n & y & _ & ->)]];
      split; try done; by eexists.
  - apply Hframe. unfold setup_metrics. frame.
  - apply Hframe. unfold update_workers_count. frame.
  - apply Hframe.
    unfold run_turn, collect_metrics, _get_all_queues, _collect_queue_lengths,
      _collect_queue_tasks, _zero_not_exist_tasks.
    frame.
  - done.
Qed.

(** X5.  No step of the process drops or changes an observed sample: the
    samples of both histograms before any sequence of steps are a prefix of
    the samples after it.  Re-baselining, which sets the gauges back to 0,
    leaves the histograms as they are. *)
Theorem samples_are_never_dropped (ops : list Op) (w : Process) :
  LATENCY (metrics w) `prefix_of` LATENCY (metrics (exec_ops ops w)) ∧
  TASKS_RUNTIME (metrics w) `prefix_of` TASKS_RUNTIME (metrics (exec_ops ops w)).
Proof.
  revert w. induction ops as [|op ops IH]; intros w; simpl; [done|].
  destruct (exec_op_histograms op w) as [H1 H2].
  destruct (IH (exec_op op w)) as [H3 H4].
  split; by etrans.
Qed.

(** ** What event processing leaves alone *)

Lemma _process_event_leaves_alone evt w :
  WORKERS (metrics (_process_event evt w).2) = WORKERS (metrics w) ∧
  QUEUE_LENGTHS (metrics (_process_event evt w).2) = QUEUE_LENGTHS (metrics w) ∧
  QUEUE_TASKS (metrics (_process_event evt w).2) = QUEUE_TASKS (metrics w) ∧
  redis_client (_process_event evt w).2 = redis_client w ∧
  logged (_process_event evt w).2 = logged w ∧
  limit (_state_tasks (monitor (_process_event evt w).2))
  = limit (_state_tasks (monitor w)).
Proof.
  assert (preserves
            (λ w', WORKERS (metrics w') = WORKERS (metrics w) ∧
                   QUEUE_LENGTHS (metrics w') = QUEUE_LENGTHS (metrics w) ∧
                   QUEUE_TASKS (metrics w') = QUEUE_TASKS (metrics w) ∧
                   redis_client w' = redis_client w ∧
                   logged w' = logged w ∧
                   limit (_state_tasks (monitor w')) = limit (_state_tasks (monitor w)))
            (_process_event evt)) as H.
  { unfold _process_event, celery3_state, _observe_latency, _observe_runtime,
      _collect_tasks, _incr_ready_task, State_event, _collect_unready_tasks.
    pres; try done;
      apply preserves_on_tasks; intros ? ?; simpl;
      rewrite ?LRUCache_getitem_limit, ?LRUCache_pop_limit, ?LRUCache_setitem_limit;
      done. }
  by apply H.
Qed.

(** X6.  Processing an event touches only the store, the remembered labels,
    the two task gauges and the two histograms: the worker gauge, both queue
    gauges, the broker's data, the log and the capacity of the store are
    left as they were, whether the event is processed to the end or raises. *)
Theorem event_processing_leaves_the_rest (evt : Event) (w : Process) :
  WORKERS (metrics (_process_event evt w).2) = WORKERS (metrics w) ∧
  QUEUE_LENGTHS (metrics (_process_event evt w).2) = QUEUE_LENGTHS (metrics w) ∧
  QUEUE_TASKS (metrics (_process_event evt w).2) = QUEUE_TASKS (metrics w) ∧
  redis_client (_process_event evt w).2 = redis_client w ∧
  logged (_process_event evt w).2 = logged w ∧
  limit (_state_tasks (monitor (_process_event evt w).2))
  = limit (_state_tasks (monitor w)).
Proof. apply _process_event_leaves_alone. Qed.

(** ** Re-baselining *)

Lemma foldl_zero_lookup `{Countable K} {A} (key : A → K) (xs : list A)
    (g : gmap K Z) (l : K) :
  foldl (λ g x, gauge_set (key x) 0 g) g xs !! l
  = if bool_decide (l ∈ key <$> xs) then Some 0 else g !! l.
Proof.
  case_bool_decide as Hin.
  - apply list_elem_of_fmap in Hin as (x & -> & Hx).
    apply (foldl_gauge_set_in key (λ _, 0)); [by exists x|done].
  - apply (foldl_gauge_set_notin key (λ _, 0)). intros x Hx <-.
    apply Hin, list_elem_of_fmap. by exists x.
Qed.

Lemma foldl_zero_idem `{Countable K} {A} (key : A → K) (xs : list A) (g : gmap K Z) :
  foldl (λ g x, gauge_set (key x) 0 g) (foldl (λ g x, gauge_set (key x) 0 g) g xs) xs
  = foldl (λ g x, gauge_set (key x) 0 g) g xs.
Proof.
  apply map_eq. intros l. rewrite !foldl_zero_lookup. by case_bool_decide.
Qed.

(** The nested loops of the registered branch, as one loop over the states
    and one over the pairs of a state and a name. *)
Lemma foldl_baseline (names states : list string) (m : Metrics) :
  foldl (λ m st, with_TASKS_NAME (λ g, foldl (λ g n, gauge_set (st, n) 0 g) g names)
                   (with_TASKS (gauge_set st 0) m)) m states
  = with_TASKS_NAME
      (λ g, foldl (λ g p, gauge_set p 0 g) g
              (states ≫= λ st, (λ n, (st, n)) <$> names))
      (with_TASKS (λ g, foldl (λ g st, gauge_set st 0 g) g states) m).
Proof.
  revert m. induction states as [|st states IH]; intros m; [by destruct m|].
  cbn [foldl]. rewrite IH. unfold with_TASKS_NAME, with_TASKS.
  cbn [TASKS TASKS_NAME WORKERS LATENCY TASKS_RUNTIME QUEUE_LENGTHS QUEUE_TASKS].
  f_equal. change ((st :: states) ≫= λ st, (λ n, (st, n)) <$> names)
    with (((λ n, (st, n)) <$> names) ++ (states ≫= λ st, (λ n, (st, n)) <$> names))%list.
  by rewrite foldl_app, foldl_fmap.
Qed.

Lemma setup_metrics_registered_loops app regs w :
  registered_tasks app = Some regs →
  setup_metrics app w
  = (Ok (),
     with_metrics
       (λ m, with_TASKS_NAME
               (λ g, foldl (λ g p, gauge_set p 0 g) g
                       (ALL_STATES ≫= λ st, (λ n, (st, n)) <$> remove_dups (concat regs)))
               (with_TASKS (λ g, foldl (λ g st, gauge_set st 0 g) g ALL_STATES)
                  (with_WORKERS (λ _, 0) m)))
       w).
Proof.
  intros Hreg. rewrite (setup_metrics_registered _ _ _ Hreg). f_equal.
  unfold with_metrics. cbn [monitor redis_client metrics logged].
  by rewrite foldl_baseline.
Qed.

Lemma elem_of_states_names (states names : list string) (state name : string) :
  (state, name) ∈ states ≫= (λ st, (λ n, (st, n)) <$> names)
  ↔ state ∈ states ∧ name ∈ names.
Proof.
  rewrite list_elem_of_bind. split.
  - intros (st & Hin & Hst). apply list_elem_of_fmap in Hin as (n & [= -> ->] & Hn).
    done.
  - intros [Hst Hn]. exists state. split; [|done].
    apply list_elem_of_fmap. by exists name.
Qed.

Lemma setup_metrics_registered_lookups app regs w :
  registered_tasks app = Some regs →
  (setup_metrics app w).1 = Ok () ∧
  WORKERS (metrics (setup_metrics app w).2) = 0 ∧
  (∀ state, TASKS (metrics (setup_metrics app w).2) !! state
            = if bool_decide (state ∈ ALL_STATES) then Some 0
              else TASKS (metrics w) !! state) ∧
  (∀ state name,
     TASKS_NAME (metrics (setup_metrics app w).2) !! (state, name)
     = if bool_decide (state ∈ ALL_STATES ∧ name ∈ concat regs) then Some 0
       else TASKS_NAME (metrics w) !! (state, name)).
Proof.
  intros Hreg. rewrite (setup_metrics_registered_loops _ _ _ Hreg).
  unfold with_metrics, with_TASKS_NAME, with_TASKS, with_WORKERS.
  cbn [fst snd metrics TASKS TASKS_NAME WORKERS].
  split; [done|]. split; [done|]. split.
  - intros state. rewrite (foldl_zero_lookup (λ st : string, st)).
    by rewrite list_fmap_id.
  - intros state name.
    rewrite (foldl_zero_lookup (λ p : string * string, p)), list_fmap_id.
    rewrite (bool_decide_ext _ (state ∈ ALL_STATES ∧ name ∈ concat regs)); [done|].
    by rewrite elem_of_states_names, elem_of_remove_dups.
Qed.

(** X7.  When the application answers with its registered tasks,
    [setup_metrics] does not raise, sets the worker gauge to 0, sets the
    series of [TASKS] to 0 for exactly the states of [ALL_STATES] and the
    series of [TASKS_NAME] to 0 for exactly the pairs of such a state and a
    registered name; every other series keeps its value.  [ALL_STATES] has
    no REJECTED, so a REJECTED series is not re-baselined. *)
Theorem setup_metrics_baseline (app : App) (regs : list (list string)) (w : Process) :
  registered_tasks app = Some regs →
  (setup_metrics app w).1 = Ok () ∧
  WORKERS (metrics (setup_metrics app w).2) = 0 ∧
  (∀ state, TASKS (metrics (setup_metrics app w).2) !! state
            = if bool_decide (state ∈ ALL_STATES) then Some 0
              else TASKS (metrics w) !! state) ∧
  (∀ state name,
     TASKS_NAME (metrics (setup_metrics app w).2) !! (state, name)
     = if bool_decide (state ∈ ALL_STATES ∧ name ∈ concat regs) then Some 0
       else TASKS_NAME (metrics w) !! (state, name)) ∧
  REJECTED ∉ ALL_STATES.
Proof.
  intros Hreg.
  destruct (setup_metrics_registered_lookups app regs w Hreg) as (H1 & H2 & H3 & H4).
  repeat (split; [done|]). apply (bool_decide_unpack _). by vm_compute.
Qed.

Lemma setup_metrics_baseline_witness :
  TASKS (metrics (setup_metrics app_without_workers tracking_x).2) !! RECEIVED = Some 0.
Proof.
  exact (proj1 (proj2 (proj2 (setup_metrics_baseline app_without_workers []
                                tracking_x eq_refl))) RECEIVED).
Defined.

Lemma setup_metrics_failed_lookups app w :
  registered_tasks app = None →
  (setup_metrics app w).1 = Ok () ∧
  WORKERS (metrics (setup_metrics app w).2) = 0 ∧
  dom (TASKS (metrics (setup_metrics app w).2)) = dom (TASKS (metrics w)) ∧
  dom (TASKS_NAME (metrics (setup_metrics app w).2)) = dom (TASKS_NAME (metrics w)) ∧
  (∀ l v, TASKS (metrics (setup_metrics app w).2) !! l = Some v → v = 0) ∧
  (∀ l v, TASKS_NAME (metrics (setup_metrics app w).2) !! l = Some v → v = 0).
Proof.
  intros Hreg. rewrite (setup_metrics_failed _ _ Hreg). simpl.
  rewrite !dom_fmap_L. repeat (split; [done|]).
  split; intros l v; rewrite lookup_fmap; intros Hl;
    apply fmap_Some in Hl as (? & _ & ->); done.
Qed.

(** X8.  When the query for the registered tasks raises, [setup_metrics]
    does not raise either: it sets the worker gauge to 0 and every series of
    [TASKS] and [TASKS_NAME] that exists to 0, and creates no series. *)
Theorem setup_metrics_without_registry (app : App) (w : Process) :
  registered_tasks app = None →
  (setup_metrics app w).1 = Ok () ∧
  WORKERS (metrics (setup_metrics app w).2) = 0 ∧
  dom (TASKS (metrics (setup_metrics app w).2)) = dom (TASKS (metrics w)) ∧
  dom (TASKS_NAME (metrics (setup_metrics app w).2)) = dom (TASKS_NAME (metrics w)) ∧
  (∀ l v, TASKS (metrics (setup_metrics app w).2) !! l = Some v → v = 0) ∧
  (∀ l v, TASKS_NAME (metrics (setup_metrics app w).2) !! l = Some v → v = 0).
Proof. apply setup_metrics_failed_lookups. Qed.

Lemma setup_metrics_without_registry_witness :
  WORKERS (metrics (setup_metrics {| registered_tasks := None; ping := None |}
                      tracking_x).2) = 0.
Proof.
  exact (proj1 (proj2 (setup_metrics_without_registry
                         {| registered_tasks := None; ping := None |} tracking_x
                         eq_refl))).
Defined.

(** X9.  Re-baselining is idempotent: with the same answer of the
    application, a second [setup_metrics] right after the first changes
    nothing ([main] and the first turn of [_monitor] call it one after the
    other). *)
Theorem setup_metrics_idempotent (app : App) (w : Process) :
  setup_metrics app (setup_metrics app w).2 = setup_metrics app w.
Proof.
  destruct (registered_tasks app) as [regs|] eqn:Hreg.
  - rewrite !(setup_metrics_registered_loops _ _ _ Hreg). cbn [snd]. f_equal.
    unfold with_metrics. cbn [monitor redis_client metrics logged]. f_equal.
    unfold with_TASKS_NAME, with_TASKS, with_WORKERS.
    cbn [TASKS TASKS_NAME WORKERS LATENCY TASKS_RUNTIME QUEUE_LENGTHS QUEUE_TASKS].
    f_equal.
    + apply (foldl_zero_idem (λ st : string, st)).
    + apply (foldl_zero_idem (λ p : string * string, p)).
  - rewrite !(setup_metrics_failed _ _ Hreg). cbn [snd]. f_equal.
    unfold with_metrics. cbn [monitor redis_client metrics logged]. f_equal.
    unfold with_TASKS_NAME, with_TASKS, with_WORKERS.
    cbn [TASKS TASKS_NAME WORKERS LATENCY TASKS_RUNTIME QUEUE_LENGTHS QUEUE_TASKS].
    f_equal; by rewrite <- map_fmap_compose.
Qed.

(** ** A turn of the monitor loop *)

Lemma capture_raises events w : ∃ e, (capture events w).1 = Raise e.
Proof.
  revert w. induction events as [|evt events IH]; intros w; simpl; [by eexists|].
  unfold mbind, M_bind, bind.
  destruct (_process_event evt w) as [[[]|e] w']; [apply IH|by eexists].
Qed.

Lemma capture_logged events w : logged (capture events w).2 = logged w.
Proof.
  revert w. induction events as [|evt events IH]; intros w; simpl; [done|].
  unfold mbind, M_bind, bind.
  pose proof (_process_event_leaves_alone evt w) as (_ & _ & _ & _ & Hl & _).
  destruct (_process_event evt w) as [[[]|e] w']; simpl in *; [|done].
  by rewrite IH.
Qed.

Lemma setup_metrics_WORKERS app w : WORKERS (metrics (setup_metrics app w).2) = 0.
Proof.
  destruct (registered_tasks app) as [regs|] eqn:Hreg.
  - by destruct (setup_metrics_registered_lookups app regs w Hreg) as (_ & ? & _).
  - by destruct (setup_metrics_failed_lookups app w Hreg) as (_ & ? & _).
Qed.

Lemma _monitor_turn_run app app' events w :
  ∃ e w1, _monitor_turn app app' events w
          = setup_metrics app' (with_logged (λ l, (l ++ [e])%list) w1) ∧
          logged w1 = logged w.
Proof.
  unfold _monitor_turn, try_except, mbind, M_bind, bind.
  destruct events as [events|]; simpl.
  - pose proof (setup_metrics_Ok app w) as Hok.
    pose proof (setup_metrics_logged app w) as Hlog.
    destruct (setup_metrics app w) as [[[]|e0] w0]; [|done]. simpl in Hlog.
    destruct (capture_raises events w0) as [e He].
    pose proof (capture_logged events w0) as Hlog'.
    destruct (capture events w0) as [r w1]. simpl in *. subst r.
    exists e, w1. split; [|congruence].
    match goal with |- context [setup_metrics app' ?w2] =>
      pose proof (setup_metrics_Ok app' w2) as Hok';
      by destruct (setup_metrics app' w2) as [[[]|e'] w3] end.
  - exists ConnectionError, w. split; [|done].
    match goal with |- context [setup_metrics app' ?w2] =>
      pose proof (setup_metrics_Ok app' w2) as Hok';
      by destruct (setup_metrics app' w2) as [[[]|e'] w3] end.
Qed.

(** X10.  A turn of the loop of [_monitor] never raises, whatever the
    connection delivers and whether or not it can be made: the attempt always
    ends with an exception (the capture only returns by one), which is logged,
    exactly one entry per turn, and the metrics are re-baselined before the
    next attempt: the worker gauge and every series of [TASKS] for a state
    of [ALL_STATES] read 0. *)
Theorem monitor_turn_logs_and_rebaselines (app app' : App)
    (events : option (list Event)) (w : Process) :
  (_monitor_turn app app' events w).1 = Ok () ∧
  (∃ e, logged (_monitor_turn app app' events w).2 = (logged w ++ [e])%list) ∧
  WORKERS (metrics (_monitor_turn app app' events w).2) = 0 ∧
  (∀ state, state ∈ ALL_STATES →
            tasks_by_state (_monitor_turn app app' events w).2 state = 0).
Proof.
  destruct (_monitor_turn_run app app' events w) as (e & w1 & -> & Hlog).
  split; [apply setup_metrics_Ok|]. split.
  - exists e. rewrite setup_metrics_logged. simpl. by rewrite Hlog.
  - split; [apply setup_metrics_WORKERS|]. intros state Hs.
    by apply setup_metrics_TASKS.
Qed.

(** ** The queues of the broker *)

Lemma prefix_app (p t : string) : String.prefix p (p ++ t) = true.
Proof.
  induction p as [|c p IH]; simpl; [by destruct t|].
  by destruct (ascii_dec c c).
Qed.

Lemma slice_from_app (p t : string) : slice_from (String.length p) (p ++ t) = t.
Proof. induction p as [|c p IH]; simpl; [by destruct t|done]. Qed.

Lemma prefix_slice_from (p s : string) :
  String.prefix p s = true → s = (p ++ slice_from (String.length p) s)%string.
Proof.
  revert s. induction p as [|c p IH]; intros [|c' s]; simpl; try done.
  destruct (ascii_dec c c') as [->|]; [|done].
  intros Hp.
  change (String c' s = String c' (p ++ slice_from (String.length p) s)%string).
  f_equal. by apply IH.
Qed.

Lemma _get_all_queues_run w :
  _get_all_queues w
  = (Ok ((λ q, slice_from (String.length KEY_PREFIX) q)
           <$> List.filter (String.prefix KEY_PREFIX) (redis_keys (redis_client w))),
     w).
Proof. done. Qed.

Lemma elem_of_all_queues (keys : list string) (q : string) :
  q ∈ (λ q, slice_from (String.length KEY_PREFIX) q)
        <$> List.filter (String.prefix KEY_PREFIX) keys
  ↔ (KEY_PREFIX ++ q)%string ∈ keys.
Proof.
  rewrite list_elem_of_fmap. split.
  - intros (k & -> & Hk). apply list_elem_of_In, filter_In in Hk as [Hk Hp].
    rewrite <- (prefix_slice_from _ _ Hp). by apply list_elem_of_In.
  - intros Hk. exists (KEY_PREFIX ++ q)%string. split.
    + by rewrite slice_from_app.
    + apply list_elem_of_In, filter_In. split; [by apply list_elem_of_In|].
      apply prefix_app.
Qed.

Lemma elem_of_task_queues (queues : list string) (q : string) :
  q ∈ _get_task_queues queues ↔ q ∈ queues ∧ q ∉ BUILTIN_QUEUES.
Proof.
  unfold _get_task_queues. rewrite !list_elem_of_In, filter_In, <- !list_elem_of_In.
  rewrite negb_true_iff, bool_decide_eq_false. done.
Qed.

(** X11.  Queue discovery: [_get_all_queues] changes nothing and returns
    the queue names [q] for which the broker has the key [_kombu.binding.q],
    and no other name; the queues polled for their tasks are those of them
    that are not built-in queues. *)
Theorem queues_are_the_bound_keys (w : Process) :
  ∃ queues,
    _get_all_queues w = (Ok queues, w) ∧
    (∀ q, q ∈ queues ↔ (KEY_PREFIX ++ q)%string ∈ redis_keys (redis_client w)) ∧
    (∀ q, q ∈ _get_task_queues queues
          ↔ (KEY_PREFIX ++ q)%string ∈ redis_keys (redis_client w) ∧
            q ∉ BUILTIN_QUEUES).
Proof.
  eexists. split; [apply _get_all_queues_run|]. split.
  - intros q. apply elem_of_all_queues.
  - intros q. by rewrite elem_of_task_queues, elem_of_all_queues.
Qed.

(** ** The queue lengths *)

Lemma foldl_gauge_set_lookup `{Countable K} (val : K → Z) (xs : list K)
    (g : gmap K Z) (l : K) :
  foldl (λ g x, gauge_set x (val x) g) g xs !! l
  = if bool_decide (l ∈ xs) then Some (val l) else g !! l.
Proof.
  case_bool_decide as Hin.
  - apply (foldl_gauge_set_in (λ x, x) val); [by exists l|by intros y _ ->].
  - apply (foldl_gauge_set_notin (λ x, x) val). by intros x Hx ->.
Qed.

Lemma _collect_queue_lengths_loop_run queues w :
  for_in queues _collect_queue_lengths w
  = (Ok (),
     with_metrics
       (with_QUEUE_LENGTHS
          (λ g, foldl (λ g q, gauge_set q (Z.of_nat (length (lrange (redis_client w) q))) g)
                  g queues))
       w).
Proof.
  revert w. induction queues as [|q queues IH]; intros w.
  - by destruct w as [? ? [] ?].
  - cbn [for_in foldl]. unfold mbind, M_bind, bind.
    change (_collect_queue_lengths q w)
      with (Ok (),
            with_metrics
              (with_QUEUE_LENGTHS
                 (gauge_set q (Z.of_nat (length (lrange (redis_client w) q))))) w).
    cbv iota beta. rewrite IH. by destruct w as [? ? [] ?].
Qed.

Lemma _collect_queue_tasks_loop_QUEUE_LENGTHS queues w :
  QUEUE_LENGTHS (metrics (for_in queues _collect_queue_tasks w).2)
  = QUEUE_LENGTHS (metrics w).
Proof.
  assert (preserves (λ w', QUEUE_LENGTHS (metrics w') = QUEUE_LENGTHS (metrics w))
            (for_in queues _collect_queue_tasks)) as H.
  { unfold _collect_queue_tasks, _zero_not_exist_tasks. frame. }
  by apply H.
Qed.

Lemma collect_metrics_run w :
  collect_metrics w
  = for_in
      (_get_task_queues
         ((λ q, slice_from (String.length KEY_PREFIX) q)
            <$> List.filter (String.prefix KEY_PREFIX) (redis_keys (redis_client w))))
      _collect_queue_tasks
      (with_metrics
         (with_QUEUE_LENGTHS
            (λ g, foldl
                    (λ g q, gauge_set q (Z.of_nat (length (lrange (redis_client w) q))) g)
                    g
                    ((λ q, slice_from (String.length KEY_PREFIX) q)
                       <$> List.filter (String.prefix KEY_PREFIX)
                             (redis_keys (redis_client w)))))
         w).
Proof.
  unfold collect_metrics.
  unfold mbind at 1, M_bind at 1, bind at 1. rewrite _get_all_queues_run.
  cbv iota beta. unfold mbind, M_bind, bind.
  by rewrite _collect_queue_lengths_loop_run.
Qed.

(** X12.  A turn of the queue thread sets the length gauge of every queue
    the broker has a binding key for, the built-in queues included, to the
    length of the list of that name (0 when there is none), also when the
    poll of a task queue fails later in the cycle; the series of any other
    queue is left as it was.  The exceptions of the cycle are caught and
    logged, so in a process started without QUEUE_INTERVAL_SECONDS the turn
    never raises.  With the variable set, [INTERVAL_SECONDS] is its text,
    and every turn raises TypeError from [time.sleep], after the cycle and
    outside the [try]. *)
Theorem queue_lengths_set_for_every_queue (QUEUE_INTERVAL_SECONDS : option string)
    (w : Process) (q : string) :
  (run_turn QUEUE_INTERVAL_SECONDS w).1
  = match QUEUE_INTERVAL_SECONDS with
    | Some _ => Raise TypeError
    | None => Ok ()
    end ∧
  QUEUE_LENGTHS (metrics (run_turn QUEUE_INTERVAL_SECONDS w).2) !! q
  = if bool_decide ((KEY_PREFIX ++ q)%string ∈ redis_keys (redis_client w))
    then Some (Z.of_nat (length (lrange (redis_client w) q)))
    else QUEUE_LENGTHS (metrics w) !! q.
Proof.
  unfold run_turn, mbind, M_bind, bind, try_except. rewrite collect_metrics_run.
  match goal with |- context [for_in ?qs _collect_queue_tasks ?w1] =>
    pose proof (_collect_queue_tasks_loop_QUEUE_LENGTHS qs w1) as HQL;
    destruct (for_in qs _collect_queue_tasks w1) as [[[]|e] w2] end;
    unfold Exception;
    cbn [fst snd with_logged log_exception metrics] in HQL |- *;
    (destruct QUEUE_INTERVAL_SECONDS as [value|];
     cbn [INTERVAL_SECONDS sleep ret raise fst snd with_logged metrics];
     (split; [done|]));
    rewrite HQL; unfold with_metrics, with_QUEUE_LENGTHS; cbn [metrics QUEUE_LENGTHS];
    rewrite (foldl_gauge_set_lookup
               (λ q, Z.of_nat (length (lrange (redis_client w) q))));
    by rewrite (bool_decide_ext _ _ (elem_of_all_queues _ q)).
Qed.

(** ** What the queue thread does to the broker *)

Lemma preserves_sadd_members (P : Process → Prop) key members :
  (∀ w, P w →
        P (with_redis
             (with_sets (λ s, <[ key := smembers (redis_client w) key
                                        ∪ list_to_set members ]> s)) w)) →
  preserves P (sadd key members).
Proof. intros Hf w Hw. destruct members; simpl; [done|]. by apply Hf. Qed.

(** As [pres], with the update of a persisted set left as a goal about the
    set it writes. *)
Ltac pres_redis :=
  repeat first
    [ lazymatch goal with
      | |- preserves _ (sadd _ _) => apply preserves_sadd_members; intros ? ?
      end
    | pres_step ].

Lemma smembers_insert (r : Redis) (key key' : string) (X : gset string) :
  smembers (with_sets (λ s, <[ key := X ]> s) r) key'
  = if decide (key = key') then X else smembers r key'.
Proof.
  unfold smembers. simpl. destruct (decide (key = key')) as [->|Hne].
  - by rewrite lookup_insert_eq.
  - by rewrite lookup_insert_ne.
Qed.

(** X13.  The queue thread never writes a key or a list of the broker, and
    a persisted set of task names never loses a member: after a turn, every
    set contains what it contained before. *)
Theorem persisted_sets_never_shrink (QUEUE_INTERVAL_SECONDS : option string)
    (w : Process) :
  redis_keys (redis_client (run_turn QUEUE_INTERVAL_SECONDS w).2)
  = redis_keys (redis_client w) ∧
  redis_lists (redis_client (run_turn QUEUE_INTERVAL_SECONDS w).2)
  = redis_lists (redis_client w) ∧
  ∀ key, smembers (redis_client w) key
         ⊆ smembers (redis_client (run_turn QUEUE_INTERVAL_SECONDS w).2) key.
Proof.
  assert (preserves
            (λ w', redis_keys (redis_client w') = redis_keys (redis_client w) ∧
                   redis_lists (redis_client w') = redis_lists (redis_client w) ∧
                   ∀ key, smembers (redis_client w) key
                          ⊆ smembers (redis_client w') key)
            (run_turn QUEUE_INTERVAL_SECONDS)) as H.
  { unfold run_turn, collect_metrics, _get_all_queues, _collect_queue_lengths,
      _collect_queue_tasks, _zero_not_exist_tasks.
    pres_redis; try done.
    match goal with H : _ ∧ _ ∧ _ |- _ => destruct H as (Hk & Hl & Hs) end.
    split; [done|]. split; [done|]. intros key. cbn [redis_client with_redis].
    rewrite smembers_insert. destruct (decide (_ = key)) as [<-|]; [|done].
    etrans; [apply Hs|]. apply union_subseteq_l. }
  by apply H.
Qed.

(** ** An entry that raises an exception the tally does not catch *)

Lemma count_tasks_uncaught tasks acc :
  existsb uncaught tasks = true →
  ∃ e, count_tasks tasks acc = Raise e ∧ (e = UnicodeDecodeError ∨ e = TypeError).
Proof.
  revert acc. induction tasks as [|t tasks IH]; intros acc; [done|].
  cbn [existsb count_tasks]. unfold uncaught at 1.
  destruct t as [| | |[[n|]|]]; cbn; intros Hu;
    try (by apply IH); eexists; (split; [reflexivity|]); auto.
Qed.

(** X14.  When an entry of the queue is not UTF-8 text, or is JSON that is
    not an object, the exception it raises (UnicodeDecodeError, TypeError) is
    not one the tally catches: the poll of the queue ends with it before any
    gauge is set, and nothing is changed. *)
Theorem uncaught_entry_aborts_poll (queue : string) (w : Process) :
  existsb uncaught (lrange (redis_client w) queue) = true →
  ∃ e, _collect_queue_tasks queue w = (Raise e, w) ∧
       (e = UnicodeDecodeError ∨ e = TypeError).
Proof.
  intros Hu. destruct (count_tasks_uncaught _ ∅ Hu) as (e & Hc & He).
  exists e. split; [|done].
  unfold _collect_queue_tasks, mbind, M_bind, bind, get_redis. by rewrite Hc.
Qed.

Lemma uncaught_entry_aborts_poll_witness :
  ∃ e, _collect_queue_tasks "q" array_in_queue = (Raise e, array_in_queue) ∧
       (e = UnicodeDecodeError ∨ e = TypeError).
Proof. apply uncaught_entry_aborts_poll. vm_compute. reflexivity. Defined.

(** ** A poll and the other queues *)

Lemma length_append (s t : string) :
  String.length (s ++ t) = (String.length s + String.length t)%nat.
Proof. induction s as [|c s IH]; simpl; [done|]. by rewrite IH. Qed.

Lemma append_inv_tail (s s' t : string) : (s ++ t = s' ++ t)%string → s = s'.
Proof.
  revert s'. induction s as [|c s IH]; intros [|c' s'] Heq.
  - done.
  - apply (f_equal String.length) in Heq. rewrite !length_append in Heq.
    simpl in Heq. lia.
  - apply (f_equal String.length) in Heq. rewrite !length_append in Heq.
    simpl in Heq. lia.
  - change (String c (s ++ t) = String c' (s' ++ t)) in Heq.
    injection Heq as -> Heq. f_equal. by apply IH.
Qed.

Lemma _collect_queue_tasks_other queue q' w :
  q' ≠ queue →
  (∀ name, QUEUE_TASKS (metrics (_collect_queue_tasks queue w).2) !! (q', name)
           = QUEUE_TASKS (metrics w) !! (q', name)) ∧
  smembers (redis_client (_collect_queue_tasks queue w).2) (q' ++ "_tasks")
  = smembers (redis_client w) (q' ++ "_tasks") ∧
  QUEUE_LENGTHS (metrics (_collect_queue_tasks queue w).2) = QUEUE_LENGTHS (metrics w).
Proof.
  intros Hne.
  assert (preserves
            (λ w', (∀ name, QUEUE_TASKS (metrics w') !! (q', name)
                            = QUEUE_TASKS (metrics w) !! (q', name)) ∧
                   smembers (redis_client w') (q' ++ "_tasks")
                   = smembers (redis_client w) (q' ++ "_tasks") ∧
                   QUEUE_LENGTHS (metrics w') = QUEUE_LENGTHS (metrics w))
            (_collect_queue_tasks queue)) as H.
  { unfold _collect_queue_tasks, _zero_not_exist_tasks.
    pres_redis; try done;
      match goal with H : _ ∧ _ ∧ _ |- _ => destruct H as (Hq & Hs & Hl) end.
    - split; [|done]. intros name. cbn [metrics with_metrics QUEUE_TASKS with_QUEUE_TASKS].
      unfold gauge_set. rewrite lookup_insert_ne by congruence. apply Hq.
    - split; [|done]. intros name. cbn [metrics with_metrics QUEUE_TASKS with_QUEUE_TASKS].
      unfold gauge_set. rewrite lookup_insert_ne by congruence. apply Hq.
    - split; [done|]. split; [|done]. cbn [redis_client with_redis].
      rewrite smembers_insert. rewrite decide_False; [done|].
      intros Heq. by apply append_inv_tail in Heq. }
  by apply H.
Qed.

(** X15.  The poll of one queue touches the series and the persisted set of
    that queue only: for any other queue, every series of [QUEUE_TASKS] and
    the persisted set of names are left as they were, and so are all queue
    lengths, whether the poll completes or raises. *)
Theorem queue_poll_leaves_other_queues (queue q' : string) (w : Process) :
  q' ≠ queue →
  (∀ name, QUEUE_TASKS (metrics (_collect_queue_tasks queue w).2) !! (q', name)
           = QUEUE_TASKS (metrics w) !! (q', name)) ∧
  smembers (redis_client (_collect_queue_tasks queue w).2) (q' ++ "_tasks")
  = smembers (redis_client w) (q' ++ "_tasks") ∧
  QUEUE_LENGTHS (metrics (_collect_queue_tasks queue w).2) = QUEUE_LENGTHS (metrics w).
Proof. apply _collect_queue_tasks_other. Qed.

Lemma queue_poll_leaves_other_queues_witness :
  smembers (redis_client (_collect_queue_tasks "q2" drained_b).2) ("q" ++ "_tasks")
  = smembers (redis_client drained_b) ("q" ++ "_tasks").
Proof.
  refine (proj1 (proj2 (queue_poll_leaves_other_queues "q2" "q" drained_b _))).
  apply (bool_decide_unpack _). vm_compute. reflexivity.
Defined.

(** ** Series and remembered labels are kept *)

Lemma exec_op_keeps_series op w :
  dom (TASKS (metrics w)) ⊆ dom (TASKS (metrics (exec_op op w))) ∧
  dom (TASKS_NAME (metrics w)) ⊆ dom (TASKS_NAME (metrics (exec_op op w))) ∧
  dom (QUEUE_LENGTHS (metrics w)) ⊆ dom (QUEUE_LENGTHS (metrics (exec_op op w))) ∧
  dom (QUEUE_TASKS (metrics w)) ⊆ dom (QUEUE_TASKS (metrics (exec_op op w))) ∧
  _known_states (monitor w) ⊆ _known_states (monitor (exec_op op w)) ∧
  _known_states_names (monitor w) ⊆ _known_states_names (monitor (exec_op op w)).
Proof.
  assert (∀ c : M unit,
            preserves
              (λ w', dom (TASKS (metrics w)) ⊆ dom (TASKS (metrics w')) ∧
                     dom (TASKS_NAME (metrics w)) ⊆ dom (TASKS_NAME (metrics w')) ∧
                     dom (QUEUE_LENGTHS (metrics w)) ⊆ dom (QUEUE_LENGTHS (metrics w')) ∧
                     dom (QUEUE_TASKS (metrics w)) ⊆ dom (QUEUE_TASKS (metrics w')) ∧
                     _known_states (monitor w) ⊆ _known_states (monitor w') ∧
                     _known_states_names (monitor w) ⊆ _known_states_names (monitor w'))
              c →
            dom (TASKS (metrics w)) ⊆ dom (TASKS (metrics (c w).2)) ∧
            dom (TASKS_NAME (metrics w)) ⊆ dom (TASKS_NAME (metrics (c w).2)) ∧
            dom (QUEUE_LENGTHS (metrics w)) ⊆ dom (QUEUE_LENGTHS (metrics (c w).2)) ∧
            dom (QUEUE_TASKS (metrics w)) ⊆ dom (QUEUE_TASKS (metrics (c w).2)) ∧
            _known_states (monitor w) ⊆ _known_states (monitor (c w).2) ∧
            _known_states_names (monitor w) ⊆ _known_states_names (monitor (c w).2))
    as Hpres.
  { intros c Hc. by apply Hc. }
  destruct op as [evt|app|app|env|r]; cbn [exec_op]; [apply Hpres..|done].
  - unfold _process_event, celery3_state, _observe_latency, _observe_runtime,
      _collect_tasks, _incr_ready_task, State_event, _collect_unready_tasks.
    pres; try done;
      try (apply preserves_on_tasks; intros ? ?; simpl; done);
      match goal with H : _ ∧ _ |- _ => destruct H as (? & ? & ? & ? & ? & ?) end;
      repeat split; try done; simpl;
      unfold gauge_inc, gauge_set; rewrite ?dom_insert_L;
      try (by apply union_subseteq_r'); by apply union_subseteq_l'.
  - unfold setup_metrics.
    pres; try done;
      match goal with H : _ ∧ _ |- _ => destruct H as (? & ? & ? & ? & ? & ?) end;
      repeat split; try done; simpl;
      unfold gauge_set; rewrite ?dom_insert_L, ?dom_fmap_L;
      try done; by apply union_subseteq_r'.
  - unfold update_workers_count. pres; done.
  - unfold run_turn, collect_metrics, _get_all_queues, _collect_queue_lengths,
      _collect_queue_tasks, _zero_not_exist_tasks.
    pres; try done;
      match goal with H : _ ∧ _ |- _ => destruct H as (? & ? & ? & ? & ? & ?) end;
      repeat split; try done; simpl;
      unfold gauge_set; rewrite ?dom_insert_L; by apply union_subseteq_r'.
Qed.

(** X16.  No step of the process removes a series of a gauge or forgets a
    remembered label: the label sets of the four labelled gauges and the two
    sets of remembered labels only grow along any sequence of steps.  (A
    series is reset or set to 0, never deleted, so the number of exposed
    series never goes down.) *)
Theorem series_are_never_removed (ops : list Op) (w : Process) :
  dom (TASKS (metrics w)) ⊆ dom (TASKS (metrics (exec_ops ops w))) ∧
  dom (TASKS_NAME (metrics w)) ⊆ dom (TASKS_NAME (metrics (exec_ops ops w))) ∧
  dom (QUEUE_LENGTHS (metrics w)) ⊆ dom (QUEUE_LENGTHS (metrics (exec_ops ops w))) ∧
  dom (QUEUE_TASKS (metrics w)) ⊆ dom (QUEUE_TASKS (metrics (exec_ops ops w))) ∧
  _known_states (monitor w) ⊆ _known_states (monitor (exec_ops ops w)) ∧
  _known_states_names (monitor w) ⊆ _known_states_names (monitor (exec_ops ops w)).
Proof.
  revert w. induction ops as [|op ops IH]; intros w; simpl; [done|].
  destruct (exec_op_keeps_series op w) as (H1 & H2 & H3 & H4 & H5 & H6).
  destruct (IH (exec_op op w)) as (H1' & H2' & H3' & H4' & H5' & H6').
  repeat split; by etrans.
Qed.

(** ** A ready-state event removes the record of its task *)

Lemma data_get_None key d : data_get key d = None ↔ key ∉ d.*1.
Proof.
  induction d as [|[k x] d IH]; simpl.
  - split; [intros _; apply not_elem_of_nil|done].
  - rewrite not_elem_of_cons. case_bool_decide as Hk.
    + split; [done|]. intros [Hne _]. by destruct Hne.
    + rewrite IH. split; [by intros; split; [congruence|]|by intros [_ ?]].
Qed.

Lemma data_del_keys key d x : x ∈ (data_del key d).*1 → x ∈ d.*1.
Proof.
  induction d as [|[k v] d IH]; simpl; [done|].
  case_bool_decide; simpl.
  - intros. by right.
  - rewrite !elem_of_cons. intros [->|?]; [by left|right; by apply IH].
Qed.

Lemma data_del_NoDup key d : NoDup d.*1 → NoDup (data_del key d).*1.
Proof.
  induction d as [|[k v] d IH]; simpl; [done|].
  rewrite NoDup_cons. intros [Hk Hd]. case_bool_decide; simpl; [done|].
  apply NoDup_cons. split; [|by apply IH].
  intros Hin. by apply Hk, (data_del_keys key).
Qed.

Lemma data_get_del key d : NoDup d.*1 → data_get key (data_del key d) = None.
Proof.
  induction d as [|[k v] d IH]; simpl; [done|].
  rewrite NoDup_cons. intros [Hk Hd]. case_bool_decide as Heq; simpl.
  - subst. by apply data_get_None.
  - rewrite bool_decide_eq_false_2 by done. by apply IH.
Qed.

Lemma data_set_keys key v d :
  (data_set key v d).*1
  = match data_get key d with
    | Some _ => d.*1
    | None => (d.*1 ++ [key])%list
    end.
Proof.
  induction d as [|[k x] d IH]; [done|]. cbn [data_set data_get].
  case_bool_decide; rewrite !fmap_cons; [done|].
  rewrite IH. by destruct (data_get key d).
Qed.

Lemma data_set_NoDup key v d : NoDup d.*1 → NoDup (data_set key v d).*1.
Proof.
  intros Hd. rewrite data_set_keys.
  destruct (data_get key d) eqn:Hget; [done|].
  apply NoDup_app. split; [done|]. split; [|apply NoDup_singleton].
  intros x Hx Hk. apply list_elem_of_singleton in Hk as ->.
  by apply (data_get_None key d).
Qed.

Lemma data_get_snoc key v d :
  data_get key d = None → data_get key (d ++ [(key, v)]) = Some v.
Proof.
  induction d as [|[k x] d IH]; simpl.
  - by rewrite bool_decide_eq_true_2.
  - by case_bool_decide.
Qed.

Lemma data_del_snoc key v d :
  data_get key d = None → data_del key (d ++ [(key, v)]) = d.
Proof.
  induction d as [|[k x] d IH]; simpl.
  - by rewrite bool_decide_eq_true_2.
  - case_bool_decide; [done|]. intros Hg. by rewrite IH.
Qed.

Lemma LRUCache_setitem_NoDup key v c :
  NoDup (data c).*1 → NoDup (data (LRUCache_setitem key v c).2).*1.
Proof.
  intros Hd. unfold LRUCache_setitem.
  destruct (_ && _); [destruct (data c) as [|kv rest] eqn:Hc|]; simpl.
  - by rewrite Hc.
  - apply data_set_NoDup. simpl in Hd. by apply NoDup_cons in Hd as [_ ?].
  - by apply data_set_NoDup.
Qed.

Lemma LRUCache_getitem_NoDup key c :
  NoDup (data c).*1 → NoDup (data (LRUCache_getitem key c).2).*1.
Proof.
  intros Hd. unfold LRUCache_getitem.
  destruct (data_get key (data c)) as [v|]; [|done].
  match goal with |- context [LRUCache_setitem ?k ?x ?c1] =>
    pose proof (LRUCache_setitem_NoDup k x c1) as Hset;
    destruct (LRUCache_setitem k x c1) as [[[]|e] c2] end;
    apply Hset; simpl; by apply data_del_NoDup.
Qed.

Lemma LRUCache_pop_NoDup key c :
  NoDup (data c).*1 → NoDup (data (LRUCache_pop key c).2).*1.
Proof.
  intros Hd. unfold LRUCache_pop.
  pose proof (LRUCache_getitem_NoDup key c Hd) as Hget.
  destruct (LRUCache_getitem key c) as [[v|e] c1]; simpl in *; [|done].
  by apply data_del_NoDup.
Qed.

Lemma _process_event_keys_unique evt :
  preserves (λ w, keys_unique (monitor w)) (_process_event evt).
Proof.
  unfold _process_event, celery3_state, _observe_latency, _observe_runtime,
    _collect_tasks, _incr_ready_task, State_event, _collect_unready_tasks.
  pres; try done;
    apply preserves_on_tasks; intros ? ?; unfold keys_unique in *; simpl;
    first [ by apply LRUCache_getitem_NoDup | by apply LRUCache_pop_NoDup
          | by apply LRUCache_setitem_NoDup | by apply data_set_NoDup ].
Qed.

Lemma reachable_keys_unique ops n r :
  keys_unique (monitor (exec_ops ops (Process_init n r))).
Proof.
  apply exec_ops_monitor; [apply _process_event_keys_unique|].
  unfold keys_unique. simpl. apply NoDup_nil_2.
Qed.

Lemma _process_event_roomy evt :
  preserves (λ w, roomy (_state_tasks (monitor w))) (_process_event evt).
Proof.
  intros w [Hz|[Hpos Hle]].
  - left. by destruct (_process_event_leaves_alone evt w) as (_ & _ & _ & _ & _ & ->).
  - right. split.
    + by destruct (_process_event_leaves_alone evt w) as (_ & _ & _ & _ & _ & ->).
    + destruct (_process_event_within _ Hpos evt w (conj eq_refl Hle)) as [Hl Hle'].
      by destruct (_process_event_leaves_alone evt w) as (_ & _ & _ & _ & _ & ->).
Qed.

Lemma reachable_roomy ops n r :
  0 ≤ n → roomy (_state_tasks (monitor (exec_ops ops (Process_init n r)))).
Proof.
  intros Hn.
  apply (exec_ops_monitor (λ t, roomy (_state_tasks t)));
    [apply _process_event_roomy|].
  unfold roomy. simpl. lia.
Qed.

(** A lookup through the cache, when the cache is within its limit and the
    ids are distinct: the record moves to the end. *)
Lemma LRUCache_getitem_run key v c :
  roomy c → NoDup (data c).*1 → data_get key (data c) = Some v →
  LRUCache_getitem key c
  = (Ok v, {| limit := limit c; data := (data_del key (data c) ++ [(key, v)])%list |}).
Proof.
  intros Hroom Hd Hget. unfold LRUCache_getitem, LRUCache_setitem. rewrite Hget.
  cbn [limit data].
  pose proof (data_del_length_present key (data c) (mk_is_Some _ _ Hget)) as Hlen.
  rewrite (data_set_fresh key v (data_del key (data c))) by by apply data_get_del.
  destruct (_ && _) eqn:Hfull; [|done].
  apply andb_true_iff in Hfull as [Hz%bool_decide_eq_true Hfull%bool_decide_eq_true].
  destruct Hroom as [?|[_ ?]]; [done|lia].
Qed.

Lemma LRUCache_pop_run key v c :
  roomy c → NoDup (data c).*1 → data_get key (data c) = Some v →
  LRUCache_pop key c = (Ok v, {| limit := limit c; data := data_del key (data c) |}).
Proof.
  intros Hroom Hd Hget. unfold LRUCache_pop.
  rewrite (LRUCache_getitem_run key v c Hroom Hd Hget). cbn [limit data].
  by rewrite data_del_snoc by by apply data_get_del.
Qed.

Lemma _incr_ready_task_removes evt state w id prev :
  evt_uuid evt = Some id →
  roomy (_state_tasks (monitor w)) → keys_unique (monitor w) →
  data_get id (data (_state_tasks (monitor w))) = Some prev →
  (_incr_ready_task evt state w).1 = Ok () ∧
  data (_state_tasks (monitor (_incr_ready_task evt state w).2))
  = data_del id (data (_state_tasks (monitor w))).
Proof.
  intros Hid Hroom Hd Hget.
  unfold _incr_ready_task, try_except, mbind, M_bind, bind, on_tasks, modify_metrics.
  rewrite Hid. simpl.
  by rewrite (LRUCache_pop_run id prev _ Hroom Hd Hget).
Qed.

Lemma _observe_runtime_moves evt w id prev runtime :
  evt_uuid evt = Some id → evt_runtime evt = Some runtime →
  roomy (_state_tasks (monitor w)) → keys_unique (monitor w) →
  data_get id (data (_state_tasks (monitor w))) = Some prev →
  (_observe_runtime evt w).1 = Ok () ∧
  _state_tasks (monitor (_observe_runtime evt w).2)
  = {| limit := limit (_state_tasks (monitor w));
       data := (data_del id (data (_state_tasks (monitor w))) ++ [(id, prev)])%list |}.
Proof.
  intros Hid Hrt Hroom Hd Hget.
  unfold _observe_runtime, try_else, mbind, M_bind, bind, on_tasks.
  rewrite Hid, Hrt. simpl.
  by rewrite (LRUCache_getitem_run id prev _ Hroom Hd Hget).
Qed.

Lemma _process_event_ready_removes evt w id prev state :
  roomy (_state_tasks (monitor w)) → keys_unique (monitor w) →
  resolved_state evt = Some state → state ∈ READY_STATES →
  evt_uuid evt = Some id →
  (state = SUCCESS → is_Some (evt_runtime evt)) →
  data_get id (data (_state_tasks (monitor w))) = Some prev →
  (_process_event evt w).1 = Ok () ∧
  data (_state_tasks (monitor (_process_event evt w).2))
  = data_del id (data (_state_tasks (monitor w))).
Proof.
  intros Hroom Hd Hr Hs Hid Hrt Hget.
  rewrite (_process_event_resolved _ _ Hr). unfold _collect_tasks.
  rewrite (bool_decide_eq_false_2 (state = STARTED)) by by apply ready_not_STARTED.
  rewrite (bool_decide_eq_true_2 (state ∈ READY_STATES)) by done.
  unfold mbind, M_bind, bind. cbn [ret].
  assert (∃ w1, (if bool_decide (state = SUCCESS) then _observe_runtime evt
                 else ret ()) w = (Ok (), w1) ∧
                roomy (_state_tasks (monitor w1)) ∧ keys_unique (monitor w1) ∧
                data_get id (data (_state_tasks (monitor w1))) = Some prev ∧
                data_del id (data (_state_tasks (monitor w1)))
                = data_del id (data (_state_tasks (monitor w))))
    as (w1 & -> & Hroom1 & Hd1 & Hget1 & Hdel1).
  { case_bool_decide as Hsucc; [|by exists w].
    destruct (Hrt Hsucc) as [runtime Hruntime].
    destruct (_observe_runtime_moves evt w id prev runtime) as [Hok Hst]; try done.
    pose proof (LRUCache_getitem_NoDup id _ Hd) as Hnd.
    rewrite (LRUCache_getitem_run id prev _ Hroom Hd Hget) in Hnd.
    pose proof (data_del_length_present id _ (mk_is_Some _ _ Hget)) as Hlen.
    pose proof (data_get_del id _ Hd) as Hnone.
    destruct (_observe_runtime evt w) as [[[]|e] w1]; [|done].
    exists w1. simpl in *. unfold keys_unique. rewrite Hst. simpl.
    split; [done|]. split.
    { unfold roomy in *. simpl. rewrite length_app. simpl. lia. }
    split; [done|]. split; [by apply data_get_snoc|by apply data_del_snoc]. }
  destruct (_incr_ready_task_removes evt state w1 id prev) as [Hok2 Hst2]; try done.
  destruct (_incr_ready_task evt state w1) as [[[]|e] w2]; [|done].
  simpl in *. rewrite _collect_unready_tasks_run. simpl. split; [done|]. congruence.
Qed.

(** X17.  A ready-state event for a task the store holds, in any state the
    process can reach with a capacity that is not negative (a succeeded
    event carrying its runtime): the event is processed without an
    exception and removes exactly the record of its task; the other records
    stay, in their order, and the task is no longer tracked. *)
Theorem ready_event_removes_the_record (ops : list Op) (n : Z) (r : Redis)
    (evt : Event) (id : string) (prev : Task) (state : string) :
  0 ≤ n →
  resolved_state evt = Some state → state ∈ READY_STATES →
  evt_uuid evt = Some id →
  (state = SUCCESS → is_Some (evt_runtime evt)) →
  data_get id (data (_state_tasks (monitor (exec_ops ops (Process_init n r)))))
  = Some prev →
  let w := exec_ops ops (Process_init n r) in
  (_process_event evt w).1 = Ok () ∧
  data (_state_tasks (monitor (_process_event evt w).2))
  = data_del id (data (_state_tasks (monitor w))) ∧
  tracked_record evt (_process_event evt w).2 = None.
Proof.
  intros Hn Hr Hs Hid Hrt Hget w.
  pose proof (reachable_keys_unique ops n r) as Hd.
  destruct (_process_event_ready_removes evt w id prev state) as [Hok Hst];
    try done; [by apply reachable_roomy|].
  split; [done|]. split; [done|].
  unfold tracked_record. rewrite Hid, Hst. by apply data_get_del.
Qed.

Lemma ready_event_removes_the_record_witness :
  data (_state_tasks (monitor (_process_event task_succeeded_x
          (exec_ops [OpEvent (task_event "task-received" "x" 10 (Some "emailTask") None)]
             (Process_init 10000 no_redis))).2))
  = data_del "x"
      (data (_state_tasks (monitor
         (exec_ops [OpEvent (task_event "task-received" "x" 10 (Some "emailTask") None)]
            (Process_init 10000 no_redis))))).
Proof.
  assert (SUCCESS ∈ READY_STATES) as Hs by (apply (bool_decide_unpack _); by vm_compute).
  refine (proj1 (proj2 (ready_event_removes_the_record
            [OpEvent (task_event "task-received" "x" 10 (Some "emailTask") None)]
            10000 no_redis task_succeeded_x "x"
            {| t_state := Some RECEIVED; t_name := Some "emailTask";
               t_timestamp := Some 10%float |}
            SUCCESS _ eq_refl Hs eq_refl (λ _, mk_is_Some _ _ eq_refl) _))).
  - lia.
  - vm_compute. reflexivity.
Defined.

(** ** A whole cycle of the queue thread *)

Lemma _collect_queue_tasks_counted queue w n :
  (_collect_queue_tasks queue w).1 = Ok () →
  n ∈ decoded_names (lrange (redis_client w) queue) →
  QUEUE_TASKS (metrics (_collect_queue_tasks queue w).2) !! (queue, n)
  = Some (occurrences n (decoded_names (lrange (redis_client w) queue))).
Proof.
  intros Hok Hn.
  destruct (count_tasks (lrange (redis_client w) queue) ∅) as [counts|e] eqn:Hc.
  - rewrite (_collect_queue_tasks_run _ _ _ Hc), sadd_metrics.
    cbn [metrics with_metrics QUEUE_TASKS with_QUEUE_TASKS].
    apply queue_tasks_after_counted.
    rewrite (count_tasks_tally _ _ _ Hc), decide_True by done.
    unfold gauge_value. by rewrite lookup_empty.
  - revert Hok. unfold _collect_queue_tasks, mbind, M_bind, bind, get_redis.
    by rewrite Hc.
Qed.

Lemma _collect_queue_tasks_lists queue w :
  redis_lists (redis_client (_collect_queue_tasks queue w).2)
  = redis_lists (redis_client w).
Proof.
  assert (preserves (λ w', redis_lists (redis_client w') = redis_lists (redis_client w))
            (_collect_queue_tasks queue)) as H.
  { unfold _collect_queue_tasks, _zero_not_exist_tasks. frame. }
  by apply H.
Qed.

Lemma _collect_queue_tasks_loop_other qs w q n :
  (∀ q', q' ∈ qs → q' ≠ q) →
  QUEUE_TASKS (metrics (for_in qs _collect_queue_tasks w).2) !! (q, n)
  = QUEUE_TASKS (metrics w) !! (q, n).
Proof.
  intros Hne.
  assert (preserves (λ w', QUEUE_TASKS (metrics w') !! (q, n)
                           = QUEUE_TASKS (metrics w) !! (q, n))
            (for_in qs _collect_queue_tasks)) as H.
  { apply preserves_for_in. intros q' Hq' w0 Hw0.
    destruct (_collect_queue_tasks_other q' q w0) as [Hother _].
    - intros <-. by apply (Hne q).
    - by rewrite Hother. }
  by apply H.
Qed.

Lemma _collect_queue_tasks_loop_counted qs w q n :
  (for_in qs _collect_queue_tasks w).1 = Ok () →
  q ∈ qs →
  n ∈ decoded_names (lrange (redis_client w) q) →
  QUEUE_TASKS (metrics (for_in qs _collect_queue_tasks w).2) !! (q, n)
  = Some (occurrences n (decoded_names (lrange (redis_client w) q))).
Proof.
  revert w. induction qs as [|q0 qs IH]; intros w Hok Hq Hn.
  - by apply elem_of_nil in Hq.
  - revert Hok. cbn [for_in]. unfold mbind, M_bind, bind.
    pose proof (_collect_queue_tasks_lists q0 w) as Hlists.
    pose proof (_collect_queue_tasks_counted q0 w n) as Hcount.
    destruct (_collect_queue_tasks q0 w) as [[[]|e] w1]; [|done].
    simpl in Hlists, Hcount. intros Hok.
    assert (lrange (redis_client w1) q = lrange (redis_client w) q) as Hlr
      by (unfold lrange; by rewrite Hlists).
    destruct (decide (q ∈ qs)) as [Hin|Hnin].
    + rewrite <- Hlr. apply IH; [done..|by rewrite Hlr].
    + apply elem_of_cons in Hq as [->|Hq]; [|done].
      rewrite _collect_queue_tasks_loop_other; [by apply Hcount|].
      by intros q' Hq' ->.
Qed.

(** X18.  A cycle of the queue thread that completes: for every task queue
    the broker has a binding key for, and every task name that occurs in the
    entries of its list, the series of [QUEUE_TASKS] for the queue and the
    name holds the number of entries with that name, whatever the other
    queues hold and in whatever order the queues are polled. *)
Theorem cycle_counts_every_task_queue (w : Process) (q n : string) :
  (collect_metrics w).1 = Ok () →
  (KEY_PREFIX ++ q)%string ∈ redis_keys (redis_client w) →
  q ∉ BUILTIN_QUEUES →
  n ∈ decoded_names (lrange (redis_client w) q) →
  QUEUE_TASKS (metrics (collect_metrics w).2) !! (q, n)
  = Some (occurrences n (decoded_names (lrange (redis_client w) q))).
Proof.
  rewrite collect_metrics_run. intros Hok Hkey Hq Hn.
  apply (_collect_queue_tasks_loop_counted _ _ q n Hok); [|done].
  apply elem_of_task_queues. split; [by apply elem_of_all_queues|done].
Qed.

Lemma cycle_counts_every_task_queue_witness :
  QUEUE_TASKS (metrics (collect_metrics drained_b).2) !! ("q", "a")
  = Some (occurrences "a" (decoded_names (lrange (redis_client drained_b) "q"))).
Proof.
  apply cycle_counts_every_task_queue.
  - vm_compute. reflexivity.
  - apply (bool_decide_unpack _). vm_compute. reflexivity.
  - apply (bool_decide_unpack _). vm_compute. reflexivity.
  - apply (bool_decide_unpack _). vm_compute. reflexivity.
Defined.

(** ** The listen address *)

Lemma split_colon_nonempty (s : string) : split_colon s ≠ [].
Proof.
  induction s as [|c s IH]; simpl; [done|].
  destruct (Ascii.eqb c ":"); [done|]. by destruct (split_colon s).
Qed.

Lemma split_colon_head (s h : string) (rest : list string) :
  split_colon s = h :: rest →
  colons h = 0%nat ∧
  (rest = [] ∧ s = h ∨
   ∃ t, s = (h ++ String ":" t)%string ∧ split_colon t = rest).
Proof.
  revert h rest. induction s as [|c s IH]; intros h rest; simpl.
  - intros [= <- <-]. split; [done|]. by left.
  - destruct (Ascii.eqb c ":") eqn:Hc.
    + apply Ascii.eqb_eq in Hc as ->. intros [= <- <-]. split; [done|].
      right. by exists s.
    + destruct (split_colon s) as [|p ps] eqn:Hs; [by apply split_colon_nonempty in Hs|].
      intros [= <- <-]. destruct (IH p ps eq_refl) as [Hp Hrest].
      split; [simpl; by rewrite Hc|].
      destruct Hrest as [[-> ->]|(t & -> & Ht)]; [by left|].
      right. by exists t.
Qed.

Lemma split_colon_no_colon (s : string) : colons s = 0%nat → split_colon s = [s].
Proof.
  induction s as [|c s IH]; simpl; [done|].
  destruct (Ascii.eqb c ":"); [done|]. intros Hs. by rewrite IH.
Qed.

Lemma split_colon_app (h t : string) :
  colons h = 0%nat →
  split_colon (h ++ String ":" t) = h :: split_colon t.
Proof.
  induction h as [|c h IH]; [done|]. cbn [colons].
  change (String c h ++ String ":" t)%string with (String c (h ++ String ":" t)).
  cbn [split_colon]. destruct (Ascii.eqb c ":"); [done|].
  intros Hh. by rewrite IH.
Qed.

(** X19.  [start_httpd] takes its address apart at the colons and needs
    exactly two pieces: the unpacking yields [host] and [port] exactly when
    the address is [host], a colon, and [port], with no colon in either;
    an address with no colon or with more than one makes it raise. *)
Theorem start_httpd_needs_one_colon (addr host port : string) :
  start_httpd_address addr = Some (host, port)
  ↔ addr = (host ++ String ":" port)%string ∧
    colons host = 0%nat ∧ colons port = 0%nat.
Proof.
  unfold start_httpd_address. split.
  - destruct (split_colon addr) as [|h [|p [|x rest]]] eqn:Hs; try done.
    intros [= -> ->].
    destruct (split_colon_head _ _ _ Hs) as [Hh [[? _]|(t & -> & Ht)]]; [done|].
    destruct (split_colon_head _ _ _ Ht) as [Hp [[_ ->]|(t' & _ & Ht')]]; [done|].
    by apply split_colon_nonempty in Ht'.
  - intros (-> & Hh & Hp).
    by rewrite (split_colon_app _ _ Hh), (split_colon_no_colon _ Hp).
Qed.

(** The default address, a bare port, and an IPv6 address. *)
Example start_httpd_addresses :
  start_httpd_address "0.0.0.0:8888" = Some ("0.0.0.0", "8888") ∧
  start_httpd_address "8888" = None ∧
  start_httpd_address "[::1]:8888" = None.
Proof. by vm_compute. Qed.

(** ** A well-formed event of an unready state *)


















(** ** The gauges are never negative *)

Lemma gauge_value_nonneg `{Countable K} (g : gmap K Z) (l : K) :
  map_Forall (λ _ v, 0 ≤ v) g → 0 ≤ gauge_value g l.
Proof.
  intros Hg. unfold gauge_value. destruct (g !! l) as [v|] eqn:Hl; simpl; [|lia].
  by apply (Hg l v).
Qed.

Lemma gauge_inc_nonneg `{Countable K} (g : gmap K Z) (l : K) :
  map_Forall (λ _ v, 0 ≤ v) g → map_Forall (λ _ v, 0 ≤ v) (gauge_inc l g).
Proof.
  intros Hg. unfold gauge_inc. apply map_Forall_insert_2; [|done].
  pose proof (gauge_value_nonneg g l Hg). lia.
Qed.

Lemma gauge_set_nonneg `{Countable K} (g : gmap K Z) (l : K) (v : Z) :
  0 ≤ v → map_Forall (λ _ v, 0 ≤ v) g → map_Forall (λ _ v, 0 ≤ v) (gauge_set l v g).
Proof. intros Hv Hg. unfold gauge_set. by apply map_Forall_insert_2. Qed.

Lemma zeroed_nonneg `{Countable K} (g : gmap K Z) :
  map_Forall (λ _ v, 0 ≤ v) ((λ _, 0) <$> g).
Proof. intros l v. rewrite lookup_fmap. intros (? & _ & ->)%fmap_Some. lia. Qed.

Lemma Counter_nonneg `{Countable K} (xs : list K) (x : K) :
  0 ≤ gauge_value (Counter xs) x.
Proof. rewrite Counter_value. lia. Qed.

Lemma count_tasks_nonneg tasks acc counts :
  count_tasks tasks acc = Ok counts →
  map_Forall (λ _ v, 0 ≤ v) acc → map_Forall (λ _ v, 0 ≤ v) counts.
Proof.
  revert acc. induction tasks as [|t tasks IH]; intros acc; cbn [count_tasks].
  - by intros [= <-].
  - destruct (task_name_of t) as [name|e].
    + intros Hc Hacc. apply (IH _ Hc). rewrite setdefault_insert.
      apply map_Forall_insert_2; [|done].
      pose proof (gauge_value_nonneg acc name Hacc). lia.
    + destruct (catches _ e); [apply IH|done].
Qed.

(** Closes the goal left by an update of the metrics in a proof that the
    gauges stay non-negative. *)
Ltac nonneg_step :=
  match goal with
  | H : gauges_nonnegative _ |- gauges_nonnegative _ =>
      destruct H as (? & ? & ? & ? & ?);
      repeat split; cbn [metrics with_metrics with_TASKS with_TASKS_NAME with_WORKERS
                         with_LATENCY with_TASKS_RUNTIME with_QUEUE_LENGTHS
                         with_QUEUE_TASKS TASKS TASKS_NAME WORKERS QUEUE_LENGTHS
                         QUEUE_TASKS];
      first [ done
            | by apply gauge_inc_nonneg
            | by apply zeroed_nonneg
            | apply gauge_set_nonneg; [|done];
              first [ done | lia | by apply Counter_nonneg ]
            | lia ]
  end.

Lemma exec_op_nonnegative op w :
  gauges_nonnegative (metrics w) → gauges_nonnegative (metrics (exec_op op w)).
Proof.
  assert (∀ c : M unit,
            preserves (λ w', gauges_nonnegative (metrics w')) c →
            gauges_nonnegative (metrics w) → gauges_nonnegative (metrics (c w).2))
    as Hpres by (intros c Hc; apply Hc).
  destruct op as [evt|app|app|env|r]; cbn [exec_op]; [apply Hpres..|done].
  - unfold _process_event, celery3_state, _observe_latency, _observe_runtime,
      _collect_tasks, _incr_ready_task, State_event, _collect_unready_tasks.
    pres; try done; try (apply preserves_on_tasks; intros ? ?; simpl; done);
      nonneg_step.
  - unfold setup_metrics. pres; try done; nonneg_step.
  - unfold update_workers_count. pres; try done; nonneg_step.
  - unfold run_turn, collect_metrics, _get_all_queues, _collect_queue_lengths,
      _collect_queue_tasks, _zero_not_exist_tasks.
    pres; try done; try nonneg_step.
    match goal with
    | Hc : count_tasks _ ∅ = Ok ?counts, Hx : ?x ∈ map_to_list ?counts,
      H : gauges_nonnegative _ |- _ =>
        destruct H as (? & ? & ? & ? & ?); repeat split; try done;
        cbn [metrics with_metrics with_QUEUE_TASKS QUEUE_TASKS];
        apply gauge_set_nonneg; [|done];
        destruct x as [k v]; apply elem_of_map_to_list in Hx;
        exact (count_tasks_nonneg _ _ _ Hc (map_Forall_empty _) k v Hx)
    end.
Qed.

Lemma exec_ops_nonnegative ops w :
  gauges_nonnegative (metrics w) → gauges_nonnegative (metrics (exec_ops ops w)).
Proof.
  revert w. induction ops as [|op ops IH]; intros w Hw; simpl; [done|].
  by apply IH, exec_op_nonnegative.
Qed.

(** X21.  In every state the process can reach, no gauge is negative: every
    series of the task gauges, the worker gauge, and every series of the
    queue gauges is 0 or more. *)
Theorem gauges_are_never_negative (ops : list Op) (n : Z) (r : Redis) :
  gauges_nonnegative (metrics (exec_ops ops (Process_init n r))).
Proof.
  apply exec_ops_nonnegative. unfold gauges_nonnegative. simpl.
  split; [apply map_Forall_empty|]. split; [apply map_Forall_empty|].
  split; [lia|]. split; apply map_Forall_empty.
Qed.

(** ** The bound of the store and the order of eviction *)







